(** * Agentic code executor: plan graph, recovery controller, sandbox, loop

    A shallow embedding of the Python package [agentic_executor]
    ([planner.py], [tools.py], [sandbox.py], [executor.py]) together with
    the properties its design document states about it.

    Conventions of the embedding.
    - A Python [str] is a [string]; [str.lower] acts on the letters A-Z.
    - A value of type [Any] stored in a parameter dictionary is a [PyVal].
    - A [Dict[str, _]] is a [gmap string _].
    - A reference to a [PlanStep] object owned by a plan is the position of
      that object in [plan.steps]: plans only ever grow by [append], so a
      position denotes the same object for the whole life of the plan.
      Mutating a step through a reference is an update of the list at that
      position.
    - A Python exception that escapes a function is the [Raise] outcome. *)

From Stdlib Require Import Ascii QArith.
From stdpp Require Import gmap strings list fin_maps pretty.

Local Open Scope string_scope.
Local Open Scope list_scope.

(** ** Outcomes of code that may raise *)

Inductive exn :=
  | AttributeError   (* a method was looked up on an object that lacks it *)
  | TypeError        (* a call bound one of its parameters twice *)
  | OSError          (* the operating system refused a request *)
  | NoSuchObject.    (* a reference that denotes no step of the plan *)

Inductive outcome (A : Type) :=
  | Ok (a : A)
  | Raise (e : exn).
Arguments Ok {A} a.
Arguments Raise {A} e.

#[global] Instance outcome_ret : MRet outcome := λ A a, Ok a.

#[global] Instance outcome_bind : MBind outcome := λ A B k m,
  match m with
  | Ok a => k a
  | Raise e => Raise e
  end.

(** ** Python values and strings *)

Inductive PyVal :=
  | VStr (s : string)
  | VInt (z : Z)
  | VBool (b : bool)
  | VNone.

Module PyStr.

(** [str(v)], as used by f-string interpolation. *)
Definition format (v : PyVal) : string :=
  match v with
  | VStr s => s
  | VInt z => pretty z
  | VBool true => "True"
  | VBool false => "False"
  | VNone => "None"
  end.

Definition lower_char (c : ascii) : ascii :=
  let n := nat_of_ascii c in
  if (65 <=? n)%nat && (n <=? 90)%nat then ascii_of_nat (n + 32) else c.

(** [s.lower()] *)
Fixpoint lower (s : string) : string :=
  match s with
  | EmptyString => EmptyString
  | String c s' => String (lower_char c) (lower s')
  end.

(** [needle in s] *)
Fixpoint contains (needle s : string) : bool :=
  String.prefix needle s ||
  match s with
  | EmptyString => false
  | String _ s' => contains needle s'
  end.

(** [s.startswith(p)] *)
Definition startswith (s p : string) : bool := String.prefix p s.

(** [s.split(sep)] for a one-character separator; never empty. *)
Fixpoint split (sep : ascii) (s : string) : list string :=
  match s with
  | EmptyString => [EmptyString]
  | String c s' =>
      if Ascii.eqb c sep then EmptyString :: split sep s'
      else match split sep s' with
           | h :: t => String c h :: t
           | [] => [String c EmptyString]
           end
  end.

(** [s.split(sep)[-1]] *)
Definition split_last (sep : ascii) (s : string) : string :=
  List.last (split sep s) EmptyString.

(** [sep.join(parts)] *)
Fixpoint join (sep : string) (parts : list string) : string :=
  match parts with
  | [] => EmptyString
  | [x] => x
  | x :: rest => x +:+ sep +:+ join sep rest
  end.

(** [len(s)] *)
Definition len (s : string) : Z := Z.of_nat (String.length s).

(** [s[:n]] for [n >= 0] *)
Definition take (n : Z) (s : string) : string :=
  String.substring 0 (Z.to_nat n) s.

End PyStr.

(** ** planner.py *)

Module Planner.

Inductive StepStatus := PENDING | RUNNING | COMPLETED | FAILED | SKIPPED.

#[global] Instance StepStatus_eq_dec : EqDecision StepStatus.
Proof. solve_decision. Defined.

Record PlanStep := mkPlanStep {
  id : string;
  tool : string;
  params : gmap string PyVal;
  description : string;
  depends_on : list string;
  status : StepStatus;
  result : option string;
  error : option string;
  retry_count : Z;
  max_retries : Z;
}.

(** The dataclass constructor with its defaults. *)
Definition new_step (id tool : string) (params : gmap string PyVal)
    (description : string) (depends_on : list string) : PlanStep :=
  {| id := id; tool := tool; params := params; description := description;
     depends_on := depends_on; status := PENDING; result := None;
     error := None; retry_count := 0; max_retries := 2 |}.

Definition set_status (st : StepStatus) (s : PlanStep) : PlanStep :=
  {| id := id s; tool := tool s; params := params s;
     description := description s; depends_on := depends_on s;
     status := st; result := result s; error := error s;
     retry_count := retry_count s; max_retries := max_retries s |}.

Definition set_result (r : option string) (s : PlanStep) : PlanStep :=
  {| id := id s; tool := tool s; params := params s;
     description := description s; depends_on := depends_on s;
     status := status s; result := r; error := error s;
     retry_count := retry_count s; max_retries := max_retries s |}.

Definition set_error (e : option string) (s : PlanStep) : PlanStep :=
  {| id := id s; tool := tool s; params := params s;
     description := description s; depends_on := depends_on s;
     status := status s; result := result s; error := e;
     retry_count := retry_count s; max_retries := max_retries s |}.

Definition set_retry_count (n : Z) (s : PlanStep) : PlanStep :=
  {| id := id s; tool := tool s; params := params s;
     description := description s; depends_on := depends_on s;
     status := status s; result := result s; error := error s;
     retry_count := n; max_retries := max_retries s |}.

Definition can_retry (s : PlanStep) : bool :=
  (retry_count s <? max_retries s)%Z.

Record ExecutionPlan := mkPlan {
  task : string;
  steps : list PlanStep;
  metadata : gmap string PyVal;
}.

Definition with_steps (l : list PlanStep) (p : ExecutionPlan) : ExecutionPlan :=
  {| task := task p; steps := l; metadata := metadata p |}.

(** Assignment through a reference: [plan.steps[i].<field> = ...]. *)
Definition update_step (i : nat) (f : PlanStep → PlanStep)
    (p : ExecutionPlan) : ExecutionPlan :=
  with_steps (alter f i (steps p)) p.

(** [add_step] returns the grown plan, and the new step as the reference
    to it paired with its contents. *)
Definition add_step (p : ExecutionPlan) (tool : string)
    (params : gmap string PyVal) (description : string)
    (depends_on : option (list string))
    : ExecutionPlan * (nat * PlanStep) :=
  let step_id := "step_" +:+ pretty (length (steps p) + 1)%nat in
  let step := new_step step_id tool params description (default [] depends_on) in
  (with_steps (steps p ++ [step]) p, (length (steps p), step)).

Fixpoint get_step_in (l : list PlanStep) (step_id : string) : option PlanStep :=
  match l with
  | [] => None
  | step :: rest =>
      if String.eqb (id step) step_id then Some step else get_step_in rest step_id
  end.

Definition get_step (p : ExecutionPlan) (step_id : string) : option PlanStep :=
  get_step_in (steps p) step_id.

(** The inner loop of [get_ready_steps]: [deps_met] after scanning [deps]. *)
Fixpoint deps_met (p : ExecutionPlan) (deps : list string) : bool :=
  match deps with
  | [] => true
  | dep_id :: rest =>
      match get_step p dep_id with
      | None => false
      | Some dep =>
          if bool_decide (status dep ≠ COMPLETED) then false
          else deps_met p rest
      end
  end.

(** One pass of the outer loop body: [ready] after visiting [step]. *)
Definition ready_visit (p : ExecutionPlan)
    (ready : list (nat * PlanStep)) (entry : nat * PlanStep)
    : list (nat * PlanStep) :=
  if bool_decide (status entry.2 ≠ PENDING) then ready
  else if deps_met p (depends_on entry.2) then ready ++ [entry]
  else ready.

(** Each returned step comes with the reference through which the caller
    goes on to mutate it. *)
Definition get_ready_steps (p : ExecutionPlan) : list (nat * PlanStep) :=
  foldl (ready_visit p) [] (imap pair (steps p)).

Definition is_terminal (st : StepStatus) : bool :=
  bool_decide (st ∈ [COMPLETED; FAILED; SKIPPED]).

Definition is_complete (p : ExecutionPlan) : bool :=
  forallb (λ step, is_terminal (status step)) (steps p).

(** *** TaskPlanner *)

Definition dquote : string := String (ascii_of_nat 34) EmptyString.

(** [context.get(key, dflt) if context else dflt] *)
Definition context_get (context : option (gmap string PyVal))
    (key : string) (dflt : PyVal) : PyVal :=
  match context with
  | None => dflt
  | Some c => if bool_decide (c = ∅) then dflt else default dflt (c !! key)
  end.

Definition _plan_file_read (p : ExecutionPlan) (task : string)
    (context : option (gmap string PyVal)) : ExecutionPlan :=
  let path := context_get context "path" (VStr "unknown") in
  (add_step p "file_read" {[ "path" := path ]}
     ("Read file: " +:+ PyStr.format path) None).1.

Definition _plan_file_write (p : ExecutionPlan) (task : string)
    (context : option (gmap string PyVal)) : ExecutionPlan :=
  let path := context_get context "path" (VStr "output.txt") in
  let content := context_get context "content" (VStr "") in
  (add_step p "file_write" (<[ "path" := path ]> {[ "content" := content ]})
     ("Write to file: " +:+ PyStr.format path) None).1.

Definition _plan_search (p : ExecutionPlan) (task : string)
    (context : option (gmap string PyVal)) : ExecutionPlan :=
  let pattern := context_get context "pattern" (VStr "TODO") in
  (add_step p "search" {[ "pattern" := pattern ]}
     ("Search for pattern: " +:+ PyStr.format pattern) None).1.

Definition _plan_run_tests (p : ExecutionPlan) (task : string)
    (context : option (gmap string PyVal)) : ExecutionPlan :=
  let test_cmd := context_get context "command" (VStr "pytest") in
  (add_step p "shell" {[ "command" := test_cmd ]} "Run tests" None).1.

Definition _plan_install (p : ExecutionPlan) (task : string)
    (context : option (gmap string PyVal)) : ExecutionPlan :=
  let package := context_get context "package" (VStr "") in
  (add_step p "shell"
     {[ "command" := VStr ("pip install " +:+ PyStr.format package) ]}
     ("Install package: " +:+ PyStr.format package) None).1.

Definition _plan_git (p : ExecutionPlan) (task : string)
    (context : option (gmap string PyVal)) : ExecutionPlan :=
  let message := context_get context "message" (VStr "Update") in
  let '(p1, (_, step1)) :=
    add_step p "shell" {[ "command" := VStr "git add -A" ]} "Stage changes" None in
  (add_step p1 "shell"
     {[ "command" := VStr ("git commit -m " +:+ dquote +:+
                            PyStr.format message +:+ dquote) ]}
     "Create commit" (Some [id step1])).1.

Definition _plan_refactor (p : ExecutionPlan) (task : string)
    (context : option (gmap string PyVal)) : ExecutionPlan :=
  let old_name := context_get context "old_name" (VStr "") in
  let new_name := context_get context "new_name" (VStr "") in
  let '(p1, (_, step1)) :=
    add_step p "search" {[ "pattern" := old_name ]}
      ("Find occurrences of: " +:+ PyStr.format old_name) None in
  (add_step p1 "shell"
     {[ "command" := VStr ("sed -i 's/" +:+ PyStr.format old_name +:+ "/" +:+
                            PyStr.format new_name +:+ "/g' *.py") ]}
     ("Replace " +:+ PyStr.format old_name +:+ " with " +:+
      PyStr.format new_name) (Some [id step1])).1.

Definition _plan_shell (p : ExecutionPlan) (task : string)
    (context : option (gmap string PyVal)) : ExecutionPlan :=
  let command := context_get context "command" (VStr task) in
  (add_step p "shell" {[ "command" := command ]}
     ("Execute: " +:+ PyStr.format command) None).1.

(** [TaskPlanner.plan]: keyword matching on the lower-cased task. *)
Definition plan (task : string) (context : option (gmap string PyVal))
    : ExecutionPlan :=
  let p := {| task := task; steps := [];
              metadata := match context with
                          | Some c => c   (* [context or {}] *)
                          | None => ∅
                          end |} in
  let task_lower := PyStr.lower task in
  let has w := PyStr.contains w task_lower in
  if has "read" && has "file" then _plan_file_read p task context
  else if has "write" || has "create" then _plan_file_write p task context
  else if has "search" || has "find" then _plan_search p task context
  else if has "test" || has "pytest" then _plan_run_tests p task context
  else if has "install" then _plan_install p task context
  else if has "git" || has "commit" then _plan_git p task context
  else if has "refactor" || has "rename" then _plan_refactor p task context
  else _plan_shell p task context.

(** [v.<method>(...)] for a string method: only a [str] has it. *)
Definition as_str (v : PyVal) : outcome string :=
  match v with
  | VStr s => Ok s
  | _ => Raise AttributeError
  end.

(** [replan_on_failure(plan, failed_step, error)].  [failed_step] is the
    reference to a step of [plan]; [error] is [None] when the tool result
    carried no message.  The result is the plan after the call and the
    reference returned ([None] for Python's [None]). *)
Definition replan_on_failure (p : ExecutionPlan) (failed_step : nat)
    (error : option string) : outcome (ExecutionPlan * option nat) :=
  match steps p !! failed_step with
  | None => Raise NoSuchObject
  | Some fs =>
      if can_retry fs then
        let p' := update_step failed_step
                    (λ s, set_status PENDING
                            (set_retry_count (retry_count s + 1) s)) p in
        Ok (p', Some failed_step)
      else
        error_lower ← match error with
                      | Some e => Ok (PyStr.lower e)
                      | None => Raise AttributeError
                      end;
        if PyStr.contains "not found" error_lower
           && bool_decide (tool fs = "file_read") then
          path ← as_str (default (VStr "") (params fs !! "path"));
          let filename := PyStr.split_last "/" path in
          let '(p', (recovery, _)) :=
            add_step p "search"
              (<[ "pattern" := VStr filename ]> {[ "file_pattern" := VStr "*" ]})
              ("Search for file: " +:+ filename) None in
          Ok (p', Some recovery)
        else if PyStr.contains "permission denied" error_lower then
          if bool_decide (tool fs = "shell") then
            cmd ← as_str (default (VStr "") (params fs !! "command"));
            if negb (PyStr.startswith cmd "sudo") then
              let '(p', (recovery, _)) :=
                add_step p "shell" {[ "command" := VStr ("sudo " +:+ cmd) ]}
                  ("Retry with sudo: " +:+ cmd) None in
              Ok (p', Some recovery)
            else Ok (p, None)
          else Ok (p, None)
        else Ok (p, None)
  end.

(** A parameter that is either absent or a [str]. *)
Definition str_or_absent (o : option PyVal) : Prop :=
  match o with
  | None | Some (VStr _) => True
  | Some _ => False
  end.

(** A step the loop can dispatch and recover without a Python exception:
    no parameter collides with a positional parameter of
    [ToolRegistry.execute], and the two parameters the recovery controller
    calls string methods on are strings when present. *)
Definition dispatchable (s : PlanStep) : Prop :=
  params s !! "self" = None ∧ params s !! "tool_name" = None ∧
  str_or_absent (params s !! "path") ∧ str_or_absent (params s !! "command").

(** A task context whose [path] and [command] entries are strings. *)
Definition plain_context (context : option (gmap string PyVal)) : Prop :=
  ∀ c, context = Some c →
    str_or_absent (c !! "path") ∧ str_or_absent (c !! "command").

(** A privilege-escalated step: a shell step whose command begins with
    [sudo]. *)
Definition is_escalated (s : PlanStep) : bool :=
  bool_decide (tool s = "shell") &&
  match params s !! "command" with
  | Some (VStr cmd) => PyStr.startswith cmd "sudo"
  | _ => false
  end.

End Planner.

(** ** tools.py

    A tool acts on the machine it runs on (files, processes).  That machine
    is an abstract [World]; running a tool is a function from the world
    before the call to the tool's result and the world after it.  The four
    concrete tools of the package are instances of this interface. *)

Module Tools.

Inductive ToolStatus := SUCCESS | ERROR | TIMEOUT | PERMISSION_DENIED.

#[global] Instance ToolStatus_eq_dec : EqDecision ToolStatus.
Proof. solve_decision. Defined.

Module ToolResult.
Record t := mk {
  status : ToolStatus;
  output : string;
  error : option string;
  metadata : gmap string PyVal;
}.
End ToolResult.

(** [ToolResult(status, output, error)] with the default metadata. *)
Definition tool_result (st : ToolStatus) (output : string)
    (error : option string) : ToolResult.t :=
  ToolResult.mk st output error ∅.

Module ToolParameter.
Record t := mk {
  name : string;
  param_type : string;
  description : string;
  required : bool;
  default_value : PyVal;
}.
End ToolParameter.

Module Tool.
Record t (World : Type) := mk {
  name : string;
  description : string;
  parameters : list ToolParameter.t;
  execute : gmap string PyVal → World → ToolResult.t * World;
}.
Arguments mk {World}.
Arguments name {World}.
Arguments description {World}.
Arguments parameters {World}.
Arguments execute {World}.

Fixpoint first_missing (ps : list ToolParameter.t)
    (params : gmap string PyVal) : option string :=
  match ps with
  | [] => None
  | param :: rest =>
      if ToolParameter.required param
         && bool_decide (params !! ToolParameter.name param = None)
      then Some ("Missing required parameter: " +:+ ToolParameter.name param)
      else first_missing rest params
  end.

Definition validate_params {World} (tool : t World)
    (params : gmap string PyVal) : option string :=
  first_missing (parameters tool) params.
End Tool.

Module ToolRegistry.
Record t (World : Type) := mk {
  _tools : gmap string (Tool.t World);
}.
Arguments mk {World}.
Arguments _tools {World}.

Definition empty {World} : t World := mk ∅.

Definition register {World} (reg : t World) (tool : Tool.t World) : t World :=
  mk (<[ Tool.name tool := tool ]> (_tools reg)).

Definition get {World} (reg : t World) (name : string) : option (Tool.t World) :=
  _tools reg !! name.

Definition execute {World} (reg : t World) (tool_name : string)
    (kwargs : gmap string PyVal) (w : World) : ToolResult.t * World :=
  match get reg tool_name with
  | None => (tool_result ERROR "" (Some ("Unknown tool: " +:+ tool_name)), w)
  | Some tool =>
      match Tool.validate_params tool kwargs with
      | Some validation_error =>
          (tool_result ERROR "" (Some validation_error), w)
      | None => Tool.execute tool kwargs w
      end
  end.
End ToolRegistry.

End Tools.

(** ** executor.py

    The wall-clock readings ([start_time], [end_time], [total_time]) and the
    optional [on_step_complete] observer take no part in any decision of the
    loop and are left out of the records. *)

Module Executor.

Import Planner.
Import Tools.

Module ExecutionStep.
Record t := mk {
  step_id : string;
  tool : string;
  params : gmap string PyVal;
  result : option ToolResult.t;
  retries : Z;
}.
End ExecutionStep.

Module ExecutionResult.
Record t := mk {
  task : string;
  success : bool;
  steps : list ExecutionStep.t;
  error : option string;
  plan : ExecutionPlan;      (* [metadata["plan"]] *)
  iterations : Z;            (* [metadata["iterations"]] *)
}.
End ExecutionResult.

Section WithWorld.
Context {World : Type}.

Record AgenticExecutor := mkExecutor {
  registry : ToolRegistry.t World;
  max_steps : Z;
}.

(** A registry whose tools attach a message to every result that is not a
    success, as the four tools of the package do. *)
Definition reports_errors (reg : ToolRegistry.t World) : Prop :=
  ∀ (name : string) (t : Tool.t World) (kwargs : gmap string PyVal) (w : World),
    ToolRegistry.get reg name = Some t →
    ToolResult.status (Tool.execute t kwargs w).1 ≠ SUCCESS →
    is_Some (ToolResult.error (Tool.execute t kwargs w).1).

(** What the loop carries from one dispatch to the next. *)
Record loop_state := mkState {
  st_plan : ExecutionPlan;
  st_world : World;
  st_executed : list ExecutionStep.t;
}.

(** [f(positional..., **kwargs)]: a keyword that names a parameter already
    bound by position makes the call a [TypeError]. *)
Definition call_with_kwargs {A} (bound : list string)
    (kwargs : gmap string PyVal) (call : A) : outcome A :=
  if forallb (λ k, bool_decide (kwargs !! k = None)) bound then Ok call
  else Raise TypeError.

Definition _execute_step (self : AgenticExecutor) (p : ExecutionPlan)
    (plan_step : nat) (w : World)
    : outcome (ExecutionPlan * ExecutionStep.t * World) :=
  match Planner.steps p !! plan_step with
  | None => Raise NoSuchObject
  | Some ps =>
      let p1 := update_step plan_step (set_status RUNNING) p in
      '(result, w1) ←
        call_with_kwargs ["self"; "tool_name"] (Planner.params ps)
          (ToolRegistry.execute (registry self) (Planner.tool ps)
             (Planner.params ps) w);
      Ok (p1,
          ExecutionStep.mk (Planner.id ps) (Planner.tool ps) (Planner.params ps)
            (Some result) (retry_count ps),
          w1)
  end.

(** The body of [for plan_step in ready_steps]. *)
Definition handle_ready_step (self : AgenticExecutor) (st : loop_state)
    (plan_step : nat) : outcome loop_state :=
  '(p1, exec_step, w1) ← _execute_step self (st_plan st) plan_step (st_world st);
  let executed := st_executed st ++ [exec_step] in
  let succeeded :=
    match ExecutionStep.result exec_step with
    | Some r => bool_decide (ToolResult.status r = SUCCESS)
    | None => false
    end in
  if succeeded then
    let output := from_option (λ r, Some (ToolResult.output r)) None
                    (ExecutionStep.result exec_step) in
    let p2 := update_step plan_step
                (λ s, set_result output (set_status COMPLETED s)) p1 in
    Ok (mkState p2 w1 executed)
  else
    let error_msg :=
      match ExecutionStep.result exec_step with
      | Some r => ToolResult.error r
      | None => Some "Unknown error"
      end in
    '(p2, recovery_step) ← replan_on_failure p1 plan_step error_msg;
    match recovery_step with
    | Some _ => Ok (mkState p2 w1 executed)
    | None =>
        let p3 := update_step plan_step
                    (λ s, set_error error_msg (set_status FAILED s)) p2 in
        Ok (mkState p3 w1 executed)
    end.

Fixpoint for_ready_steps (self : AgenticExecutor) (st : loop_state)
    (ready_steps : list nat) : outcome loop_state :=
  match ready_steps with
  | [] => Ok st
  | plan_step :: rest =>
      st' ← handle_ready_step self st plan_step;
      for_ready_steps self st' rest
  end.

(** [while not plan.is_complete() and iteration < self.max_steps].
    [budget] is [max_steps - iteration], so that [iteration < max_steps]
    is [budget ≠ 0]; every pass adds one to [iteration] and takes one
    from [budget]. *)
Fixpoint agentic_loop (self : AgenticExecutor) (budget : nat)
    (iteration : Z) (st : loop_state) : outcome (loop_state * Z) :=
  match budget with
  | O => Ok (st, iteration)
  | S budget' =>
      if is_complete (st_plan st) then Ok (st, iteration)
      else
        let iteration := (iteration + 1)%Z in
        let ready_steps := get_ready_steps (st_plan st) in
        match ready_steps with
        | [] => Ok (st, iteration)   (* [break] *)
        | _ =>
            st' ← for_ready_steps self st ready_steps.*1;
            agentic_loop self budget' iteration st'
        end
  end.

Fixpoint first_failed_error (l : list PlanStep) : option string :=
  match l with
  | [] => None
  | step :: rest =>
      if bool_decide (Planner.status step = FAILED) then Planner.error step
      else first_failed_error rest
  end.

(** The part of [execute] that follows the creation of the plan. *)
Definition execute_plan (self : AgenticExecutor) (task : string)
    (p : ExecutionPlan) (w : World) : outcome (ExecutionResult.t * World) :=
  '(st, iteration) ←
    agentic_loop self (Z.to_nat (max_steps self)) 0%Z (mkState p w []);
  let success :=
    forallb (λ step, bool_decide (Planner.status step = COMPLETED))
            (Planner.steps (st_plan st)) in
  let error :=
    if negb success then first_failed_error (Planner.steps (st_plan st))
    else None in
  Ok (ExecutionResult.mk task success (st_executed st) error
        (st_plan st) iteration,
      st_world st).

Definition execute (self : AgenticExecutor) (task : string)
    (context : option (gmap string PyVal)) (w : World)
    : outcome (ExecutionResult.t * World) :=
  execute_plan self task (Planner.plan task context) w.

End WithWorld.
Arguments AgenticExecutor : clear implicits.
Arguments loop_state : clear implicits.

End Executor.


(** ** sandbox.py

    The sandbox talks to the operating system: it creates directories,
    writes the wrapper script and spawns the interpreter.  Every such
    request is recorded, in order, as an [os_call]; what the machine
    answers is given by a [Host].  [json.loads] on the captured output is
    part of the host as well. *)

Module Sandbox.

Inductive SandboxStatus :=
  READY | RUNNING | COMPLETED | TIMEOUT | ERROR | MEMORY_EXCEEDED.

#[global] Instance SandboxStatus_eq_dec : EqDecision SandboxStatus.
Proof. solve_decision. Defined.

Record SandboxConfig := mkConfig {
  timeout_seconds : Z;
  max_memory_mb : Z;
  max_output_bytes : Z;
  allowed_imports : option (list string);
  blocked_imports : list string;
  working_dir : option string;
  cleanup_on_exit : bool;
}.

Definition default_config : SandboxConfig :=
  {| timeout_seconds := 30;
     max_memory_mb := 256;
     max_output_bytes := 1024 * 1024;
     allowed_imports := None;
     blocked_imports :=
       ["os.system"; "subprocess"; "socket"; "requests";
        "urllib"; "ftplib"; "telnetlib"; "smtplib"];
     working_dir := None;
     cleanup_on_exit := true |}.

Record SandboxResult := mkResult {
  status : SandboxStatus;
  stdout : string;
  stderr : string;
  return_value : option PyVal;
  execution_time : Q;
  memory_used_mb : Q;
}.

(** [SandboxResult(status=..., stdout=..., stderr=...)]: the remaining
    fields take their defaults. *)
Definition sandbox_result (st : SandboxStatus) (out err : string) : SandboxResult :=
  mkResult st out err None 0 0.

Record CodeSandbox := mkSandbox {
  config : SandboxConfig;
  _temp_dir : option string;
  _status : SandboxStatus;
}.

Definition new_sandbox (cfg : SandboxConfig) : CodeSandbox :=
  mkSandbox cfg None READY.

Inductive os_call :=
  | MakeDirs (path : string)
  | MkDTemp (prefix : string)
  | WriteFile (path content : string)
  | RunProcess (script cwd : string) (timeout : Z).

Definition is_spawn (c : os_call) : bool :=
  match c with RunProcess _ _ _ => true | _ => false end.

Inductive process_outcome :=
  | Exited (returncode : Z) (out err : string)
  | TimeoutExpired
  | SpawnError (message : string).

Inductive json_outcome :=
  | JSONDecodeError
  | Payload (out err : string) (error : option string)
  | PayloadFault (message : string).   (* any other exception while reading it *)

Record Host := mkHost {
  host_makedirs : string → bool;                    (* [false]: raises *)
  host_mkdtemp : string → option string;            (* [None]: raises *)
  host_write : string → string → option string;     (* [Some e]: raises, [str(e)] *)
  host_run : string → string → Z → process_outcome;
  host_time : nat → Q;                              (* successive clock readings *)
  json_loads : string → json_outcome;
}.

(** Truth value of an [Optional[str]]. *)
Definition truthy (o : option string) : bool :=
  match o with
  | Some s => negb (String.eqb s "")
  | None => false
  end.

Definition newline : string := String (ascii_of_nat 10) EmptyString.

(** [os.path.join(dir, name)] for a relative [name]. *)
Definition path_join (dir name : string) : string :=
  if String.eqb dir "" then name
  else if String.eqb (String.substring (String.length dir - 1) 1 dir) "/"
       then dir +:+ name
       else dir +:+ "/" +:+ name.

(** [s[:n]], also for negative [n]. *)
Definition slice_to (n : Z) (s : string) : string :=
  if (0 <=? n)%Z then PyStr.take n s
  else String.substring 0 (String.length s - Z.to_nat (- n)) s.

Definition _setup (h : Host) (self : CodeSandbox)
    : outcome CodeSandbox * list os_call :=
  if truthy (working_dir (config self)) then
    let dir := default "" (working_dir (config self)) in
    if host_makedirs h dir
    then (Ok (mkSandbox (config self) (Some dir) (_status self)), [MakeDirs dir])
    else (Raise OSError, [MakeDirs dir])
  else
    match host_mkdtemp h "sandbox_" with
    | Some dir =>
        (Ok (mkSandbox (config self) (Some dir) (_status self)), [MkDTemp "sandbox_"])
    | None => (Raise OSError, [MkDTemp "sandbox_"])
    end.

Fixpoint first_blocked (blocked_imports : list string) (code : string)
    : option string :=
  match blocked_imports with
  | [] => None
  | blocked :: rest =>
      if PyStr.contains blocked code
      then Some ("Blocked import detected: " +:+ blocked)
      else first_blocked rest code
  end.

Definition _check_imports (self : CodeSandbox) (code : string) : option string :=
  first_blocked (blocked_imports (config self)) code.

Fixpoint spaces (n : nat) : string :=
  match n with
  | O => EmptyString
  | S n' => String " " (spaces n')
  end.

Definition _indent_code (code : string) (n : nat) : string :=
  let indent := spaces n in
  let lines := PyStr.split (ascii_of_nat 10) code in
  PyStr.join newline (map (λ line, indent +:+ line) lines).

Definition dq : string := String (ascii_of_nat 34) EmptyString.

Definition _create_wrapper_script (code : string) : string :=
  PyStr.join newline
    [ "";
      "import sys";
      "import json";
      "";
      "# Redirect output";
      "_stdout = []";
      "_stderr = []";
      "";
      "class OutputCapture:";
      "    def __init__(self, target_list):";
      "        self.target = target_list";
      "    def write(self, text):";
      "        self.target.append(text)";
      "    def flush(self):";
      "        pass";
      "";
      "sys.stdout = OutputCapture(_stdout)";
      "sys.stderr = OutputCapture(_stderr)";
      "";
      "_result = None";
      "_error = None";
      "";
      "try:";
      "    # User code";
      _indent_code code 4;
      "except Exception as e:";
      "    _error = str(e)";
      "";
      "# Output results";
      "sys.stdout = sys.__stdout__";
      "sys.stderr = sys.__stderr__";
      "";
      "output = {";
      "    " +:+ dq +:+ "stdout" +:+ dq +:+ ": " +:+ dq +:+ dq +:+ ".join(_stdout),";
      "    " +:+ dq +:+ "stderr" +:+ dq +:+ ": " +:+ dq +:+ dq +:+ ".join(_stderr),";
      "    " +:+ dq +:+ "error" +:+ dq +:+ ": _error,";
      "}";
      "print(json.dumps(output))";
      "" ].

Definition truncate (limit : Z) (s : string) : string :=
  if (limit <? PyStr.len s)%Z
  then slice_to limit s +:+ newline +:+ "[OUTPUT TRUNCATED]"
  else s.

(** What [execute] does once the script is on disk. *)
Definition run_script (h : Host) (cfg : SandboxConfig)
    (script_path temp_dir : string) : SandboxResult :=
  let start_time := host_time h 0 in
  match host_run h script_path temp_dir (timeout_seconds cfg) with
  | Exited returncode out err =>
      let execution_time := (host_time h 1 - start_time)%Q in
      let finish o e :=
        mkResult (if (returncode =? 0)%Z then COMPLETED else ERROR)
          (truncate (max_output_bytes cfg) o)
          (truncate (max_output_bytes cfg) e)
          None execution_time 0 in
      match json_loads h out with
      | Payload o e error => finish o (e +:+ default "" error)
      | JSONDecodeError => finish out err
      | PayloadFault message =>
          mkResult ERROR "" message None (host_time h 2 - start_time)%Q 0
      end
  | TimeoutExpired =>
      mkResult TIMEOUT ""
        ("Execution timed out after " +:+ pretty (timeout_seconds cfg) +:+ "s")
        None (inject_Z (timeout_seconds cfg)) 0
  | SpawnError message =>
      mkResult ERROR "" message None (host_time h 1 - start_time)%Q 0
  end.

(** [execute(code)]: the result (or the exception that escapes), the
    sandbox object after the call, and the requests made to the machine. *)
Definition execute (h : Host) (self : CodeSandbox) (code : string)
    : outcome SandboxResult * CodeSandbox * list os_call :=
  let self := mkSandbox (config self) (_temp_dir self) RUNNING in
  let import_error := _check_imports self code in
  if truthy import_error then
    (Ok (sandbox_result ERROR "" (default "" import_error)), self, [])
  else
    let '(ready, calls) :=
      if negb (truthy (_temp_dir self)) then _setup h self else (Ok self, []) in
    match ready with
    | Raise e => (Raise e, self, calls)
    | Ok self =>
        let temp_dir := default "" (_temp_dir self) in
        let script_path := path_join temp_dir "_sandbox_script.py" in
        let wrapper := _create_wrapper_script code in
        match host_write h script_path wrapper with
        | Some e =>
            (Ok (sandbox_result ERROR "" ("Failed to write script: " +:+ e)),
             self, calls ++ [WriteFile script_path wrapper])
        | None =>
            (Ok (run_script h (config self) script_path temp_dir), self,
             calls ++ [WriteFile script_path wrapper;
                       RunProcess script_path temp_dir (timeout_seconds (config self))])
        end
    end.

End Sandbox.


(** ** Concrete machines, registries and plans

    A machine without state on which reading a file always fails with
    [File not found] and searching always succeeds; a machine on which
    every spawned process runs into the time limit. *)

Module Examples.
Import Tools.

Definition file_read_missing : Tool.t unit :=
  Tool.mk "file_read"
    "Read the contents of a file at the given path. Returns the file content as a string."
    [ToolParameter.mk "path" "string" "Path to the file to read" true VNone;
     ToolParameter.mk "encoding" "string" "File encoding" false (VStr "utf-8")]
    (λ kwargs w,
       (tool_result ERROR ""
          (Some ("File not found: " +:+
                 PyStr.format (default VNone (kwargs !! "path")))), w)).

Definition search_nothing : Tool.t unit :=
  Tool.mk "search"
    "Search for a pattern in files. Returns matching lines with file paths and line numbers."
    [ToolParameter.mk "pattern" "string" "Regex pattern to search for" true VNone;
     ToolParameter.mk "file_pattern" "string" "Glob pattern for files to search"
       false (VStr "*");
     ToolParameter.mk "max_results" "integer" "Maximum number of results"
       false (VInt 50)]
    (λ kwargs w, (tool_result SUCCESS "No matches found" None, w)).

Definition registry : ToolRegistry.t unit :=
  ToolRegistry.register
    (ToolRegistry.register ToolRegistry.empty file_read_missing) search_nothing.

Definition executor : Executor.AgenticExecutor unit :=
  Executor.mkExecutor registry 50.

Definition lookup_context : option (gmap string PyVal) :=
  Some {[ "path" := VStr "notes/missing.txt" ]}.

(** The plan for reading a file, its only step having used up its retries. *)
Definition exhausted_lookup_plan : Planner.ExecutionPlan :=
  Planner.update_step 0 (Planner.set_retry_count 2)
    (Planner.plan "read file" lookup_context).

(** A plan whose only step names a tool that no registry above knows. *)
Definition unknown_tool_plan : Planner.ExecutionPlan :=
  (Planner.add_step (Planner.mkPlan "call helper" [] ∅) "unknown_tool" ∅
     "Call a tool that is not registered" None).1.

(** A plan whose only step is a shell command that has used up its retries. *)
Definition exhausted_shell_plan : Planner.ExecutionPlan :=
  Planner.update_step 0 (Planner.set_retry_count 2)
    (Planner.plan "install" (Some {[ "package" := VStr "numpy" ]})).

(** What a run left behind, at a glance: the [success] flag, the top-level
    error, the number of passes, then per step of the final plan its id,
    tool, status, retry counter and dependencies, and per dispatch the id
    of the step and the retry counter it was dispatched with. *)
Definition outline (o : outcome (Executor.ExecutionResult.t * unit)) :=
  match o with
  | Ok (r, _) =>
      Some (Executor.ExecutionResult.success r,
            Executor.ExecutionResult.error r,
            Executor.ExecutionResult.iterations r,
            (λ s, (Planner.id s, Planner.tool s, Planner.status s,
                   Planner.retry_count s, Planner.depends_on s)) <$>
              Planner.steps (Executor.ExecutionResult.plan r),
            (λ e, (Executor.ExecutionStep.step_id e,
                   Executor.ExecutionStep.retries e)) <$>
              Executor.ExecutionResult.steps r)
  | Raise _ => None
  end.

Definition slow_host : Sandbox.Host :=
  Sandbox.mkHost (λ _, true) (λ _, Some "/tmp/sandbox_0001") (λ _ _, None)
    (λ _ _ _, Sandbox.TimeoutExpired) (λ n, inject_Z (Z.of_nat n))
    (λ _, Sandbox.JSONDecodeError).

Definition short_fuse : Sandbox.CodeSandbox :=
  Sandbox.new_sandbox
    (Sandbox.mkConfig 1 256 (1024 * 1024) None
       (Sandbox.blocked_imports Sandbox.default_config) None true).

End Examples.

(** ** Shapes of plans

    Predicates on plans used to state what [add_step], the planner and the
    loop keep. *)

Module PlanShape.
Import Planner.

(** The ids are the ones [add_step] hands out: the step at position [i]
    is called [step_<i+1>]. *)
Definition numbered (p : ExecutionPlan) : Prop :=
  ∀ (i : nat) (s : PlanStep),
    steps p !! i = Some s → id s = "step_" +:+ pretty (i + 1)%nat.

(** Every dependency names a step that stands earlier in the plan. *)
Definition backward_deps (p : ExecutionPlan) : Prop :=
  ∀ (i : nat) (s : PlanStep) (d : string),
    steps p !! i = Some s → d ∈ depends_on s →
    ∃ (j : nat) (s' : PlanStep), j < i ∧ steps p !! j = Some s' ∧ id s' = d.

(** [s'] is [s] up to the fields the loop writes ([status], [result],
    [error], [retry_count]). *)
Definition same_shape (s s' : PlanStep) : Prop :=
  id s' = id s ∧ tool s' = tool s ∧ params s' = params s ∧
  description s' = description s ∧ depends_on s' = depends_on s ∧
  max_retries s' = max_retries s.

(** [q] is [p] with some steps appended and the others kept in place and
    in shape, their retry counters not lowered. *)
Definition extends (p q : ExecutionPlan) : Prop :=
  task q = task p ∧ metadata q = metadata p ∧
  ∀ (i : nat) (s : PlanStep),
    steps p !! i = Some s →
    ∃ s', steps q !! i = Some s' ∧ same_shape s s' ∧
          (retry_count s ≤ retry_count s')%Z.

(** The effect on the list of steps of one pass in which every dispatch
    succeeds: the steps at the positions [ready] are completed with some
    output, the others are as before. *)
Definition pass_effect (ready : list nat) (l l' : list PlanStep) : Prop :=
  length l' = length l ∧
  ∀ j : nat,
    (j ∈ ready → ∃ s out, l !! j = Some s ∧
       l' !! j = Some (set_result (Some out) (set_status COMPLETED s))) ∧
    (j ∉ ready → l' !! j = l !! j).

(** [q] has the steps of [p], in shape, each [PENDING] or [COMPLETED]. *)
Definition progress_of (p q : ExecutionPlan) : Prop :=
  Forall2 (λ s s', same_shape s s' ∧
                   (status s' = PENDING ∨ status s' = COMPLETED))
          (steps p) (steps q).

End PlanShape.

(** ** More of Python's strings and values *)

Module PyText.

Definition newline : string := String (ascii_of_nat 10) EmptyString.

(** [bool(v)] *)
Definition truthy (v : PyVal) : bool :=
  match v with
  | VStr s => negb (String.eqb s "")
  | VInt z => negb (z =? 0)%Z
  | VBool b => b
  | VNone => false
  end.

(** [c.isspace()] for a character below 128. *)
Definition isspace (c : ascii) : bool :=
  let n := nat_of_ascii c in
  ((9 <=? n)%nat && (n <=? 13)%nat) || ((28 <=? n)%nat && (n <=? 32)%nat).

Fixpoint lstrip (s : string) : string :=
  match s with
  | EmptyString => EmptyString
  | String c s' => if isspace c then lstrip s' else s
  end.

Definition rstrip (s : string) : string := String.rev (lstrip (String.rev s)).

(** [s.strip()] *)
Definition strip (s : string) : string := lstrip (rstrip s).

(** [s.rstrip(c)] for one character [c]. *)
Fixpoint lstrip_char (c : ascii) (s : string) : string :=
  match s with
  | EmptyString => EmptyString
  | String a s' => if Ascii.eqb a c then lstrip_char c s' else s
  end.

Definition rstrip_char (c : ascii) (s : string) : string :=
  String.rev (lstrip_char c (String.rev s)).

(** [s[:s.rfind(c) + 1]]: [s] up to and including the last [c]. *)
Fixpoint through_last (c : ascii) (s : string) : string :=
  match s with
  | EmptyString => EmptyString
  | String a s' =>
      let h := through_last c s' in
      if negb (String.eqb h "") || Ascii.eqb a c then String a h
      else EmptyString
  end.

(** No character of [s] is [c]. *)
Fixpoint free_of (c : ascii) (s : string) : bool :=
  match s with
  | EmptyString => true
  | String a s' => negb (Ascii.eqb a c) && free_of c s'
  end.

(** [posixpath.dirname(p)] *)
Definition dirname (p : string) : string :=
  let head := through_last "/" p in
  if negb (String.eqb head "") && negb (String.eqb (lstrip_char "/" head) "")
  then rstrip_char "/" head
  else head.

End PyText.

(** ** The schema of a tool (tools.py) *)

Module Schema.
Import Tools.

(** The dict [to_schema] returns: [name], [description], and under
    [parameters] the [properties] (per parameter name its [type] and
    [description]) and the list [required]. *)
Record t := mk {
  name : string;
  description : string;
  properties : gmap string (string * string);
  required : list string;
}.

(** The loop of [to_schema]: [properties] and [required] after [param]. *)
Definition visit (acc : gmap string (string * string) * list string)
    (param : ToolParameter.t) : gmap string (string * string) * list string :=
  let properties :=
    <[ ToolParameter.name param :=
         (ToolParameter.param_type param, ToolParameter.description param) ]>
      acc.1 in
  if ToolParameter.required param
  then (properties, acc.2 ++ [ToolParameter.name param])
  else (properties, acc.2).

Definition to_schema {World} (tool : Tool.t World) : t :=
  let '(properties, required) := foldl visit (∅, []) (Tool.parameters tool) in
  mk (Tool.name tool) (Tool.description tool) properties required.

End Schema.

(** ** The file and shell tools of tools.py

    The tools ask the machine to open files and to run commands.  What the
    machine answers is given by a [Machine]; the requests a call makes are
    recorded in order.  A call that raises has the [Raise] outcome. *)

Module Builtin.
Import Tools.

Inductive os_request :=
  | OpenRead (path : string) (encoding : PyVal)
  | MakeDirs (path : string)
  | OpenWrite (path : string) (mode : string)
  | Run (command : PyVal) (timeout : PyVal) (cwd : string).

Inductive read_outcome :=
  | ReadOk (content : string)
  | ReadNotFound                    (* [FileNotFoundError] *)
  | ReadDenied                      (* [PermissionError] *)
  | ReadError (message : string).   (* any other exception, [str(e)] *)

Inductive io_outcome :=
  | IoOk
  | IoDenied                        (* [PermissionError] *)
  | IoError (message : string).     (* any other exception, [str(e)] *)

Inductive run_outcome :=
  | RunExited (returncode : Z) (out err : string)
  | RunTimeout                      (* [subprocess.TimeoutExpired] *)
  | RunError (message : string).    (* any other exception, [str(e)] *)

Record Machine := mkMachine {
  abspath : string → string;
  open_read : string → PyVal → read_outcome;
  path_exists : string → bool;
  makedirs : string → io_outcome;
  open_write : string → string → io_outcome;
  write_text : string → string → io_outcome;
  not_a_str : PyVal → string;   (* [str(e)] of the [TypeError] of [f.write(v)] *)
  run : PyVal → PyVal → string → run_outcome;
}.

(** [_is_path_allowed], the same in both file tools. *)
Definition path_allowed (m : Machine) (allowed_paths : list string)
    (path : string) : bool :=
  let abs_path := abspath m path in
  existsb (λ allowed, PyStr.startswith abs_path (abspath m allowed)) allowed_paths.

(** [allowed_paths or ["."]] and the like. *)
Definition or_default {A} (given : option (list A)) (dflt : list A) : list A :=
  match given with
  | Some (x :: l) => x :: l
  | _ => dflt
  end.

Module FileReadTool.

Record t := mk { allowed_paths : list string }.

Definition new (allowed_paths : option (list string)) : t :=
  mk (or_default allowed_paths ["."]).

Definition parameters : list ToolParameter.t :=
  [ToolParameter.mk "path" "string" "Path to the file to read" true VNone;
   ToolParameter.mk "encoding" "string" "File encoding" false (VStr "utf-8")].

Definition _is_path_allowed (m : Machine) (self : t) (path : string) : bool :=
  path_allowed m (allowed_paths self) path.

Definition execute (m : Machine) (self : t) (kwargs : gmap string PyVal)
    : outcome ToolResult.t * list os_request :=
  let path := default VNone (kwargs !! "path") in
  let encoding := default (VStr "utf-8") (kwargs !! "encoding") in
  if negb (PyText.truthy path) then
    (Ok (tool_result ERROR "" (Some "Path is required")), [])
  else
    match path with
    | VStr p =>
        if negb (_is_path_allowed m self p) then
          (Ok (tool_result PERMISSION_DENIED ""
                 (Some ("Access to " +:+ p +:+ " is not allowed"))), [])
        else
          (Ok match open_read m p encoding with
              | ReadOk content =>
                  ToolResult.mk SUCCESS content None
                    (<[ "path" := VStr p ]>
                       {[ "size" := VInt (PyStr.len content) ]})
              | ReadNotFound =>
                  tool_result ERROR "" (Some ("File not found: " +:+ p))
              | ReadDenied =>
                  tool_result PERMISSION_DENIED ""
                    (Some ("Permission denied: " +:+ p))
              | ReadError message => tool_result ERROR "" (Some message)
              end,
           [OpenRead p encoding])
    | _ => (Raise TypeError, [])   (* [os.path.abspath] of a non-string *)
    end.

End FileReadTool.

Module FileWriteTool.

Record t := mk { allowed_paths : list string }.

Definition new (allowed_paths : option (list string)) : t :=
  mk (or_default allowed_paths ["."]).

Definition parameters : list ToolParameter.t :=
  [ToolParameter.mk "path" "string" "Path to the file to write" true VNone;
   ToolParameter.mk "content" "string" "Content to write to the file" true VNone;
   ToolParameter.mk "mode" "string" "Write mode: 'overwrite' or 'append'"
     false (VStr "overwrite")].

Definition _is_path_allowed (m : Machine) (self : t) (path : string) : bool :=
  path_allowed m (allowed_paths self) path.

(** The body of the [try] block: the requests made, and either the result
    or the exception caught. *)
Definition write_file (m : Machine) (p : string) (content mode : PyVal)
    : io_outcome * list os_request :=
  let parent := PyText.dirname p in
  let needs_dir := negb (String.eqb parent "") && negb (path_exists m parent) in
  let made := if needs_dir then makedirs m parent else IoOk in
  let dir_requests := if needs_dir then [MakeDirs parent] else [] in
  match made with
  | IoOk =>
      let write_mode :=
        match mode with
        | VStr "append" => "a"
        | _ => "w"
        end in
      let requests := dir_requests ++ [OpenWrite p write_mode] in
      match open_write m p write_mode with
      | IoOk =>
          match content with
          | VStr text => (write_text m p text, requests)
          | _ => (IoError (not_a_str m content), requests)
          end
      | failure => (failure, requests)
      end
  | failure => (failure, dir_requests)
  end.

Definition execute (m : Machine) (self : t) (kwargs : gmap string PyVal)
    : outcome ToolResult.t * list os_request :=
  let path := default VNone (kwargs !! "path") in
  let content := default (VStr "") (kwargs !! "content") in
  let mode := default (VStr "overwrite") (kwargs !! "mode") in
  if negb (PyText.truthy path) then
    (Ok (tool_result ERROR "" (Some "Path is required")), [])
  else
    match path with
    | VStr p =>
        if negb (_is_path_allowed m self p) then
          (Ok (tool_result PERMISSION_DENIED ""
                 (Some ("Access to " +:+ p +:+ " is not allowed"))), [])
        else
          let '(done, requests) := write_file m p content mode in
          (Ok match done, content with
              | IoOk, VStr text =>
                  ToolResult.mk SUCCESS
                    ("Successfully wrote " +:+ pretty (PyStr.len text) +:+
                     " bytes to " +:+ p)
                    None
                    (<[ "path" := VStr p ]>
                       (<[ "size" := VInt (PyStr.len text) ]>
                          {[ "mode" := mode ]}))
              | IoOk, _ => tool_result ERROR "" (Some (not_a_str m content))
              | IoDenied, _ =>
                  tool_result PERMISSION_DENIED ""
                    (Some ("Permission denied: " +:+ p))
              | IoError message, _ => tool_result ERROR "" (Some message)
              end,
           requests)
    | _ => (Raise TypeError, [])   (* [os.path.abspath] of a non-string *)
    end.

End FileWriteTool.

Module ShellTool.

Record t := mk {
  allowed_commands : option (list string);
  blocked_commands : list string;
  timeout : Z;
  working_dir : string;
}.

(** [ShellTool(allowed_commands, blocked_commands, timeout, working_dir)];
    [cwd] is what [os.getcwd()] answers. *)
Definition new (allowed_commands blocked_commands : option (list string))
    (timeout : Z) (working_dir : option string) (cwd : string) : t :=
  mk allowed_commands
     (or_default blocked_commands ["rm -rf /"; "mkfs"; "dd if="])
     timeout
     (match working_dir with
      | Some d => if String.eqb d "" then cwd else d
      | None => cwd
      end).

Definition parameters : list ToolParameter.t :=
  [ToolParameter.mk "command" "string" "Shell command to execute" true VNone;
   ToolParameter.mk "timeout" "integer" "Timeout in seconds" false (VInt 30)].

Definition _is_command_allowed (self : t) (command : string) : bool :=
  if existsb (λ blocked, PyStr.contains blocked command) (blocked_commands self)
  then false
  else match allowed_commands self with
       | Some (a :: l) =>
           existsb (λ cmd, PyStr.startswith (PyText.strip command) cmd) (a :: l)
       | _ => true
       end.

(** The [try] block: [subprocess.run] and the result built from it. *)
Definition run_command (m : Machine) (self : t) (command timeout : PyVal)
    : ToolResult.t :=
  match run m command timeout (working_dir self) with
  | RunExited returncode out err =>
      let output :=
        if negb (String.eqb err "")
        then out +:+ PyText.newline +:+ "[stderr]: " +:+ err
        else out in
      ToolResult.mk
        (if (returncode =? 0)%Z then SUCCESS else ERROR)
        output
        (if negb (returncode =? 0)%Z then Some err else None)
        (<[ "returncode" := VInt returncode ]> {[ "command" := command ]})
  | RunTimeout =>
      tool_result TIMEOUT ""
        (Some ("Command timed out after " +:+ PyStr.format timeout +:+ "s"))
  | RunError message => tool_result ERROR "" (Some message)
  end.

Definition execute (m : Machine) (self : t) (kwargs : gmap string PyVal)
    : outcome ToolResult.t * list os_request :=
  let command := default VNone (kwargs !! "command") in
  let timeout := default (VInt (timeout self)) (kwargs !! "timeout") in
  if negb (PyText.truthy command) then
    (Ok (tool_result ERROR "" (Some "Command is required")), [])
  else
    match command with
    | VStr c =>
        if negb (_is_command_allowed self c) then
          (Ok (tool_result PERMISSION_DENIED ""
                 (Some ("Command not allowed: " +:+ c))), [])
        else
          (Ok (run_command m self command timeout),
           [Run command timeout (working_dir self)])
    | _ =>
        (* [blocked in command] and [command.strip()] need a string *)
        match blocked_commands self, allowed_commands self with
        | _ :: _, _ => (Raise TypeError, [])
        | [], Some (_ :: _) => (Raise AttributeError, [])
        | [], _ =>
            (Ok (run_command m self command timeout),
             [Run command timeout (working_dir self)])
        end
    end.

End ShellTool.

(** [ToolRegistry.execute] for a registered tool with the parameter list
    [parameters] and the method [execute]: validation, then the call. *)
Definition via_registry (parameters : list ToolParameter.t)
    (execute : gmap string PyVal → outcome ToolResult.t * list os_request)
    (kwargs : gmap string PyVal) : outcome ToolResult.t * list os_request :=
  match Tool.first_missing parameters kwargs with
  | Some validation_error =>
      (Ok (tool_result ERROR "" (Some validation_error)), [])
  | None => execute kwargs
  end.

End Builtin.

(** ** The sandbox as a context manager (sandbox.py) and the two direct
    entry points of the executor (executor.py) *)

Module Session.
Import Sandbox.

(** What a session asks of the machine: the requests of [_setup] and
    [execute], and the removal of the scratch directory. *)
Inductive event :=
  | Os (c : os_call)
  | RmTree (path : string).   (* [shutil.rmtree(path, ignore_errors=True)] *)

Definition __enter__ (h : Host) (self : CodeSandbox)
    : outcome CodeSandbox * list os_call :=
  _setup h self.

Definition _cleanup (self : CodeSandbox) : list event :=
  if cleanup_on_exit (config self) && truthy (_temp_dir self) then
    if negb (truthy (working_dir (config self)))
    then [RmTree (default "" (_temp_dir self))]
    else []
  else [].

Definition __exit__ (self : CodeSandbox) : list event := _cleanup self.

(** [with CodeSandbox(config) as sandbox: body].  [__exit__] runs when the
    body was entered, also when the body raises; it does not run when
    [__enter__] raises. *)
Definition with_sandbox {A} (h : Host) (cfg : SandboxConfig)
    (body : CodeSandbox → outcome A * CodeSandbox * list os_call)
    : outcome A * list event :=
  match __enter__ h (new_sandbox cfg) with
  | (Raise e, calls) => (Raise e, Os <$> calls)
  | (Ok sandbox, calls) =>
      let '(res, sandbox', calls') := body sandbox in
      (res, (Os <$> calls) ++ (Os <$> calls') ++ __exit__ sandbox')
  end.

End Session.

Module Direct.
Import Tools.

(** [s.replace(old, new)] for a non-empty [old]: scanning from the left,
    every occurrence found is replaced and the scan goes on behind it;
    [skip] counts the characters of the occurrence still to be passed. *)
Fixpoint replace_from (old new : string) (skip : nat) (s : string) : string :=
  match s with
  | EmptyString => EmptyString
  | String c s' =>
      match skip with
      | S k => replace_from old new k s'
      | O =>
          if String.prefix old s
          then new +:+ replace_from old new (String.length old - 1) s'
          else String c (replace_from old new 0 s')
      end
  end.

(** [s.replace("", new)]: [new] before every character and at the end. *)
Fixpoint interleave (new s : string) : string :=
  match s with
  | EmptyString => new
  | String c s' => new +:+ String c (interleave new s')
  end.

(** [s.replace(old, new)] *)
Definition replace (old new s : string) : string :=
  if String.eqb old "" then interleave new s else replace_from old new 0 s.

(** [ExecutionResult] as [execute_code] and [edit_file] build it:
    [metadata] keeps its default, the empty dict. *)
Record Result (step : Type) := mkResult {
  task : string;
  success : bool;
  steps : list step;
  error : option string;
}.
Arguments mkResult {step}.
Arguments task {step}.
Arguments success {step}.
Arguments steps {step}.
Arguments error {step}.

(** The [ToolResult] of [execute_code]; its [metadata] has the two
    entries [execution_time] and [memory_used_mb]. *)
Record SandboxOutput := mkOutput {
  status : ToolStatus;
  output : string;
  output_error : option string;
  execution_time : Q;
  memory_used_mb : Q;
}.

(** The [ExecutionStep] of [execute_code]; [retries] keeps its default. *)
Record SandboxStep := mkSandboxStep {
  step_id : string;
  tool : string;
  params : gmap string PyVal;
  result : SandboxOutput;
}.

(** The second half of [execute_code]: the sandbox result converted to an
    execution result. *)
Definition report (code description : string)
    (sandbox_result : Sandbox.SandboxResult) : Result SandboxStep :=
  let success :=
    bool_decide (Sandbox.status sandbox_result = Sandbox.COMPLETED) in
  let exec_step :=
    mkSandboxStep "sandbox_exec" "sandbox"
      {[ "code" := VStr (if (200 <? PyStr.len code)%Z
                         then PyStr.take 200 code +:+ "..."
                         else code) ]}
      (mkOutput (if success then SUCCESS else ERROR)
         (Sandbox.stdout sandbox_result)
         (if negb success then Some (Sandbox.stderr sandbox_result) else None)
         (Sandbox.execution_time sandbox_result)
         (Sandbox.memory_used_mb sandbox_result)) in
  mkResult description success [exec_step]
    (if negb success then Some (Sandbox.stderr sandbox_result) else None).

Definition execute_code (h : Sandbox.Host)
    (sandbox_config : option Sandbox.SandboxConfig) (code description : string)
    : outcome (Result SandboxStep) * list Session.event :=
  let config := default Sandbox.default_config sandbox_config in
  let '(ran, events) :=
    Session.with_sandbox h config (λ sandbox, Sandbox.execute h sandbox code) in
  (sandbox_result ← ran; Ok (report code description sandbox_result), events).

Section WithWorld.
Context {World : Type}.

Definition edit_file (self : Executor.AgenticExecutor World)
    (path old_content new_content : string) (w : World)
    : Result Executor.ExecutionStep.t * World :=
  let '(read_result, w1) :=
    ToolRegistry.execute (Executor.registry self) "file_read"
      {[ "path" := VStr path ]} w in
  let steps :=
    [Executor.ExecutionStep.mk "read" "file_read" {[ "path" := VStr path ]}
       (Some read_result) 0] in
  if negb (bool_decide (ToolResult.status read_result = SUCCESS)) then
    (mkResult ("Edit file: " +:+ path) false steps
       (ToolResult.error read_result), w1)
  else if negb (PyStr.contains old_content (ToolResult.output read_result)) then
    (mkResult ("Edit file: " +:+ path) false steps
       (Some "Old content not found in file"), w1)
  else
    let updated_content :=
      replace old_content new_content (ToolResult.output read_result) in
    let '(write_result, w2) :=
      ToolRegistry.execute (Executor.registry self) "file_write"
        (<[ "path" := VStr path ]> {[ "content" := VStr updated_content ]}) w1 in
    let steps :=
      steps ++
      [Executor.ExecutionStep.mk "write" "file_write" {[ "path" := VStr path ]}
         (Some write_result) 0] in
    (mkResult ("Edit file: " +:+ path)
       (bool_decide (ToolResult.status write_result = SUCCESS))
       steps
       (if negb (bool_decide (ToolResult.status write_result = SUCCESS))
        then ToolResult.error write_result else None), w2).

(** [run_tests(test_command)], called without a [working_dir]. *)
Definition run_tests (self : Executor.AgenticExecutor World)
    (test_command : PyVal) (w : World)
    : outcome (Executor.ExecutionResult.t * World) :=
  let context : gmap string PyVal := {[ "command" := test_command ]} in
  Executor.execute self "run tests" (Some context) w.

End WithWorld.

End Direct.

(** ** More concrete registries and plans *)

Module Scenarios.
Import Tools.

Definition shell_ok : Tool.t unit :=
  Tool.mk "shell"
    "Execute a shell command and return its output. Use for running tests, installing packages, git operations, etc."
    [ToolParameter.mk "command" "string" "Shell command to execute" true VNone;
     ToolParameter.mk "timeout" "integer" "Timeout in seconds" false (VInt 30)]
    (λ kwargs w, (tool_result SUCCESS "" None, w)).

Definition friendly_registry : ToolRegistry.t unit :=
  ToolRegistry.register
    (ToolRegistry.register ToolRegistry.empty Examples.search_nothing) shell_ok.

Definition friendly_executor : Executor.AgenticExecutor unit :=
  Executor.mkExecutor friendly_registry 50.

(** Stage and commit: two shell steps, the second waiting for the first. *)
Definition commit_plan : Planner.ExecutionPlan :=
  Planner.plan "git commit" (Some {[ "message" := VStr "fix bug" ]}).

(** A plan whose only step waits for a step that does not exist. *)
Definition orphan_plan : Planner.ExecutionPlan :=
  (Planner.add_step (Planner.mkPlan "wait" [] ∅) "shell"
     {[ "command" := VStr "ls" ]} "List files" (Some ["step_9"])).1.

(** A machine with the working directory [/work], on which reading
    [/etc/shadow] is denied by the operating system. *)
Definition machine : Builtin.Machine :=
  Builtin.mkMachine
    (λ path, if String.eqb path "." then "/work"
             else if PyStr.startswith path "/" then path
             else "/work/" +:+ path)
    (λ path encoding,
       if String.eqb path "notes.txt" then Builtin.ReadOk "remember the milk"
       else Builtin.ReadNotFound)
    (λ path, false)
    (λ path, Builtin.IoOk)
    (λ path mode, Builtin.IoOk)
    (λ path text, Builtin.IoOk)
    (λ v, "write() argument must be str")
    (λ command timeout cwd,
       match command with
       | VStr "cat /etc/shadow" =>
           Builtin.RunExited 1 "" "cat: /etc/shadow: Permission denied"
       | _ => Builtin.RunExited 0 "" ""
       end).

(** [ShellTool()] created in [/work]. *)
Definition shell : Builtin.ShellTool.t :=
  Builtin.ShellTool.new None None 30 None "/work".

(** The only step of [shadow_plan]. *)
Definition shadow_step : Planner.PlanStep :=
  Planner.set_retry_count 2
    (Planner.new_step "step_1" "shell" {[ "command" := VStr "cat /etc/shadow" ]}
       "Execute: cat /etc/shadow" []).

(** A plan whose only step, a shell command, has used up its retries. *)
Definition shadow_plan : Planner.ExecutionPlan :=
  Planner.update_step 0 (Planner.set_retry_count 2)
    (Planner.plan "show passwords"
       (Some {[ "command" := VStr "cat /etc/shadow" ]})).

(** A machine on which the wrapped script runs to its end and reports
    that the user's code raised. *)
Definition quiet_host : Sandbox.Host :=
  Sandbox.mkHost (λ _, true) (λ _, Some "/tmp/sandbox_0002") (λ _ _, None)
    (λ _ _ _, Sandbox.Exited 0 "{...}" "") (λ n, inject_Z (Z.of_nat n))
    (λ _, Sandbox.Payload "" "" (Some "division by zero")).

End Scenarios.

(** * Properties *)

(** ** The dependency graph *)

Section PlanGraph.
Import Planner.

Lemma get_step_in_elem (l : list PlanStep) (sid : string) (s : PlanStep) :
  get_step_in l sid = Some s → s ∈ l ∧ id s = sid.
Proof.
  induction l as [|x l IH]; simpl; [done|].
  destruct (String.eqb (id x) sid) eqn:E.
  - intros [= <-]. apply String.eqb_eq in E. split; [left | done].
  - intros H. destruct (IH H) as [? ?]. split; [by right | done].
Qed.

Lemma deps_met_true (p : ExecutionPlan) (deps : list string) :
  deps_met p deps = true ↔
  ∀ dep_id, dep_id ∈ deps →
    ∃ dep, get_step p dep_id = Some dep ∧ status dep = COMPLETED.
Proof.
  induction deps as [|d deps IH]; simpl.
  - split; [|done]. intros _ ? H. by apply elem_of_nil in H.
  - destruct (get_step p d) as [dep|] eqn:E.
    + destruct (decide (status dep = COMPLETED)) as [Hc|Hc].
      * rewrite bool_decide_eq_false_2 by (intros ?; done).
        rewrite IH. split.
        -- intros H x [->|Hx]%elem_of_cons; [eauto | by apply H].
        -- intros H x Hx. apply H. by right.
      * rewrite bool_decide_eq_true_2 by done. split; [done|].
        intros H. destruct (H d) as (dep' & Hd & Hs); [left|]. congruence.
    + split; [done|]. intros H. destruct (H d) as (dep' & Hd & _); [left|].
      congruence.
Qed.

Local Abbreviation ready_entry p :=
  (λ entry : nat * PlanStep,
     bool_decide (status entry.2 = PENDING) && deps_met p (depends_on entry.2)).

Lemma foldl_ready_visit (p : ExecutionPlan) (l acc : list (nat * PlanStep)) :
  foldl (ready_visit p) acc l = acc ++ List.filter (ready_entry p) l.
Proof.
  revert acc. induction l as [|e l IH]; intros acc; simpl.
  - by rewrite app_nil_r.
  - rewrite IH. unfold ready_visit.
    destruct (decide (status e.2 = PENDING)) as [Hp|Hp].
    + rewrite bool_decide_eq_false_2 by (intros ?; done).
      rewrite (bool_decide_eq_true_2 _ Hp). simpl.
      destruct (deps_met p (depends_on e.2)); [|done].
      by rewrite <- app_assoc.
    + rewrite bool_decide_eq_true_2 by done.
      by rewrite (bool_decide_eq_false_2 _ Hp).
Qed.

Lemma get_ready_steps_filter (p : ExecutionPlan) :
  get_ready_steps p = List.filter (ready_entry p) (imap pair (steps p)).
Proof. unfold get_ready_steps. by rewrite foldl_ready_visit. Qed.

Lemma filter_sublist {A} (f : A → bool) (l : list A) :
  List.filter f l `sublist_of` l.
Proof.
  induction l as [|x l IH]; simpl; [done|].
  destruct (f x); by constructor.
Qed.

Lemma imap_pair_snd {A} (l : list A) : (imap pair l).*2 = l.
Proof.
  induction l as [|x l IH] using rev_ind; [done|].
  rewrite imap_app, fmap_app, IH. done.
Qed.

(** C1. A step is returned by [get_ready_steps] exactly when it is a step
    of the plan whose status is [PENDING] and each of whose dependency ids
    is resolved by [get_step] to a step with status [COMPLETED]; the
    returned steps keep the order (and multiplicity) they have in
    [plan.steps].  Both are stated twice: for the step objects, each
    identified by its position in [plan.steps], and for their contents. *)
Theorem get_ready_steps_spec (p : ExecutionPlan) :
  (∀ (i : nat) (step : PlanStep),
     (i, step) ∈ get_ready_steps p ↔
       steps p !! i = Some step ∧
       status step = PENDING ∧
       ∀ dep_id, dep_id ∈ depends_on step →
         ∃ dep, get_step p dep_id = Some dep ∧ status dep = COMPLETED) ∧
  get_ready_steps p `sublist_of` imap pair (steps p) ∧
  (∀ step : PlanStep,
     step ∈ (get_ready_steps p).*2 ↔
       step ∈ steps p ∧
       status step = PENDING ∧
       ∀ dep_id, dep_id ∈ depends_on step →
         ∃ dep, get_step p dep_id = Some dep ∧ status dep = COMPLETED) ∧
  (get_ready_steps p).*2 `sublist_of` steps p.
Proof.
  assert (Hrefs : ∀ (i : nat) (step : PlanStep),
     (i, step) ∈ get_ready_steps p ↔
       steps p !! i = Some step ∧
       status step = PENDING ∧
       ∀ dep_id, dep_id ∈ depends_on step →
         ∃ dep, get_step p dep_id = Some dep ∧ status dep = COMPLETED).
  { rewrite get_ready_steps_filter.
    intros i step. rewrite list_elem_of_In, filter_In, <- list_elem_of_In.
    rewrite elem_of_lookup_imap. simpl.
    rewrite andb_true_iff, bool_decide_eq_true, deps_met_true.
    split.
    - intros [(j & x & [= -> ->] & Hl) [Hp Hd]]. done.
    - intros (Hl & Hp & Hd). split; [|done]. by exists i, step. }
  assert (Hsub : get_ready_steps p `sublist_of` imap pair (steps p)).
  { rewrite get_ready_steps_filter. apply filter_sublist. }
  split; [exact Hrefs|]. split; [exact Hsub|]. split.
  - intros step. rewrite list_elem_of_fmap, list_elem_of_lookup. split.
    + intros ([i s] & -> & Hin). apply Hrefs in Hin as (Hl & Hp & Hd).
      simpl. eauto.
    + intros ([i Hl] & Hp & Hd). exists (i, step). split; [done|].
      by apply Hrefs.
  - rewrite <- (imap_pair_snd (steps p)). by apply fmap_sublist.
Qed.

(** C8. [is_complete] holds exactly when every step is [COMPLETED],
    [FAILED] or [SKIPPED]; one [PENDING] or [RUNNING] step makes it fail. *)
Theorem is_complete_spec (p : ExecutionPlan) :
  (is_complete p = true ↔
     ∀ step, step ∈ steps p →
       status step = COMPLETED ∨ status step = FAILED ∨ status step = SKIPPED) ∧
  (∀ step, step ∈ steps p →
     status step = PENDING ∨ status step = RUNNING → is_complete p = false).
Proof.
  assert (Hiff : is_complete p = true ↔
     ∀ step, step ∈ steps p →
       status step = COMPLETED ∨ status step = FAILED ∨ status step = SKIPPED).
  { unfold is_complete. rewrite forallb_forall. split.
    - intros H step Hin. apply list_elem_of_In, H in Hin.
      unfold is_terminal in Hin. apply bool_decide_eq_true in Hin.
      rewrite !elem_of_cons, elem_of_nil in Hin.
      destruct Hin as [?|[?|[?|[]]]]; auto.
    - intros H step Hin. apply list_elem_of_In in Hin. specialize (H _ Hin).
      unfold is_terminal. apply bool_decide_eq_true.
      rewrite !elem_of_cons. destruct H as [?|[?|?]]; auto. }
  split; [exact Hiff|].
  intros step Hin Hst. apply not_true_is_false. intros Hc.
  destruct (proj1 Hiff Hc step Hin) as [H|[H|H]], Hst as [H'|H']; congruence.
Qed.

End PlanGraph.

(** ** The recovery controller *)

Section Recovery.
Import Planner.

(** The step left by the retry branch. *)
Local Abbreviation retried fs :=
  (set_status PENDING (set_retry_count (retry_count fs + 1) fs)).

(** The step appended by the search branch for the file name [filename]. *)
Local Abbreviation search_step p filename :=
  (new_step ("step_" +:+ pretty (length (steps p) + 1)%nat) "search"
     (<[ "pattern" := VStr filename ]> {[ "file_pattern" := VStr "*" ]})
     ("Search for file: " +:+ filename) []).

(** The step appended by the escalation branch for the command [cmd]. *)
Local Abbreviation sudo_step p cmd :=
  (new_step ("step_" +:+ pretty (length (steps p) + 1)%nat) "shell"
     {[ "command" := VStr ("sudo " +:+ cmd) ]}
     ("Retry with sudo: " +:+ cmd) []).

Lemma alter_as_insert {A} (l : list A) (i : nat) (f : A → A) (s : A) :
  l !! i = Some s → alter f i l = <[i := f s]> l.
Proof.
  intros H.
  apply list_eq. intros j. rewrite list_lookup_alter.
  destruct (decide (i = j)) as [->|Hne].
  - rewrite H. simpl. rewrite list_lookup_insert_eq; [done|].
    by eapply lookup_lt_Some.
  - by rewrite list_lookup_insert_ne.
Qed.

Lemma update_step_steps (p : ExecutionPlan) (i : nat) (f : PlanStep → PlanStep)
    (s : PlanStep) :
  steps p !! i = Some s →
  steps (update_step i f p) = <[i := f s]> (steps p).
Proof. intros H. unfold update_step. simpl. by apply alter_as_insert. Qed.

(** Every way [replan_on_failure] can return. *)
Lemma replan_on_failure_cases (p p' : ExecutionPlan) (i : nat)
    (err : option string) (r : option nat) :
  replan_on_failure p i err = Ok (p', r) →
  ∃ fs, steps p !! i = Some fs ∧
    ((can_retry fs = true ∧ p' = update_step i (λ s, retried s) p ∧ r = Some i) ∨
     (can_retry fs = false ∧ ∃ e, err = Some e ∧
        ((PyStr.contains "not found" (PyStr.lower e) = true ∧
          tool fs = "file_read" ∧
          ∃ path, default (VStr "") (params fs !! "path") = VStr path ∧
            p' = with_steps (steps p ++ [search_step p (PyStr.split_last "/" path)]) p ∧
            r = Some (length (steps p))) ∨
         (PyStr.contains "not found" (PyStr.lower e)
            && bool_decide (tool fs = "file_read") = false ∧
          PyStr.contains "permission denied" (PyStr.lower e) = true ∧
          tool fs = "shell" ∧
          ∃ cmd, default (VStr "") (params fs !! "command") = VStr cmd ∧
            PyStr.startswith cmd "sudo" = false ∧
            p' = with_steps (steps p ++ [sudo_step p cmd]) p ∧
            r = Some (length (steps p))) ∨
         (PyStr.contains "not found" (PyStr.lower e)
            && bool_decide (tool fs = "file_read") = false ∧
          p' = p ∧ r = None)))).
Proof.
  unfold replan_on_failure. destruct (steps p !! i) as [fs|] eqn:Hfs; [|done].
  intros H. exists fs. split; [done|].
  destruct (can_retry fs) eqn:Hcr.
  { left. by injection H as <- <-. }
  right. split; [done|].
  destruct err as [e|]; [|done]. exists e. split; [done|].
  simpl in H.
  destruct (PyStr.contains "not found" (PyStr.lower e)
            && bool_decide (tool fs = "file_read")) eqn:Hnf.
  - apply andb_true_iff in Hnf as [Hnf Ht]. apply bool_decide_eq_true in Ht.
    left. destruct (default (VStr "") (params fs !! "path")) as [path| | |];
      try done.
    simpl in H. injection H as <- <-. eauto 10.
  - destruct (PyStr.contains "permission denied" (PyStr.lower e)) eqn:Hpd.
    + destruct (decide (tool fs = "shell")) as [Hsh|Hsh].
      * rewrite (bool_decide_eq_true_2 _ Hsh) in H.
        destruct (default (VStr "") (params fs !! "command")) as [cmd| | |];
          try done.
        simpl in H. destruct (PyStr.startswith cmd "sudo") eqn:Hsudo; simpl in H.
        -- right; right. by injection H as <- <-.
        -- right; left. injection H as <- <-. eauto 10.
      * rewrite (bool_decide_eq_false_2 _ Hsh) in H.
        right; right. by injection H as <- <-.
    + right; right. by injection H as <- <-.
Qed.

Lemma not_self_append {A} (l : list A) (x : A) : l ≠ l ++ [x].
Proof.
  intros H. apply (f_equal length) in H. rewrite length_app in H.
  simpl in H. lia.
Qed.

Lemma sudo_step_escalated (p : ExecutionPlan) (cmd : string) :
  is_escalated (sudo_step p cmd) = true.
Proof. unfold is_escalated. simpl. by rewrite lookup_singleton_eq. Qed.

(** C9. After a permission-denied failure of a step that has no retries
    left, the only step [replan_on_failure] may append that is escalated
    comes from a shell step whose command does not begin with [sudo], and
    it is that command prefixed with [sudo]; at most one step is appended;
    a step that is not a shell step gets no escalated step.  The failure
    of an escalated step never makes the plan grow, so a chain of failures
    holds at most one escalation. *)
Theorem escalation_only_for_shell :
  (∀ (p p' : ExecutionPlan) (i : nat) (fs : PlanStep) (e : string)
     (r : option nat),
     steps p !! i = Some fs →
     can_retry fs = false →
     PyStr.contains "permission denied" (PyStr.lower e) = true →
     replan_on_failure p i (Some e) = Ok (p', r) →
     (steps p' = steps p ∨ ∃ new, steps p' = steps p ++ [new]) ∧
     (∀ new, steps p' = steps p ++ [new] → is_escalated new = true →
        tool fs = "shell" ∧
        ∃ cmd, default (VStr "") (params fs !! "command") = VStr cmd ∧
               PyStr.startswith cmd "sudo" = false ∧
               new = sudo_step p cmd) ∧
     (tool fs ≠ "shell" →
        ∀ new, steps p' = steps p ++ [new] → is_escalated new = false)) ∧
  (∀ (p : ExecutionPlan) (i : nat) (fs : PlanStep) (e cmd : string),
     steps p !! i = Some fs →
     can_retry fs = false →
     PyStr.contains "permission denied" (PyStr.lower e) = true →
     tool fs = "shell" →
     default (VStr "") (params fs !! "command") = VStr cmd →
     PyStr.startswith cmd "sudo" = false →
     replan_on_failure p i (Some e) =
       Ok (with_steps (steps p ++ [sudo_step p cmd]) p, Some (length (steps p)))) ∧
  (∀ (p p' : ExecutionPlan) (j : nat) (esc : PlanStep) (err : option string)
     (r : option nat),
     steps p !! j = Some esc →
     is_escalated esc = true →
     replan_on_failure p j err = Ok (p', r) →
     length (steps p') = length (steps p)).
Proof.
  split; [|split].
  - intros p p' i fs e r Hfs Hcr Hpd H.
    apply replan_on_failure_cases in H as (fs' & Hfs' & H).
    assert (fs' = fs) as -> by congruence.
    destruct H as [(Hcr' & _)|(_ & e' & [= <-] & H)]; [congruence|].
    destruct H as [(Hnf & Ht & path & Hpath & -> & ->)
                  |[(Hnf & _ & Ht & cmd & Hcmd & Hsudo & -> & ->)
                   |(Hnf & -> & ->)]]; simpl.
    + split; [right; eauto|]. split.
      * intros new [_ <-]%app_inj_tail. done.
      * intros _ new [_ <-]%app_inj_tail. done.
    + split; [right; eauto|]. split.
      * intros new [_ <-]%app_inj_tail _. eauto.
      * intros Hne. congruence.
    + split; [by left|]. split.
      * intros new Hnew. by apply not_self_append in Hnew.
      * intros _ new Hnew. by apply not_self_append in Hnew.
  - intros p i fs e cmd Hfs Hcr Hpd Ht Hcmd Hsudo.
    unfold replan_on_failure. rewrite Hfs, Hcr. simpl.
    rewrite Hpd, Ht. simpl. rewrite Hcmd. simpl. rewrite Hsudo. simpl.
    by rewrite andb_false_r.
  - intros p p' j esc err r Hesc Hisesc H.
    apply replan_on_failure_cases in H as (fs' & Hfs' & H).
    assert (fs' = esc) as -> by congruence.
    unfold is_escalated in Hisesc.
    apply andb_true_iff in Hisesc as [Ht%bool_decide_eq_true Hc].
    destruct H as [(_ & -> & _)|(_ & e' & _ & H)].
    { unfold update_step. simpl. by rewrite length_alter. }
    destruct H as [(_ & Ht' & _)
                  |[(_ & _ & _ & cmd & Hcmd & Hsudo & _)
                   |(_ & -> & _)]]; [congruence| |done].
    destruct (params esc !! "command") as [[c| | |]|]; try done.
    simpl in Hcmd. congruence.
Qed.

End Recovery.

(** ** The orchestration loop *)

Section Loop.
Import Planner Tools Executor.
Context {World : Type}.
Implicit Types (self : AgenticExecutor World) (st : loop_state World).
Implicit Types (p : ExecutionPlan).

(** Updates that touch only [status], [result] and [error]. *)
Local Abbreviation keeps_shape f :=
  (∀ s : PlanStep,
     tool (f s) = tool s ∧ params (f s) = params s ∧
     retry_count (f s) = retry_count s ∧ max_retries (f s) = max_retries s).

(** A property of plans that the loop maintains as soon as its two ways of
    changing a plan maintain it. *)
Section Invariant.
Variable I : ExecutionPlan → Prop.
Hypothesis I_update :
  ∀ p i (f : PlanStep → PlanStep), keeps_shape f → I p → I (update_step i f p).
Hypothesis I_replan :
  ∀ p p' i err r, I p → replan_on_failure p i err = Ok (p', r) → I p'.

Lemma handle_ready_step_inv self st st' (i : nat) :
  I (st_plan st) → handle_ready_step self st i = Ok st' → I (st_plan st').
Proof.
  intros HI. unfold handle_ready_step, _execute_step.
  destruct (steps (st_plan st) !! i) as [ps|]; [|done].
  unfold call_with_kwargs. destruct (forallb _ _); [|done].
  destruct (ToolRegistry.execute _ _ _ _) as [res w1]. simpl.
  set (p1 := update_step i (set_status RUNNING) (st_plan st)).
  assert (I p1) as HI1 by (by apply I_update).
  destruct (bool_decide (ToolResult.status res = SUCCESS)).
  - intros [= <-]. simpl. by apply I_update.
  - destruct (replan_on_failure p1 i (ToolResult.error res))
      as [[p2 rec]|] eqn:Hre; simpl; [|done].
    apply I_replan in Hre; [|done].
    destruct rec; intros [= <-]; simpl; [done|]. by apply I_update.
Qed.

Lemma for_ready_steps_inv self st st' (ready : list nat) :
  I (st_plan st) → for_ready_steps self st ready = Ok st' → I (st_plan st').
Proof.
  revert st. induction ready as [|i ready IH]; intros st HI; simpl.
  - by intros [= <-].
  - destruct (handle_ready_step self st i) as [st1|] eqn:Hh; simpl; [|done].
    apply IH. by eapply handle_ready_step_inv.
Qed.

Lemma agentic_loop_inv self (budget : nat) (iteration it' : Z) st st' :
  I (st_plan st) →
  agentic_loop self budget iteration st = Ok (st', it') → I (st_plan st').
Proof.
  revert iteration st. induction budget as [|b IH]; intros iteration st HI; simpl.
  - by intros [= <- _].
  - destruct (is_complete (st_plan st)); [by intros [= <- _]|].
    destruct (get_ready_steps (st_plan st)) as [|e ready] eqn:Hr.
    + by intros [= <- _].
    + destruct (for_ready_steps self st _) as [st1|] eqn:Hf; simpl; [|done].
      apply IH. by eapply for_ready_steps_inv.
Qed.

End Invariant.

(** *** The retry ceiling *)

Local Abbreviation within_ceiling p :=
  (Forall (λ s : PlanStep, (retry_count s ≤ max_retries s)%Z) (steps p)).

Lemma update_within_ceiling p (i : nat) (f : PlanStep → PlanStep) :
  keeps_shape f → within_ceiling p → within_ceiling (update_step i f p).
Proof.
  intros Hf Hp. unfold update_step. simpl. apply Forall_alter; [done|].
  intros s _ Hs. destruct (Hf s) as (_ & _ & -> & ->). done.
Qed.

Lemma replan_within_ceiling p p' (i : nat) (err : option string) (r : option nat) :
  within_ceiling p → replan_on_failure p i err = Ok (p', r) → within_ceiling p'.
Proof.
  intros Hp H. apply replan_on_failure_cases in H as (fs & Hfs & H).
  destruct H as [(Hcr & -> & _)|(_ & e & _ & H)].
  - unfold update_step. simpl. apply Forall_alter; [done|].
    intros s Hs Hle. simpl. unfold can_retry in Hcr.
    assert (s = fs) as -> by congruence. apply Z.ltb_lt in Hcr. lia.
  - destruct H as [(_ & _ & path & _ & -> & _)
                  |[(_ & _ & _ & cmd & _ & _ & -> & _)|(_ & -> & _)]];
      simpl; [| |done]; (apply Forall_app; split; [done|]);
      by apply Forall_singleton.
Qed.

Lemma plan_within_ceiling (task : string) (context : option (gmap string PyVal)) :
  within_ceiling (Planner.plan task context).
Proof.
  unfold Planner.plan.
  repeat match goal with
         | |- context [if ?c then _ else _] => destruct c
         end;
    unfold _plan_file_read, _plan_file_write, _plan_search, _plan_run_tests,
      _plan_install, _plan_git, _plan_refactor, _plan_shell; simpl;
    repeat (apply Forall_cons; split; [simpl; lia|]); apply Forall_nil_2.
Qed.

Lemma execute_plan_inv (I : ExecutionPlan → Prop) self (task : string) p
    (w w' : World) (r : ExecutionResult.t) :
  (∀ p i (f : PlanStep → PlanStep), keeps_shape f → I p → I (update_step i f p)) →
  (∀ p p' i err r, I p → replan_on_failure p i err = Ok (p', r) → I p') →
  I p → execute_plan self task p w = Ok (r, w') → I (ExecutionResult.plan r).
Proof.
  intros Hu Hr HI. unfold execute_plan.
  destruct (agentic_loop self _ _ _) as [[st it]|] eqn:Hl; simpl; [|done].
  intros [= <- _]. simpl.
  eapply (agentic_loop_inv I Hu Hr) in Hl; done.
Qed.

(** C3. A step whose retry counter is below its ceiling is handed back by
    [replan_on_failure] itself, with the counter one higher and the status
    [PENDING], every other field and every other step as before.  The
    bound [retry_count <= max_retries] on all steps of a plan is kept by
    [replan_on_failure], holds for every plan the planner builds, and so
    holds for the plan left by [execute]. *)
Theorem retry_within_ceiling :
  (∀ p (i : nat) (fs : PlanStep) (err : option string),
     steps p !! i = Some fs →
     (retry_count fs < max_retries fs)%Z →
     ∃ fs',
       replan_on_failure p i err =
         Ok (with_steps (<[i := fs']> (steps p)) p, Some i) ∧
       retry_count fs' = (retry_count fs + 1)%Z ∧
       status fs' = PENDING ∧
       id fs' = id fs ∧ tool fs' = tool fs ∧ params fs' = params fs ∧
       description fs' = description fs ∧ depends_on fs' = depends_on fs ∧
       result fs' = result fs ∧ Planner.error fs' = Planner.error fs ∧
       max_retries fs' = max_retries fs) ∧
  (∀ p p' (i : nat) (err : option string) (r : option nat),
     within_ceiling p →
     replan_on_failure p i err = Ok (p', r) →
     within_ceiling p') ∧
  (∀ self (task : string) p (w w' : World) (r : ExecutionResult.t),
     within_ceiling p →
     execute_plan self task p w = Ok (r, w') →
     within_ceiling (ExecutionResult.plan r)) ∧
  (∀ self (task : string) (context : option (gmap string PyVal))
     (w w' : World) (r : ExecutionResult.t),
     execute self task context w = Ok (r, w') →
     within_ceiling (ExecutionResult.plan r)).
Proof.
  split; [|split; [|split]].
  - intros p i fs err Hfs Hlt.
    exists (set_status PENDING (set_retry_count (retry_count fs + 1) fs)).
    split; [|done].
    unfold replan_on_failure, can_retry. rewrite Hfs.
    rewrite (proj2 (Z.ltb_lt _ _) Hlt).
    f_equal. f_equal. unfold update_step. f_equal.
    change (alter _ i (steps p)) with
      (steps (update_step i
         (λ s, set_status PENDING (set_retry_count (retry_count s + 1) s)) p)).
    by rewrite (update_step_steps _ _ _ fs).
  - apply @replan_within_ceiling.
  - intros self task p w w' r Hp H.
    eapply (execute_plan_inv (λ p, within_ceiling p)); [| |exact Hp|exact H].
    + intros. by apply update_within_ceiling.
    + intros. by eapply replan_within_ceiling.
  - intros self task context w w' r H. unfold execute in H.
    eapply (execute_plan_inv (λ p, within_ceiling p)); [| | |exact H].
    + intros. by apply update_within_ceiling.
    + intros. by eapply replan_within_ceiling.
    + apply plan_within_ceiling.
Qed.

Lemma first_failed_error_spec (l : list PlanStep) (i : nat) (step : PlanStep) :
  l !! i = Some step →
  status step = FAILED →
  (∀ (j : nat) step', j < i → l !! j = Some step' → status step' ≠ FAILED) →
  first_failed_error l = Planner.error step.
Proof.
  revert i. induction l as [|x l IH]; intros i Hi Hf Hfirst; [done|].
  simpl. destruct i as [|i]; simpl in Hi.
  - injection Hi as ->. by rewrite bool_decide_eq_true_2.
  - rewrite bool_decide_eq_false_2 by (apply (Hfirst 0); [lia|done]).
    apply (IH i); [done..|]. intros j s' Hj Hs'.
    apply (Hfirst (S j)); [lia|done].
Qed.

(** C7. The [success] flag of the result is true exactly when every step
    of the final plan is [COMPLETED]; when it is false and some step is
    [FAILED], the result's [error] is the [error] of the first such step
    in plan order. *)
Theorem success_iff_all_completed self (task : string) p (w w' : World)
    (r : ExecutionResult.t) :
  execute_plan self task p w = Ok (r, w') →
  (ExecutionResult.success r = true ↔
     ∀ step, step ∈ steps (ExecutionResult.plan r) → status step = COMPLETED) ∧
  (ExecutionResult.success r = false →
     ∀ (i : nat) step,
       steps (ExecutionResult.plan r) !! i = Some step →
       status step = FAILED →
       (∀ (j : nat) step', j < i →
          steps (ExecutionResult.plan r) !! j = Some step' →
          status step' ≠ FAILED) →
       ExecutionResult.error r = Planner.error step).
Proof.
  unfold execute_plan.
  destruct (agentic_loop self _ _ _) as [[st it]|]; simpl; [|done].
  intros [= <- _]. simpl. split.
  - rewrite forallb_forall. split.
    + intros H step Hin. apply list_elem_of_In, H in Hin.
      by apply bool_decide_eq_true in Hin.
    + intros H step Hin. apply bool_decide_eq_true, H. by apply list_elem_of_In.
  - intros -> i step Hi Hf Hfirst. simpl.
    by apply (first_failed_error_spec _ i).
Qed.

(** C10. A plan without steps is complete and has no ready step; the loop
    makes no pass over it and [execute] reports success, with no error and
    nothing executed. *)
Theorem empty_plan_succeeds self (task : string) p (w : World) :
  steps p = [] →
  is_complete p = true ∧
  get_ready_steps p = [] ∧
  execute_plan self task p w =
    Ok (ExecutionResult.mk task true [] None p 0, w).
Proof.
  intros Hs. unfold execute_plan, is_complete, get_ready_steps. rewrite Hs.
  split; [done|]. split; [done|].
  assert (agentic_loop self (Z.to_nat (max_steps self)) 0 (mkState p w []) =
          Ok (mkState p w [], 0%Z)) as ->.
  { destruct (Z.to_nat (max_steps self)); simpl; [done|].
    unfold is_complete. by rewrite Hs. }
  simpl. by rewrite Hs.
Qed.

End Loop.

(** ** The sandbox *)

Section SandboxFacts.
Import Sandbox.

Lemma first_blocked_some (l : list string) (code marker : string) :
  marker ∈ l →
  PyStr.contains marker code = true →
  ∃ blocked,
    blocked ∈ l ∧ PyStr.contains blocked code = true ∧
    first_blocked l code = Some ("Blocked import detected: " +:+ blocked).
Proof.
  induction l as [|x l IH]; intros Hin Hc.
  - by apply elem_of_nil in Hin.
  - simpl. destruct (PyStr.contains x code) eqn:Hx.
    + exists x. split; [left|done].
    + apply elem_of_cons in Hin as [->|Hin]; [congruence|].
      destruct (IH Hin Hc) as (b & Hb & Hbc & Hf).
      exists b. split; [by right|done].
Qed.

(** C5. Code that contains a marker of the deny list is answered at once:
    status [ERROR], empty [stdout], a diagnostic that names a marker of
    the list found in the code, execution time zero; the call makes no
    request to the operating system (no directory, no file, no process)
    and leaves the scratch directory of the sandbox as it was. *)
Theorem blocked_code_rejected (h : Host) (self : CodeSandbox)
    (code marker : string) :
  marker ∈ blocked_imports (config self) →
  PyStr.contains marker code = true →
  ∃ blocked,
    blocked ∈ blocked_imports (config self) ∧
    PyStr.contains blocked code = true ∧
    execute h self code =
      (Ok (mkResult ERROR "" ("Blocked import detected: " +:+ blocked) None 0 0),
       mkSandbox (config self) (_temp_dir self) RUNNING,
       []).
Proof.
  intros Hin Hc.
  destruct (first_blocked_some _ _ _ Hin Hc) as (b & Hb & Hbc & Hf).
  exists b. split; [done|]. split; [done|].
  unfold execute, _check_imports. simpl. rewrite Hf. done.
Qed.

Lemma setup_calls (h : Host) (self self2 : CodeSandbox) (calls : list os_call) :
  _setup h self = (Ok self2, calls) →
  config self2 = config self ∧ Forall (λ c, is_spawn c = false) calls.
Proof.
  unfold _setup. destruct (truthy (working_dir (config self))).
  - destruct (host_makedirs h _); intros [= <- <-].
    split; [done|]. by repeat constructor.
  - destruct (host_mkdtemp h _); intros [= <- <-].
    split; [done|]. by repeat constructor.
Qed.

(** C6. When the process spawned by [execute] runs into the time limit,
    the result has status [TIMEOUT], empty [stdout], the message
    [Execution timed out after <timeout_seconds>s] in [stderr], and
    [execution_time] equal to the configured [timeout_seconds]. *)
Theorem timeout_reported (h : Host) (self self' : CodeSandbox) (code : string)
    (res : outcome SandboxResult) (calls : list os_call)
    (script cwd : string) (t : Z) :
  execute h self code = (res, self', calls) →
  RunProcess script cwd t ∈ calls →
  host_run h script cwd t = TimeoutExpired →
  res = Ok (mkResult TIMEOUT ""
              ("Execution timed out after " +:+
               pretty (timeout_seconds (config self)) +:+ "s")
              None (inject_Z (timeout_seconds (config self))) 0).
Proof.
  unfold execute.
  destruct (truthy (_check_imports _ code)).
  { intros [= <- <- <-] Hin Hrun. by apply elem_of_nil in Hin. }
  set (self1 := mkSandbox (config self) (_temp_dir self) RUNNING).
  assert (∃ ready calls0,
    (if negb (truthy (_temp_dir self1)) then _setup h self1 else (Ok self1, []))
      = (ready, calls0) ∧
    match ready with
    | Ok self2 => config self2 = config self ∧
                  Forall (λ c, is_spawn c = false) calls0
    | Raise _ => Forall (λ c, is_spawn c = false) calls0
    end) as (ready & calls0 & -> & Hready).
  { destruct (negb (truthy (_temp_dir self1))).
    - destruct (_setup h self1) as [[self2|e] calls0] eqn:Hs.
      + exists (Ok self2), calls0. split; [done|].
        by apply setup_calls in Hs.
      + exists (Raise e), calls0. split; [done|].
        unfold _setup in Hs. destruct (truthy _).
        * destruct (host_makedirs h _); simplify_eq; by repeat constructor.
        * destruct (host_mkdtemp h _); simplify_eq; by repeat constructor.
    - exists (Ok self1), []. split; [done|]. split; [done|]. constructor. }
  assert (Hnospawn : ∀ l, Forall (λ c, is_spawn c = false) l →
            RunProcess script cwd t ∈ l → False).
  { intros l Hl Hin. rewrite Forall_forall in Hl. by apply Hl in Hin. }
  destruct ready as [self2|e].
  - destruct Hready as [Hcfg Hcalls].
    destruct (host_write h _ _) as [msg|].
    + intros [= <- <- <-] Hin Hrun.
      apply elem_of_app in Hin as [Hin|Hin]; [by destruct (Hnospawn calls0)|].
      apply list_elem_of_singleton in Hin. done.
    + intros [= <- <- <-] Hin Hrun.
      apply elem_of_app in Hin as [Hin|Hin]; [by destruct (Hnospawn calls0)|].
      apply elem_of_cons in Hin as [Hin|Hin]; [done|].
      apply list_elem_of_singleton in Hin. injection Hin as -> -> ->.
      unfold run_script. rewrite Hrun, Hcfg. done.
  - intros [= <- <- <-] Hin Hrun. by destruct (Hnospawn calls0).
Qed.

End SandboxFacts.

(** ** Dispatch, validation and recovery together *)

Section Dispatch.
Import Planner Tools Executor.
Context {World : Type}.
Implicit Types (self : AgenticExecutor World) (st : loop_state World).
Implicit Types (p : ExecutionPlan).

Lemma update_step_lookup p (i : nat) (f : PlanStep → PlanStep) (s : PlanStep) :
  steps p !! i = Some s → steps (update_step i f p) !! i = Some (f s).
Proof.
  intros H. rewrite (update_step_steps _ _ _ s H).
  apply list_lookup_insert_eq. by eapply lookup_lt_Some.
Qed.

Lemma first_missing_some (ps : list ToolParameter.t) (kwargs : gmap string PyVal)
    (param : ToolParameter.t) :
  param ∈ ps →
  ToolParameter.required param = true →
  kwargs !! ToolParameter.name param = None →
  ∃ missing,
    missing ∈ ps ∧ ToolParameter.required missing = true ∧
    kwargs !! ToolParameter.name missing = None ∧
    Tool.first_missing ps kwargs =
      Some ("Missing required parameter: " +:+ ToolParameter.name missing).
Proof.
  induction ps as [|x ps IH]; intros Hin Hreq Hnone.
  - by apply elem_of_nil in Hin.
  - simpl.
    destruct (ToolParameter.required x
              && bool_decide (kwargs !! ToolParameter.name x = None)) eqn:Hx.
    + apply andb_true_iff in Hx as [Hr Hn%bool_decide_eq_true].
      exists x. split; [left|done].
    + apply elem_of_cons in Hin as [->|Hin].
      { rewrite Hreq, (bool_decide_eq_true_2 _ Hnone) in Hx. done. }
      destruct (IH Hin Hreq Hnone) as (m & Hm & ? & ? & ?).
      exists m. split; [by right|done].
Qed.


(** C2, the part the code keeps and the part it misses.  When a
    [file_read] step without retries left fails with a message that
    contains [not found], dispatching it appends exactly one [search] step
    with no dependency, for the last component of the path; the step that
    failed keeps the status [RUNNING] it was given at dispatch, so the plan
    is not complete. *)
Theorem lookup_recovery_leaves_step_running self st (i : nat) (ps : PlanStep)
    (res : ToolResult.t) (w1 : World) (msg path : string) :
  steps (st_plan st) !! i = Some ps →
  can_retry ps = false →
  Planner.tool ps = "file_read" →
  Planner.params ps !! "self" = None →
  Planner.params ps !! "tool_name" = None →
  ToolRegistry.execute (registry self) (Planner.tool ps) (Planner.params ps)
    (st_world st) = (res, w1) →
  ToolResult.status res ≠ SUCCESS →
  ToolResult.error res = Some msg →
  PyStr.contains "not found" (PyStr.lower msg) = true →
  default (VStr "") (Planner.params ps !! "path") = VStr path →
  ∃ st',
    handle_ready_step self st i = Ok st' ∧
    steps (st_plan st') =
      <[i := set_status RUNNING ps]> (steps (st_plan st)) ++
      [new_step ("step_" +:+ pretty (length (steps (st_plan st)) + 1)%nat)
         "search"
         (<[ "pattern" := VStr (PyStr.split_last "/" path) ]>
            {[ "file_pattern" := VStr "*" ]})
         ("Search for file: " +:+ PyStr.split_last "/" path) []] ∧
    is_terminal (status (set_status RUNNING ps)) = false ∧
    is_complete (st_plan st') = false.
Proof.
  intros Hps Hcr Htool Hself Hname Hexec Hst Herr Hnf Hpath.
  unfold handle_ready_step, _execute_step, call_with_kwargs. rewrite Hps.
  simpl. rewrite Hself, Hname, Hexec. simpl.
  rewrite (bool_decide_eq_false_2 _ Hst), Herr.
  unfold replan_on_failure.
  rewrite (update_step_lookup _ _ _ _ Hps).
  change (can_retry (set_status RUNNING ps)) with (can_retry ps).
  rewrite Hcr. simpl. rewrite Hnf, Htool. simpl. rewrite Hpath. simpl.
  eexists. split; [done|]. simpl.
  rewrite (alter_as_insert _ _ _ _ Hps), length_insert.
  split; [done|]. split; [done|].
  unfold is_complete. simpl.
  apply not_true_is_false. rewrite forallb_forall. intros Hall.
  assert (In (set_status RUNNING ps)
            (<[i:=set_status RUNNING ps]> (steps (st_plan st)) ++
             [new_step ("step_" +:+ pretty (length (steps (st_plan st)) + 1)%nat)
                "search"
                (<[ "pattern" := VStr (PyStr.split_last "/" path) ]>
                   {[ "file_pattern" := VStr "*" ]})
                ("Search for file: " +:+ PyStr.split_last "/" path) []])) as Hin.
  { apply in_or_app. left. apply list_elem_of_In, list_elem_of_lookup.
    exists i. apply list_lookup_insert_eq. by eapply lookup_lt_Some. }
  apply Hall in Hin. done.
Qed.

End Dispatch.

(** ** The loop returns *)

Section Returns.
Import Planner Tools Executor.
Context {World : Type}.
Implicit Types (self : AgenticExecutor World) (st : loop_state World).
Implicit Types (p : ExecutionPlan).

Local Abbreviation all_dispatchable p := (Forall dispatchable (steps p)).

Lemma registry_reports_errors (reg : ToolRegistry.t World) (name : string)
    (kwargs : gmap string PyVal) (w : World) :
  reports_errors reg →
  ToolResult.status (ToolRegistry.execute reg name kwargs w).1 ≠ SUCCESS →
  is_Some (ToolResult.error (ToolRegistry.execute reg name kwargs w).1).
Proof.
  intros Hreg. unfold ToolRegistry.execute.
  destruct (ToolRegistry.get reg name) as [t|] eqn:Hget; [|by eauto].
  destruct (Tool.validate_params t kwargs); [by eauto|].
  by apply Hreg with name.
Qed.

Lemma str_or_absent_as_str (o : option PyVal) :
  str_or_absent o → ∃ s, as_str (default (VStr "") o) = Ok s.
Proof. destruct o as [[s| | |]|]; simpl; try done; eauto. Qed.

Lemma replan_on_failure_returns p (i : nat) (fs : PlanStep) (e : string) :
  steps p !! i = Some fs →
  dispatchable fs →
  ∃ p' r, replan_on_failure p i (Some e) = Ok (p', r).
Proof.
  intros Hfs (_ & _ & Hpath & Hcmd). unfold replan_on_failure. rewrite Hfs.
  destruct (can_retry fs); [by eauto|]. simpl.
  destruct (str_or_absent_as_str _ Hpath) as [path ->].
  destruct (str_or_absent_as_str _ Hcmd) as [cmd ->]. simpl.
  repeat match goal with
         | |- context [if ?c then _ else _] => destruct c
         end; eauto.
Qed.

Lemma update_dispatchable p (i : nat) (f : PlanStep → PlanStep) :
  (∀ s : PlanStep,
     tool (f s) = tool s ∧ params (f s) = params s ∧
     retry_count (f s) = retry_count s ∧ max_retries (f s) = max_retries s) →
  all_dispatchable p → all_dispatchable (update_step i f p).
Proof.
  intros Hf Hp. unfold update_step. simpl. apply Forall_alter; [done|].
  intros s _ Hs. unfold dispatchable. destruct (Hf s) as (_ & -> & _). done.
Qed.

Lemma replan_dispatchable p p' (i : nat) (err : option string) (r : option nat) :
  all_dispatchable p → replan_on_failure p i err = Ok (p', r) →
  all_dispatchable p'.
Proof.
  intros Hp H. apply replan_on_failure_cases in H as (fs & Hfs & H).
  destruct H as [(Hcr & -> & _)|(_ & e & _ & H)].
  - unfold update_step. simpl. apply Forall_alter; [done|]. by intros s _ Hs.
  - destruct H as [(_ & _ & path & _ & -> & _)
                  |[(_ & _ & _ & cmd & _ & _ & -> & _)|(_ & -> & _)]];
      simpl; [| |done]; (apply Forall_app; split; [done|]);
      apply Forall_singleton; unfold dispatchable; simpl;
      by simplify_map_eq.
Qed.

Lemma update_length p (n i : nat) (f : PlanStep → PlanStep) :
  (n ≤ length (steps p))%nat → (n ≤ length (steps (update_step i f p)))%nat.
Proof. unfold update_step. simpl. by rewrite length_alter. Qed.

Lemma replan_length p p' (n i : nat) (err : option string) (r : option nat) :
  (n ≤ length (steps p))%nat → replan_on_failure p i err = Ok (p', r) →
  (n ≤ length (steps p'))%nat.
Proof.
  intros Hn H. apply replan_on_failure_cases in H as (fs & Hfs & H).
  destruct H as [(Hcr & -> & _)|(_ & e & _ & H)].
  - by apply update_length.
  - destruct H as [(_ & _ & path & _ & -> & _)
                  |[(_ & _ & _ & cmd & _ & _ & -> & _)|(_ & -> & _)]];
      simpl; rewrite ?length_app; simpl; lia.
Qed.

Lemma handle_ready_step_returns self st (i : nat) :
  reports_errors (registry self) →
  all_dispatchable (st_plan st) →
  i < length (steps (st_plan st)) →
  ∃ st', handle_ready_step self st i = Ok st'.
Proof.
  intros Hreg Hall Hi.
  destruct (lookup_lt_is_Some_2 _ _ Hi) as [ps Hps].
  assert (dispatchable ps) as Hd.
  { rewrite Forall_forall in Hall. apply Hall, list_elem_of_lookup. eauto. }
  unfold handle_ready_step, _execute_step, call_with_kwargs. rewrite Hps.
  destruct Hd as (Hself & Hname & Hpath & Hcmd). simpl.
  rewrite Hself, Hname. simpl.
  pose proof (registry_reports_errors (registry self) (Planner.tool ps)
                (Planner.params ps) (st_world st) Hreg) as Herr.
  destruct (ToolRegistry.execute _ _ _ _) as [res w1]. simpl in *.
  destruct (decide (ToolResult.status res = SUCCESS)) as [Hs|Hs].
  - rewrite (bool_decide_eq_true_2 _ Hs). eauto.
  - rewrite (bool_decide_eq_false_2 _ Hs).
    destruct (Herr Hs) as [e ->].
    destruct (replan_on_failure_returns
                (update_step i (set_status RUNNING) (st_plan st)) i
                (set_status RUNNING ps) e) as (p2 & r & ->).
    + by apply update_step_lookup.
    + done.
    + simpl. destruct r; eauto.
Qed.

Lemma for_ready_steps_returns self st (ready : list nat) :
  reports_errors (registry self) →
  all_dispatchable (st_plan st) →
  Forall (λ i, i < length (steps (st_plan st))) ready →
  ∃ st', for_ready_steps self st ready = Ok st'.
Proof.
  intros Hreg. revert st. induction ready as [|i ready IH]; intros st Hall Hready.
  - simpl. eauto.
  - apply Forall_cons in Hready as [Hi Hready]. simpl.
    destruct (handle_ready_step_returns self st i Hreg Hall Hi) as [st1 Hst1].
    rewrite Hst1. simpl. apply IH.
    + eapply (handle_ready_step_inv (λ p, all_dispatchable p)); [| |exact Hall|exact Hst1].
      * intros. by apply update_dispatchable.
      * intros. by eapply replan_dispatchable.
    + eapply Forall_impl; [exact Hready|]. intros j Hj. simpl in Hj.
      eapply Nat.lt_le_trans; [exact Hj|].
      eapply (handle_ready_step_inv (λ p, (length (steps (st_plan st)) ≤ length (steps p))%nat));
        [| | |exact Hst1].
      * intros. by apply update_length.
      * intros. by eapply replan_length.
      * done.
Qed.

Lemma ready_refs_valid p :
  Forall (λ i, i < length (steps p)) (get_ready_steps p).*1.
Proof.
  rewrite get_ready_steps_filter. apply Forall_forall. intros i Hi.
  apply list_elem_of_fmap in Hi as [[j s] [-> Hin]]. simpl.
  apply list_elem_of_In, filter_In in Hin as [Hin _].
  apply list_elem_of_In, elem_of_lookup_imap in Hin as (k & x & [= -> ->] & Hl).
  by eapply lookup_lt_Some.
Qed.

Lemma agentic_loop_returns self (budget : nat) (iteration : Z) st :
  reports_errors (registry self) →
  all_dispatchable (st_plan st) →
  ∃ st' it', agentic_loop self budget iteration st = Ok (st', it').
Proof.
  intros Hreg. revert iteration st.
  induction budget as [|b IH]; intros iteration st Hall; simpl; [by eauto|].
  destruct (is_complete (st_plan st)); [by eauto|].
  destruct (get_ready_steps (st_plan st)) as [|e ready] eqn:Hr; [by eauto|].
  destruct (for_ready_steps_returns self st (e :: ready).*1 Hreg Hall)
    as [st1 Hst1].
  { rewrite <- Hr. apply ready_refs_valid. }
  rewrite Hst1. simpl. apply IH.
  eapply (for_ready_steps_inv (λ p, all_dispatchable p)); [| |exact Hall|exact Hst1].
  - intros. by apply update_dispatchable.
  - intros. by eapply replan_dispatchable.
Qed.

Lemma context_get_str (context : option (gmap string PyVal)) (key dflt : string) :
  (∀ c, context = Some c → str_or_absent (c !! key)) →
  ∃ s, context_get context key (VStr dflt) = VStr s.
Proof.
  intros H. unfold context_get. destruct context as [c|]; [|by eauto].
  destruct (bool_decide (c = ∅)); [by eauto|].
  specialize (H c eq_refl). destruct (c !! key) as [[s| | |]|]; simpl; try done; eauto.
Qed.

Lemma plan_dispatchable (task : string) (context : option (gmap string PyVal)) :
  plain_context context → all_dispatchable (Planner.plan task context).
Proof.
  intros Hctx.
  destruct (context_get_str context "path" "unknown") as [p1 Hp1];
    [intros c Hc; by apply Hctx|].
  destruct (context_get_str context "path" "output.txt") as [p2 Hp2];
    [intros c Hc; by apply Hctx|].
  destruct (context_get_str context "command" "pytest") as [c1 Hc1];
    [intros c Hc; by apply Hctx|].
  destruct (context_get_str context "command" task) as [c2 Hc2];
    [intros c Hc; by apply Hctx|].
  unfold Planner.plan.
  repeat match goal with
         | |- context [if ?c then _ else _] => destruct c
         end;
    unfold _plan_file_read, _plan_file_write, _plan_search, _plan_run_tests,
      _plan_install, _plan_git, _plan_refactor, _plan_shell; simpl;
    rewrite ?Hp1, ?Hp2, ?Hc1, ?Hc2;
    repeat (apply Forall_cons; split;
            [unfold dispatchable; simpl; by simplify_map_eq|]);
    apply Forall_nil_2.
Qed.


End Returns.

(** ** The properties at concrete inputs *)

Section Instances.
Import Planner Tools Executor.

(** A lookup that keeps failing: three dispatches of [step_1], then the
    search step; [step_1] is still [RUNNING] when the loop stops for want
    of a ready step, and the result carries no error message. *)
Example lookup_failure_run :
  Examples.outline
    (execute Examples.executor "read file" Examples.lookup_context tt) =
  Some (false, None, 5%Z,
        [("step_1", "file_read", RUNNING, 2%Z, []);
         ("step_2", "search", COMPLETED, 0%Z, [])],
        [("step_1", 0%Z); ("step_1", 1%Z); ("step_1", 2%Z); ("step_2", 0%Z)]).
Proof. vm_compute. reflexivity. Qed.

(** A step for a tool nobody registered is dispatched three times. *)
Example unknown_tool_run :
  Examples.outline
    (execute_plan Examples.executor "call helper" Examples.unknown_tool_plan tt) =
  Some (false, Some "Unknown tool: unknown_tool", 3%Z,
        [("step_1", "unknown_tool", FAILED, 2%Z, [])],
        [("step_1", 0%Z); ("step_1", 1%Z); ("step_1", 2%Z)]).
Proof. vm_compute. reflexivity. Qed.

Lemma lookup_recovery_leaves_step_running_witness :
  ∃ st',
    handle_ready_step Examples.executor
      (mkState Examples.exhausted_lookup_plan tt []) 0 = Ok st' ∧
    (λ s, (tool s, status s, depends_on s)) <$> steps (st_plan st') =
      [("file_read", RUNNING, []); ("search", PENDING, [])] ∧
    is_complete (st_plan st') = false.
Proof.
  destruct (lookup_recovery_leaves_step_running Examples.executor
              (mkState Examples.exhausted_lookup_plan tt []) 0
              (set_retry_count 2
                 (new_step "step_1" "file_read"
                    {[ "path" := VStr "notes/missing.txt" ]}
                    "Read file: notes/missing.txt" []))
              (tool_result ERROR "" (Some "File not found: notes/missing.txt"))
              tt "File not found: notes/missing.txt" "notes/missing.txt")
    as (st' & Hrun & Hsteps & _ & Hinc);
    [first [vm_compute; reflexivity | vm_compute; discriminate]..|].
  exists st'. split; [exact Hrun|]. split; [|exact Hinc].
  rewrite Hsteps. vm_compute. reflexivity.
Defined.

Lemma retry_within_ceiling_witness :
  (∃ fs',
     replan_on_failure Examples.unknown_tool_plan 0
       (Some "Unknown tool: unknown_tool") =
       Ok (with_steps (<[0 := fs']> (steps Examples.unknown_tool_plan))
             Examples.unknown_tool_plan, Some 0) ∧
     retry_count fs' = 1%Z ∧ status fs' = PENDING ∧
     tool fs' = "unknown_tool" ∧ max_retries fs' = 2%Z) ∧
  (∃ r,
     execute Examples.executor "read file" Examples.lookup_context tt =
       Ok (r, tt) ∧
     Forall (λ s, (retry_count s ≤ max_retries s)%Z)
       (steps (ExecutionResult.plan r))).
Proof.
  destruct (@retry_within_ceiling unit) as (Hretry & _ & _ & Hrun). split.
  - destruct (Hretry Examples.unknown_tool_plan 0
                (new_step "step_1" "unknown_tool" ∅
                   "Call a tool that is not registered" [])
                (Some "Unknown tool: unknown_tool"))
      as (fs' & H & Hrc & Hst & _ & Htool & _ & _ & _ & _ & _ & Hmax);
      [vm_compute; reflexivity | vm_compute; reflexivity |].
    exists fs'. split; [exact H|]. split; [exact Hrc|]. split; [exact Hst|].
    split; [exact Htool | exact Hmax].
  - destruct (execute Examples.executor "read file" Examples.lookup_context tt)
      as [[r []]|e] eqn:E; [|vm_compute in E; discriminate].
    exists r. split; [reflexivity|].
    exact (Hrun Examples.executor "read file" Examples.lookup_context tt tt r E).
Defined.



Lemma escalation_only_for_shell_witness :
  ∃ p1 p2 r,
    replan_on_failure Examples.exhausted_shell_plan 0
      (Some "Permission denied: /usr/lib/python3") = Ok (p1, Some 1) ∧
    (λ s, (tool s, params s !! "command", depends_on s)) <$> steps p1 =
      [("shell", Some (VStr "pip install numpy"), []);
       ("shell", Some (VStr "sudo pip install numpy"), [])] ∧
    replan_on_failure (update_step 1 (set_retry_count 2) p1) 1
      (Some "Permission denied: /usr/lib/python3") = Ok (p2, r) ∧
    length (steps p2) = 2.
Proof.
  destruct escalation_only_for_shell as (_ & Happend & Hchain).
  pose proof (Happend Examples.exhausted_shell_plan 0
                (set_retry_count 2
                   (new_step "step_1" "shell"
                      {[ "command" := VStr "pip install numpy" ]}
                      "Install package: numpy" []))
                "Permission denied: /usr/lib/python3" "pip install numpy") as H1.
  eexists _, _, _. split.
  { apply H1; vm_compute; reflexivity. }
  split; [vm_compute; reflexivity|].
  split; [vm_compute; reflexivity|].
  vm_compute. reflexivity.
Defined.

Lemma success_iff_all_completed_witness :
  ∃ r,
    execute_plan Examples.executor "call helper" Examples.unknown_tool_plan tt =
      Ok (r, tt) ∧
    (ExecutionResult.success r = true ↔
       ∀ step, step ∈ steps (ExecutionResult.plan r) → status step = COMPLETED) ∧
    ExecutionResult.success r = false ∧
    ExecutionResult.error r = Some "Unknown tool: unknown_tool".
Proof.
  destruct (execute_plan Examples.executor "call helper"
              Examples.unknown_tool_plan tt) as [[r []]|e] eqn:E;
    [|vm_compute in E; discriminate].
  destruct (success_iff_all_completed Examples.executor "call helper"
              Examples.unknown_tool_plan tt tt r E) as [Hiff Herr].
  assert (Hs : ExecutionResult.success r = false)
    by (vm_compute in E; injection E as <-; reflexivity).
  exists r. split; [reflexivity|]. split; [exact Hiff|]. split; [exact Hs|].
  assert (Hp : steps (ExecutionResult.plan r) !! 0 =
               Some (set_error (Some "Unknown tool: unknown_tool")
                       (set_status FAILED
                          (set_retry_count 2
                             (new_step "step_1" "unknown_tool" ∅
                                "Call a tool that is not registered" [])))))
    by (vm_compute in E; injection E as <-; reflexivity).
  rewrite (Herr Hs 0 _ Hp); [reflexivity | reflexivity |].
  intros j step' Hj. lia.
Defined.

Lemma empty_plan_succeeds_witness :
  is_complete (mkPlan "nothing to do" [] ∅) = true ∧
  get_ready_steps (mkPlan "nothing to do" [] ∅) = [] ∧
  execute_plan Examples.executor "nothing to do"
    (mkPlan "nothing to do" [] ∅) tt =
    Ok (ExecutionResult.mk "nothing to do" true [] None
          (mkPlan "nothing to do" [] ∅) 0, tt).
Proof.
  apply (empty_plan_succeeds Examples.executor "nothing to do"
           (mkPlan "nothing to do" [] ∅) tt).
  reflexivity.
Defined.

Lemma blocked_code_rejected_witness :
  ∃ blocked,
    blocked ∈ Sandbox.blocked_imports (Sandbox.config Examples.short_fuse) ∧
    PyStr.contains blocked "import subprocess" = true ∧
    Sandbox.execute Examples.slow_host Examples.short_fuse "import subprocess" =
      (Ok (Sandbox.mkResult Sandbox.ERROR ""
             ("Blocked import detected: " +:+ blocked) None 0 0),
       Sandbox.mkSandbox (Sandbox.config Examples.short_fuse)
         (Sandbox._temp_dir Examples.short_fuse) Sandbox.RUNNING,
       []).
Proof.
  apply (blocked_code_rejected Examples.slow_host Examples.short_fuse
           "import subprocess" "subprocess").
  - right. left.
  - vm_compute. reflexivity.
Defined.

Lemma timeout_reported_witness :
  (Sandbox.execute Examples.slow_host Examples.short_fuse
     "import time; time.sleep(10)").1.1 =
  Ok (Sandbox.mkResult Sandbox.TIMEOUT "" "Execution timed out after 1s"
        None 1 0).
Proof.
  apply (timeout_reported Examples.slow_host Examples.short_fuse
           (Sandbox.execute Examples.slow_host Examples.short_fuse
              "import time; time.sleep(10)").1.2
           "import time; time.sleep(10)"
           (Sandbox.execute Examples.slow_host Examples.short_fuse
              "import time; time.sleep(10)").1.1
           (Sandbox.execute Examples.slow_host Examples.short_fuse
              "import time; time.sleep(10)").2
           "/tmp/sandbox_0001/_sandbox_script.py" "/tmp/sandbox_0001" 1).
  - vm_compute. reflexivity.
  - vm_compute. right. right. left.
  - reflexivity.
Defined.

Lemma examples_registry_reports_errors : reports_errors Examples.registry.
Proof.
  intros name t kwargs w Hget Hst.
  unfold Examples.registry, ToolRegistry.get, ToolRegistry.register in Hget.
  simpl in Hget.
  apply lookup_insert_Some in Hget as [[_ <-]|[_ Hget]]; [done|].
  apply lookup_insert_Some in Hget as [[_ <-]|[_ Hget]]; [simpl; eauto|].
  by rewrite lookup_empty in Hget.
Qed.


End Instances.

(** ** Plans built by [add_step] and by the planner *)

Section PlanConstruction.
Import Planner PlanShape.
Implicit Types (p : ExecutionPlan).

Lemma get_step_in_none (l : list PlanStep) (sid : string) :
  get_step_in l sid = None ↔ ∀ s, s ∈ l → id s ≠ sid.
Proof.
  induction l as [|x l IH]; simpl.
  - split; [|done]. intros _ s Hs. by apply elem_of_nil in Hs.
  - destruct (String.eqb (id x) sid) eqn:E.
    + apply String.eqb_eq in E. split; [done|].
      intros H. destruct (H x); [left|done].
    + apply String.eqb_neq in E. rewrite IH. split.
      * intros H s [->|Hs]%elem_of_cons; [done|by apply H].
      * intros H s Hs. apply H. by right.
Qed.

Lemma get_step_in_app_l (l k : list PlanStep) (sid : string) (s : PlanStep) :
  get_step_in l sid = Some s → get_step_in (l ++ k) sid = Some s.
Proof.
  induction l as [|x l IH]; simpl; [done|].
  destruct (String.eqb (id x) sid); [done|]. apply IH.
Qed.

Lemma get_step_in_app_r (l k : list PlanStep) (sid : string) :
  get_step_in l sid = None → get_step_in (l ++ k) sid = get_step_in k sid.
Proof.
  induction l as [|x l IH]; simpl; [done|].
  destruct (String.eqb (id x) sid); [done|]. apply IH.
Qed.

Lemma get_step_in_singleton (x : PlanStep) (sid : string) :
  get_step_in [x] sid = if String.eqb (id x) sid then Some x else None.
Proof. reflexivity. Qed.

(** With distinct ids, looking a step up by its id finds that step. *)
Lemma get_step_in_unique (l : list PlanStep) (i : nat) (s : PlanStep) :
  NoDup (id <$> l) → l !! i = Some s → get_step_in l (id s) = Some s.
Proof.
  revert i. induction l as [|x l IH]; intros i Hnd Hi; [done|].
  simpl in *. apply NoDup_cons in Hnd as [Hx Hnd].
  destruct i as [|i]; simpl in Hi.
  - injection Hi as ->. by rewrite String.eqb_refl.
  - destruct (String.eqb (id x) (id s)) eqn:E; [|by eapply IH].
    apply String.eqb_eq in E. destruct Hx. rewrite E.
    apply list_elem_of_fmap. exists s. split; [done|].
    apply list_elem_of_lookup. eauto.
Qed.

Lemma step_id_inj (i j : nat) :
  "step_" +:+ pretty (i + 1)%nat = "step_" +:+ pretty (j + 1)%nat → i = j.
Proof.
  intros H. apply (inj (String.app "step_")) in H.
  apply (inj pretty) in H. lia.
Qed.

Lemma numbered_NoDup p : numbered p → NoDup (id <$> steps p).
Proof.
  intros Hn. apply NoDup_alt. intros i j x Hi Hj.
  rewrite list_lookup_fmap in Hi, Hj.
  destruct (steps p !! i) as [si|] eqn:Ei; [|done].
  destruct (steps p !! j) as [sj|] eqn:Ej; [|done].
  simpl in *. injection Hi as <-. injection Hj as Hj.
  rewrite (Hn _ _ Ei), (Hn _ _ Ej) in Hj. symmetry. by apply step_id_inj.
Qed.

Lemma append_numbered p (tl : string) (pr : gmap string PyVal) (ds : string)
    (deps : list string) :
  numbered p →
  numbered (with_steps
    (steps p ++ [new_step ("step_" +:+ pretty (length (steps p) + 1)%nat)
                   tl pr ds deps]) p).
Proof.
  intros Hn i s Hi. simpl in Hi.
  destruct (decide (i < length (steps p))) as [Hlt|Hge].
  - rewrite lookup_app_l in Hi by done. by apply Hn.
  - rewrite lookup_app_r in Hi by lia.
    destruct (i - length (steps p)) as [|k] eqn:Ek; simpl in Hi; [|done].
    injection Hi as <-. simpl. do 2 f_equal. lia.
Qed.

(** X2. [add_step] on a plan whose ids are the numbered ones: the new step
    is appended with the next number as id, which no earlier step carries;
    it starts [PENDING] with the default retry fields; the plan stays
    numbered; [get_step] finds the new step by its id and answers for every
    other id as before. *)
Theorem add_step_fresh p (tool : string) (params : gmap string PyVal)
    (description : string) (deps : option (list string)) :
  numbered p →
  ∃ new : PlanStep,
    add_step p tool params description deps =
      (with_steps (steps p ++ [new]) p, (length (steps p), new)) ∧
    id new = "step_" +:+ pretty (length (steps p) + 1)%nat ∧
    Planner.tool new = tool ∧ Planner.params new = params ∧
    depends_on new = default [] deps ∧
    status new = PENDING ∧ retry_count new = 0%Z ∧ max_retries new = 2%Z ∧
    (∀ s, s ∈ steps p → id s ≠ id new) ∧
    numbered (with_steps (steps p ++ [new]) p) ∧
    get_step (with_steps (steps p ++ [new]) p) (id new) = Some new ∧
    (∀ sid, sid ≠ id new →
       get_step (with_steps (steps p ++ [new]) p) sid = get_step p sid).
Proof.
  intros Hn. eexists. split; [reflexivity|]. simpl.
  do 7 (split; [reflexivity|]).
  assert (Hfresh : ∀ s, s ∈ steps p →
            id s ≠ "step_" +:+ pretty (length (steps p) + 1)%nat).
  { intros s Hs Hid. apply list_elem_of_lookup in Hs as [i Hi].
    rewrite (Hn _ _ Hi) in Hid. apply step_id_inj in Hid.
    apply lookup_lt_Some in Hi. lia. }
  split; [exact Hfresh|]. split; [|split].
  - by apply append_numbered.
  - unfold get_step. cbn [steps with_steps].
    rewrite get_step_in_app_r by (by apply get_step_in_none).
    rewrite get_step_in_singleton. by rewrite String.eqb_refl.
  - intros sid Hsid. unfold get_step. cbn [steps with_steps].
    destruct (get_step_in (steps p) sid) as [s|] eqn:E.
    + by apply get_step_in_app_l.
    + rewrite get_step_in_app_r by done. rewrite get_step_in_singleton.
      match goal with
      | |- context [String.eqb ?a sid] => destruct (String.eqb a sid) eqn:E'
      end; [|done].
      apply String.eqb_eq in E'. unfold new_step in E'. cbn [id] in E'.
      congruence.
Qed.

Lemma plan_cases (task : string) (context : option (gmap string PyVal)) :
  ∃ l, steps (Planner.plan task context) = l ∧
       Planner.task (Planner.plan task context) = task ∧
       metadata (Planner.plan task context) = default ∅ context ∧
       ((∃ tl pr ds, l = [new_step "step_1" tl pr ds []] ∧
           tl ∈ ["file_read"; "file_write"; "search"; "shell"]) ∨
        (∃ tl pr ds pr2 ds2,
           l = [new_step "step_1" tl pr ds [];
                new_step "step_2" "shell" pr2 ds2 ["step_1"]] ∧
           tl ∈ ["search"; "shell"])).
Proof.
  eexists. split; [reflexivity|]. unfold Planner.plan.
  repeat match goal with
         | |- context [if ?c then _ else _] => destruct c
         end;
    unfold _plan_file_read, _plan_file_write, _plan_search, _plan_run_tests,
      _plan_install, _plan_git, _plan_refactor, _plan_shell; simpl;
    (split; [reflexivity|]); (split; [by destruct context|]);
    first [ left; eexists _, _, _; split; [reflexivity|];
            rewrite !elem_of_cons; tauto
          | right; eexists _, _, _, _, _; split; [reflexivity|];
            rewrite !elem_of_cons; tauto ].
Qed.


End PlanConstruction.

(** ** What the loop leaves untouched *)

Section Frame.
Import Planner Tools Executor PlanShape.
Context {World : Type}.
Implicit Types (self : AgenticExecutor World) (st : loop_state World).
Implicit Types (p q : ExecutionPlan).

(** Updates that write [status], [result] and [error] only. *)
Local Abbreviation writes_status_only f :=
  (∀ s : PlanStep, same_shape s (f s) ∧ retry_count (f s) = retry_count s).

Section Kept.
Variable I : ExecutionPlan → Prop.
Hypothesis I_status :
  ∀ p i (f : PlanStep → PlanStep), writes_status_only f → I p → I (update_step i f p).
Hypothesis I_replan :
  ∀ p p' i err r, I p → replan_on_failure p i err = Ok (p', r) → I p'.

Lemma handle_ready_step_kept self st st' (i : nat) :
  I (st_plan st) → handle_ready_step self st i = Ok st' → I (st_plan st').
Proof.
  intros HI. unfold handle_ready_step, _execute_step.
  destruct (steps (st_plan st) !! i) as [ps|]; [|done].
  unfold call_with_kwargs. destruct (forallb _ _); [|done].
  destruct (ToolRegistry.execute _ _ _ _) as [res w1]. simpl.
  set (p1 := update_step i (set_status RUNNING) (st_plan st)).
  assert (I p1) as HI1 by (by apply I_status).
  destruct (bool_decide (ToolResult.status res = SUCCESS)).
  - intros [= <-]. simpl. by apply I_status.
  - destruct (replan_on_failure p1 i (ToolResult.error res))
      as [[p2 rec]|] eqn:Hre; simpl; [|done].
    apply I_replan in Hre; [|done].
    destruct rec; intros [= <-]; simpl; [done|]. by apply I_status.
Qed.

Lemma for_ready_steps_kept self st st' (ready : list nat) :
  I (st_plan st) → for_ready_steps self st ready = Ok st' → I (st_plan st').
Proof.
  revert st. induction ready as [|i ready IH]; intros st HI; simpl.
  - by intros [= <-].
  - destruct (handle_ready_step self st i) as [st1|] eqn:Hh; simpl; [|done].
    apply IH. by eapply handle_ready_step_kept.
Qed.

Lemma agentic_loop_kept self (budget : nat) (iteration it' : Z) st st' :
  I (st_plan st) →
  agentic_loop self budget iteration st = Ok (st', it') → I (st_plan st').
Proof.
  revert iteration st. induction budget as [|b IH]; intros iteration st HI; simpl.
  - by intros [= <- _].
  - destruct (is_complete (st_plan st)); [by intros [= <- _]|].
    destruct (get_ready_steps (st_plan st)) as [|e ready] eqn:Hr.
    + by intros [= <- _].
    + destruct (for_ready_steps self st _) as [st1|] eqn:Hf; simpl; [|done].
      apply IH. by eapply for_ready_steps_kept.
Qed.

Lemma execute_plan_kept self (task : string) p (w w' : World)
    (r : ExecutionResult.t) :
  I p → execute_plan self task p w = Ok (r, w') → I (ExecutionResult.plan r).
Proof.
  intros HI. unfold execute_plan.
  destruct (agentic_loop self _ _ _) as [[st it]|] eqn:Hl; simpl; [|done].
  intros [= <- _]. simpl. by eapply agentic_loop_kept in Hl.
Qed.

End Kept.

Lemma same_shape_refl (s : PlanStep) : same_shape s s.
Proof. by repeat split. Qed.

Lemma same_shape_trans (s1 s2 s3 : PlanStep) :
  same_shape s1 s2 → same_shape s2 s3 → same_shape s1 s3.
Proof.
  intros (?&?&?&?&?&?) (?&?&?&?&?&?). repeat split; congruence.
Qed.

Lemma extends_refl p : extends p p.
Proof.
  do 2 (split; [done|]). intros i s Hs. exists s.
  split; [done|]. split; [apply same_shape_refl|lia].
Qed.

Lemma extends_trans p q r : extends p q → extends q r → extends p r.
Proof.
  intros (Ht & Hm & H) (Ht' & Hm' & H'). split; [congruence|].
  split; [congruence|]. intros i s Hs.
  destruct (H i s Hs) as (s1 & Hs1 & Hsh1 & Hle1).
  destruct (H' i s1 Hs1) as (s2 & Hs2 & Hsh2 & Hle2).
  exists s2. split; [done|]. split; [by eapply same_shape_trans|lia].
Qed.

Lemma update_step_extends p (i : nat) (f : PlanStep → PlanStep) :
  (∀ s : PlanStep, same_shape s (f s) ∧ (retry_count s ≤ retry_count (f s))%Z) →
  extends p (update_step i f p).
Proof.
  intros Hf. do 2 (split; [done|]). intros j s Hs. unfold update_step. simpl.
  rewrite list_lookup_alter. destruct (decide (i = j)) as [->|Hne].
  - rewrite Hs. simpl. exists (f s). split; [done|]. apply Hf.
  - exists s. split; [done|]. split; [apply same_shape_refl|lia].
Qed.

Lemma append_extends p (new : PlanStep) :
  extends p (with_steps (steps p ++ [new]) p).
Proof.
  do 2 (split; [done|]). intros j s Hs. exists s. simpl.
  rewrite lookup_app_l by (by eapply lookup_lt_Some).
  split; [done|]. split; [apply same_shape_refl|lia].
Qed.

Lemma replan_extends p p' (i : nat) (err : option string) (r : option nat) :
  replan_on_failure p i err = Ok (p', r) → extends p p'.
Proof.
  intros H. apply replan_on_failure_cases in H as (fs & Hfs & H).
  destruct H as [(Hcr & -> & _)|(_ & e & _ & H)].
  - apply update_step_extends. intros s. split; [by repeat split|]. simpl. lia.
  - destruct H as [(_ & _ & path & _ & -> & _)
                  |[(_ & _ & _ & cmd & _ & _ & -> & _)|(_ & -> & _)]];
      [apply append_extends|apply append_extends|apply extends_refl].
Qed.

(** The steps from position [n] on are steps the recovery controller
    appends: [search] or [shell] steps without dependencies, with the
    default retry ceiling. *)
Local Abbreviation recoveries_from n q :=
  (∀ (i : nat) (s : PlanStep),
     (n ≤ i)%nat → steps q !! i = Some s →
     (tool s = "search" ∨ tool s = "shell") ∧ depends_on s = [] ∧
     max_retries s = 2%Z).

Lemma update_recoveries (n : nat) p (i : nat) (f : PlanStep → PlanStep) :
  (∀ s : PlanStep, same_shape s (f s)) → recoveries_from n p →
  recoveries_from n (update_step i f p).
Proof.
  intros Hf Hp j s Hj. unfold update_step. simpl.
  rewrite list_lookup_alter. destruct (decide (i = j)) as [->|Hne].
  - destruct (steps p !! j) as [s0|] eqn:E; [|done]. simpl. intros [= <-].
    destruct (Hf s0) as (_ & -> & _ & _ & -> & ->). by eapply Hp.
  - by apply Hp.
Qed.

Lemma replan_recoveries (n : nat) p p' (i : nat) (err : option string)
    (r : option nat) :
  (n ≤ length (steps p))%nat → recoveries_from n p →
  replan_on_failure p i err = Ok (p', r) → recoveries_from n p'.
Proof.
  intros Hn Hp H. apply replan_on_failure_cases in H as (fs & Hfs & H).
  destruct H as [(Hcr & -> & _)|(_ & e & _ & H)].
  - apply update_recoveries; [|done]. intros s. by repeat split.
  - assert (Happ : ∀ new : PlanStep,
       ((tool new = "search" ∨ tool new = "shell") ∧ depends_on new = [] ∧
        max_retries new = 2%Z) →
       recoveries_from n (with_steps (steps p ++ [new]) p)).
    { intros new Hnew j s Hj. simpl.
      destruct (decide (j < length (steps p))) as [Hlt|Hge].
      - rewrite lookup_app_l by done. by apply Hp.
      - rewrite lookup_app_r by lia.
        destruct (j - length (steps p)) as [|k]; simpl; [|done].
        by intros [= <-]. }
    destruct H as [(_ & _ & path & _ & -> & _)
                  |[(_ & _ & _ & cmd & _ & _ & -> & _)|(_ & -> & _)]];
      [apply Happ; simpl; auto|apply Happ; simpl; auto|done].
Qed.

Lemma update_numbered p (i : nat) (f : PlanStep → PlanStep) :
  (∀ s : PlanStep, same_shape s (f s)) → numbered p →
  numbered (update_step i f p).
Proof.
  intros Hf Hp j s. unfold update_step. simpl.
  rewrite list_lookup_alter. destruct (decide (i = j)) as [->|Hne].
  - destruct (steps p !! j) as [s0|] eqn:E; [|done]. simpl. intros [= <-].
    destruct (Hf s0) as (-> & _). by apply Hp.
  - by apply Hp.
Qed.

Lemma replan_numbered p p' (i : nat) (err : option string) (r : option nat) :
  numbered p → replan_on_failure p i err = Ok (p', r) → numbered p'.
Proof.
  intros Hp H. apply replan_on_failure_cases in H as (fs & Hfs & H).
  destruct H as [(Hcr & -> & _)|(_ & e & _ & H)].
  - apply update_numbered; [|done]. intros s. by repeat split.
  - destruct H as [(_ & _ & path & _ & -> & _)
                  |[(_ & _ & _ & cmd & _ & _ & -> & _)|(_ & -> & _)]];
      [by apply append_numbered|by apply append_numbered|done].
Qed.

Lemma extends_length p q : extends p q → (length (steps p) ≤ length (steps q))%nat.
Proof.
  intros (_ & _ & H). destruct (steps p) as [|x l] eqn:E using rev_ind.
  - simpl. lia.
  - clear IHl. rewrite length_app. simpl.
    destruct (H (length l) x) as (s' & Hs' & _).
    { by rewrite lookup_app_r, Nat.sub_diag. }
    apply lookup_lt_Some in Hs'. lia.
Qed.

(** X4. The recovery controller and the loop only ever append.
    [replan_on_failure] leaves every step but the failed one as it is and
    appends at most one step. The plan left by the loop has the task and
    metadata of the initial plan; each initial step is still at its position
    with its id, tool, parameters, description, dependencies and retry
    ceiling, its retry counter not lowered; every step after them is a
    [search] or [shell] step without dependencies; and numbered ids stay
    numbered. *)
Theorem loop_only_appends :
  (∀ p p' (i : nat) (err : option string) (r : option nat),
     replan_on_failure p i err = Ok (p', r) →
     extends p p' ∧
     (length (steps p') = length (steps p) ∨
      length (steps p') = S (length (steps p))) ∧
     (∀ (j : nat) (s : PlanStep),
        j ≠ i → steps p !! j = Some s → steps p' !! j = Some s)) ∧
  (∀ self (task : string) p (w w' : World) (r : ExecutionResult.t),
     execute_plan self task p w = Ok (r, w') →
     extends p (ExecutionResult.plan r) ∧
     recoveries_from (length (steps p)) (ExecutionResult.plan r) ∧
     (numbered p → numbered (ExecutionResult.plan r))).
Proof.
  split.
  - intros p p' i err r H. split; [by eapply replan_extends|].
    apply replan_on_failure_cases in H as (fs & Hfs & H).
    destruct H as [(Hcr & -> & _)|(_ & e & _ & H)].
    + split.
      * left. unfold update_step. simpl. by rewrite length_alter.
      * intros j s Hne Hs. unfold update_step. simpl.
        by rewrite list_lookup_alter_ne.
    + destruct H as [(_ & _ & path & _ & -> & _)
                    |[(_ & _ & _ & cmd & _ & _ & -> & _)|(_ & -> & _)]];
        simpl; rewrite ?length_app; simpl;
        (split; [first [left; lia | right; lia | by left]|]);
        intros j s _ Hs; try done;
        by rewrite lookup_app_l by (by eapply lookup_lt_Some).
  - intros self task p w w' r H.
    assert (Hinv : extends p (ExecutionResult.plan r) ∧
                   recoveries_from (length (steps p)) (ExecutionResult.plan r)).
    { eapply (execute_plan_kept
                (λ q, extends p q ∧ recoveries_from (length (steps p)) q));
        [| | |exact H].
      - intros q i f Hf [He Hr]. split.
        + eapply extends_trans; [exact He|]. apply update_step_extends.
          intros s. destruct (Hf s) as [Hsh ->]. split; [done|lia].
        + apply update_recoveries; [|done]. intros s. apply Hf.
      - intros q q' i err rr [He Hr] Hre. split.
        + eapply extends_trans; [exact He|]. by eapply replan_extends.
        + eapply replan_recoveries; [|exact Hr|exact Hre].
          by apply extends_length.
      - split; [apply extends_refl|]. intros i s Hi Hs.
        apply lookup_lt_Some in Hs. lia. }
    destruct Hinv as [He Hr]. split; [done|]. split; [done|].
    intros Hn. eapply (execute_plan_kept numbered); [| |exact Hn|exact H].
    + intros q i f Hf Hq. apply update_numbered; [|done]. intros s. apply Hf.
    + intros q q' i err rr Hq Hre. by eapply replan_numbered.
Qed.

End Frame.

(** ** When the loop stops *)

Section Stops.
Import Planner Tools Executor PlanShape.
Context {World : Type}.
Implicit Types (self : AgenticExecutor World) (st : loop_state World).
Implicit Types (p q : ExecutionPlan).

Lemma agentic_loop_iterations self (budget : nat) (iteration it' : Z) st st' :
  agentic_loop self budget iteration st = Ok (st', it') →
  (iteration ≤ it' ≤ iteration + Z.of_nat budget)%Z.
Proof.
  revert iteration st. induction budget as [|b IH]; intros iteration st; simpl.
  - intros [= _ <-]. lia.
  - destruct (is_complete (st_plan st)); [intros [= _ <-]; lia|].
    destruct (get_ready_steps (st_plan st)) as [|e ready].
    + intros [= _ <-]. lia.
    + destruct (for_ready_steps self st _) as [st1|]; simpl; [|done].
      intros H. apply IH in H. lia.
Qed.

Lemma all_completed_is_complete p :
  forallb (λ step, bool_decide (status step = COMPLETED)) (steps p) = true →
  is_complete p = true.
Proof.
  unfold is_complete. rewrite !forallb_forall. intros H s Hs.
  apply H, bool_decide_eq_true in Hs. by rewrite Hs.
Qed.

(** X5. The three ways the loop ends early or on time. With a step budget of
    zero or less nothing is dispatched and the plan is returned as it came.
    When the plan is not complete and no step is ready (a stall: a
    dependency that is missing, failed or never finished), the loop stops in
    its first pass: nothing is dispatched, the plan and the world are
    unchanged, [success] is false and the error is that of the first failed
    step, if any. In every run the number of passes lies between zero and
    the step budget. *)
Theorem loop_stops :
  (∀ self (task : string) p (w : World),
     (max_steps self ≤ 0)%Z →
     ∃ r, execute_plan self task p w = Ok (r, w) ∧
          ExecutionResult.plan r = p ∧ ExecutionResult.steps r = [] ∧
          ExecutionResult.iterations r = 0%Z) ∧
  (∀ self (task : string) p (w : World),
     (0 < max_steps self)%Z →
     is_complete p = false →
     get_ready_steps p = [] →
     execute_plan self task p w =
       Ok (ExecutionResult.mk task false [] (first_failed_error (steps p)) p 1,
           w)) ∧
  (∀ self (task : string) p (w w' : World) (r : ExecutionResult.t),
     execute_plan self task p w = Ok (r, w') →
     (0 ≤ ExecutionResult.iterations r ≤ Z.max 0 (max_steps self))%Z).
Proof.
  split; [|split].
  - intros self task p w Hmax. unfold execute_plan.
    replace (Z.to_nat (max_steps self)) with 0%nat by lia. simpl.
    eexists. split; [reflexivity|]. done.
  - intros self task p w Hmax Hinc Hready. unfold execute_plan.
    destruct (Z.to_nat (max_steps self)) as [|b] eqn:Eb; [lia|].
    simpl. rewrite Hinc, Hready. simpl.
    destruct (forallb _ (steps p)) eqn:Hall; [|done].
    apply all_completed_is_complete in Hall. congruence.
  - intros self task p w w' r. unfold execute_plan.
    destruct (agentic_loop self _ _ _) as [[st it]|] eqn:Hl; simpl; [|done].
    intros [= <- _]. simpl. apply agentic_loop_iterations in Hl. lia.
Qed.

End Stops.

(** ** Progress when every dispatch succeeds *)

Section Progress.
Import Planner Tools Executor PlanShape.
Context {World : Type}.
Implicit Types (self : AgenticExecutor World) (st : loop_state World).
Implicit Types (p q : ExecutionPlan) (l : list PlanStep).

(** A step the registry answers with success, whatever the world. *)
Local Abbreviation succeeds self s :=
  (Planner.params s !! "self" = None ∧ Planner.params s !! "tool_name" = None ∧
   ∀ w : World,
     ToolResult.status
       (ToolRegistry.execute (registry self) (Planner.tool s) (Planner.params s) w).1
     = SUCCESS).

Local Abbreviation completed_with out s :=
  (set_result (Some out) (set_status COMPLETED s)).

Lemma handle_ready_step_success self st (i : nat) (s : PlanStep) :
  steps (st_plan st) !! i = Some s →
  succeeds self s →
  ∃ st' out e,
    handle_ready_step self st i = Ok st' ∧
    steps (st_plan st') = <[i := completed_with out s]> (steps (st_plan st)) ∧
    st_executed st' = st_executed st ++ [e] ∧
    ExecutionStep.step_id e = id s.
Proof.
  intros Hs (Hself & Hname & Hok).
  unfold handle_ready_step, _execute_step, call_with_kwargs. rewrite Hs.
  simpl. rewrite Hself, Hname. simpl.
  specialize (Hok (st_world st)).
  destruct (ToolRegistry.execute _ _ _ _) as [res w1]. simpl in *.
  rewrite (bool_decide_eq_true_2 _ Hok).
  eexists _, (ToolResult.output res), _. split; [reflexivity|]. simpl.
  split; [|done].
  rewrite (alter_as_insert _ _ _ _ Hs).
  erewrite alter_as_insert
    by (apply list_lookup_insert_eq; by eapply lookup_lt_Some).
  by rewrite list_insert_insert_eq.
Qed.

(** The effect of one pass over the ready steps [ready] on the list of
    steps: the ready ones are completed, the others are as before. *)
Lemma for_ready_steps_success self st (ready : list nat) :
  NoDup ready →
  (∀ i, i ∈ ready → ∃ s, steps (st_plan st) !! i = Some s ∧ succeeds self s) →
  ∃ st',
    for_ready_steps self st ready = Ok st' ∧
    pass_effect ready (steps (st_plan st)) (steps (st_plan st')) ∧
    ExecutionStep.step_id <$> st_executed st' =
      (ExecutionStep.step_id <$> st_executed st) ++
      ((λ i, from_option id "" (steps (st_plan st) !! i)) <$> ready).
Proof.
  revert st. induction ready as [|i ready IH]; intros st Hnd Hall.
  - exists st. split; [done|]. split.
    + split; [done|]. intros j. split; [by intros ?%elem_of_nil|done].
    + simpl. by rewrite app_nil_r.
  - apply NoDup_cons in Hnd as [Hi Hnd].
    destruct (Hall i) as (s & Hs & Hsucc); [left|].
    destruct (handle_ready_step_success self st i s Hs Hsucc)
      as (st1 & out & e & Hh & Hsteps & Hexec & Hid).
    assert (Hother : ∀ j, j ≠ i →
              steps (st_plan st1) !! j = steps (st_plan st) !! j).
    { intros j Hj. rewrite Hsteps. by apply list_lookup_insert_ne. }
    destruct (IH st1 Hnd) as (st' & Hf & (Hlen & Heff) & Hids).
    { intros j Hj. destruct (Hall j) as (sj & Hsj & Hsuccj); [by right|].
      exists sj. split; [|done]. rewrite Hother; [done|].
      intros ->. done. }
    exists st'. simpl. rewrite Hh. simpl. split; [exact Hf|]. split.
    + split; [rewrite Hlen, Hsteps; apply length_insert|].
      intros j. split.
      * intros [->|Hj]%elem_of_cons.
        -- exists s, out. split; [done|].
           rewrite (proj2 (Heff i) Hi), Hsteps.
           apply list_lookup_insert_eq. by eapply lookup_lt_Some.
        -- destruct (proj1 (Heff j) Hj) as (sj & oj & Hsj & Hsj').
           exists sj, oj. split; [|done]. rewrite <- Hother; [done|].
           intros ->. done.
      * intros Hj. apply not_elem_of_cons in Hj as [Hne Hj].
        rewrite (proj2 (Heff j) Hj). by apply Hother.
    + rewrite Hids, Hexec, fmap_app, <- app_assoc. simpl. rewrite Hid, Hs.
      simpl. f_equal. f_equal. apply list_fmap_ext. intros k j Hk.
      rewrite Hother; [done|]. intros ->.
      apply Hi, list_elem_of_lookup. eauto.
Qed.

Lemma ready_refs_NoDup p : NoDup (get_ready_steps p).*1.
Proof.
  pose proof (get_ready_steps_filter p) as Hf.
  eapply sublist_NoDup; [|apply fmap_sublist; rewrite Hf; apply filter_sublist].
  rewrite fmap_imap.
  rewrite (imap_ext _ (λ i _, i)) by done.
  rewrite (imap_seq_0 (steps p) (λ i, i)), list_fmap_id. apply NoDup_seq.
Qed.

Lemma ready_entry_lookup p (i : nat) (s : PlanStep) :
  (i, s) ∈ get_ready_steps p → steps p !! i = Some s ∧ status s = PENDING.
Proof.
  rewrite get_ready_steps_filter, list_elem_of_In, filter_In, <- list_elem_of_In.
  rewrite elem_of_lookup_imap. simpl.
  intros [(j & x & [= -> ->] & Hl) [Hp _]%andb_true_iff].
  split; [done|]. by apply bool_decide_eq_true in Hp.
Qed.

(** The first pending step of a plan whose earlier steps are all completed
    and whose dependencies point backwards is ready. *)
Lemma first_pending_ready p (m : nat) (sm : PlanStep) :
  NoDup (id <$> steps p) →
  backward_deps p →
  steps p !! m = Some sm →
  status sm = PENDING →
  (∀ (j : nat) s, j < m → steps p !! j = Some s → status s = COMPLETED) →
  (m, sm) ∈ get_ready_steps p.
Proof.
  intros Hnd Hdeps Hm Hpend Hbefore.
  rewrite get_ready_steps_filter, list_elem_of_In, filter_In, <- list_elem_of_In.
  rewrite elem_of_lookup_imap. simpl. split; [by exists m, sm|].
  rewrite andb_true_iff, bool_decide_eq_true. split; [done|].
  apply deps_met_true. intros d Hd.
  destruct (Hdeps m sm d Hm Hd) as (j & sj & Hj & Hsj & <-).
  exists sj. split; [by eapply get_step_in_unique|]. by eapply Hbefore.
Qed.

Lemma progress_of_ids p q : progress_of p q → id <$> steps q = id <$> steps p.
Proof.
  intros H. symmetry. apply list_eq_Forall2, Forall2_fmap.
  eapply Forall2_impl; [exact H|]. by intros s s' [(-> & _) _].
Qed.

Lemma progress_of_lookup p q (i : nat) (s' : PlanStep) :
  progress_of p q → steps q !! i = Some s' →
  ∃ s, steps p !! i = Some s ∧ same_shape s s' ∧
       (status s' = PENDING ∨ status s' = COMPLETED).
Proof.
  intros H Hs'. destruct (Forall2_lookup_r _ _ _ _ _ H Hs') as (s & Hs & HP).
  eauto.
Qed.

Lemma progress_of_backward p q :
  progress_of p q → backward_deps p → backward_deps q.
Proof.
  intros H Hb i s' d Hs' Hd.
  destruct (progress_of_lookup _ _ _ _ H Hs') as (s & Hs & Hsh & _).
  destruct Hsh as (_ & _ & _ & _ & Hdep & _). rewrite Hdep in Hd.
  destruct (Hb i s d Hs Hd) as (j & sj & Hj & Hsj & Hid).
  destruct (Forall2_lookup_l _ _ _ _ _ H Hsj) as (sj' & Hsj' & (Hidj & _) & _).
  exists j, sj'. split; [done|]. split; [done|]. congruence.
Qed.

Lemma progress_of_pass p q (ready : list nat) (l' : list PlanStep) :
  progress_of p q → pass_effect ready (steps q) l' →
  progress_of p (with_steps l' q).
Proof.
  intros H [Hlen Heff]. unfold progress_of. simpl.
  apply Forall2_same_length_lookup. split.
  { rewrite Hlen. by eapply Forall2_length. }
  intros i x y Hx Hy.
  destruct (Forall2_lookup_l _ _ _ _ _ H Hx) as (s & Hs & Hsh & Hpc).
  destruct (decide (i ∈ ready)) as [Hin|Hnin].
  - destruct (proj1 (Heff i) Hin) as (s0 & out & Hs0 & Hy').
    assert (s0 = s) as -> by congruence.
    assert (y = set_result (Some out) (set_status COMPLETED s)) as ->
      by congruence.
    split; [exact Hsh|by right].
  - rewrite (proj2 (Heff i) Hnin) in Hy.
    assert (y = s) as -> by congruence. done.
Qed.

Lemma all_completed_complete l :
  (∀ s, s ∈ l → status s = COMPLETED) →
  forallb (λ step, bool_decide (status step = COMPLETED)) l = true.
Proof.
  intros H. apply forallb_forall. intros s Hs.
  apply bool_decide_eq_true, H. by apply list_elem_of_In.
Qed.

Lemma ids_of_seq l :
  (λ j, from_option id "" (l !! j)) <$> seq 0 (length l) = id <$> l.
Proof.
  apply list_eq. intros i. rewrite !list_lookup_fmap.
  destruct (l !! i) as [s|] eqn:E; simpl.
  - rewrite lookup_seq_lt by (by eapply lookup_lt_Some). simpl. by rewrite E.
  - rewrite lookup_seq_ge; [done|]. by apply lookup_ge_None.
Qed.

Section FromPlan.
Variable self : AgenticExecutor World.
Variable p : ExecutionPlan.
Hypothesis p_succeeds : ∀ s, s ∈ steps p → succeeds self s.
Hypothesis p_ids : NoDup (id <$> steps p).
Hypothesis p_deps : backward_deps p.

Local Abbreviation idp := (λ j : nat, from_option id "" (steps p !! j)).

Lemma agentic_loop_progress (budget k : nat) (iteration : Z)
    (st : loop_state World) (served : list nat) :
  progress_of p (st_plan st) →
  (∀ (j : nat) s, j < k → steps (st_plan st) !! j = Some s →
                  status s = COMPLETED) →
  (length (steps p) ≤ k + budget)%nat →
  NoDup served →
  (∀ j, j ∈ served ↔
        ∃ s, steps (st_plan st) !! j = Some s ∧ status s = COMPLETED) →
  ExecutionStep.step_id <$> st_executed st = idp <$> served →
  ∃ st' it' served',
    agentic_loop self budget iteration st = Ok (st', it') ∧
    progress_of p (st_plan st') ∧
    (∀ s, s ∈ steps (st_plan st') → status s = COMPLETED) ∧
    NoDup served' ∧
    (∀ j, j ∈ served' ↔ j < length (steps p)) ∧
    ExecutionStep.step_id <$> st_executed st' = idp <$> served'.
Proof.
  revert k iteration st served.
  assert (Hfinish : ∀ st (served : list nat),
    progress_of p (st_plan st) →
    (∀ s, s ∈ steps (st_plan st) → status s = COMPLETED) →
    (∀ j, j ∈ served ↔
          ∃ s, steps (st_plan st) !! j = Some s ∧ status s = COMPLETED) →
    ∀ j, j ∈ served ↔ j < length (steps p)).
  { intros st served Hprog Hall Hdone j. rewrite Hdone.
    rewrite (Forall2_length _ _ _ Hprog). split.
    - intros (s & Hs & _). by eapply lookup_lt_Some.
    - intros Hj. destruct (lookup_lt_is_Some_2 _ _ Hj) as [s Hs].
      exists s. split; [done|]. apply Hall, list_elem_of_lookup. eauto. }
  induction budget as [|b IH]; intros k iteration st served Hprog Hpre Hlen
    Hnd Hdone Hexec.
  - simpl. exists st, iteration, served. split; [done|]. split; [done|].
    assert (Hall : ∀ s, s ∈ steps (st_plan st) → status s = COMPLETED).
    { intros s [j Hj]%list_elem_of_lookup. apply (Hpre j); [|done].
      apply lookup_lt_Some in Hj.
      rewrite <- (Forall2_length _ _ _ Hprog) in Hj. lia. }
    split; [done|]. split; [done|]. split; [by eapply Hfinish|done].
  - simpl. destruct (is_complete (st_plan st)) eqn:Hc.
    { exists st, iteration, served. split; [done|]. split; [done|].
      assert (Hall : ∀ s, s ∈ steps (st_plan st) → status s = COMPLETED).
      { intros s Hs. pose proof Hs as [j Hj]%list_elem_of_lookup.
        destruct (progress_of_lookup _ _ _ _ Hprog Hj) as (_ & _ & _ & [Hp|Hp]);
          [|done].
        unfold is_complete in Hc. rewrite forallb_forall in Hc.
        apply list_elem_of_In, Hc in Hs. by rewrite Hp in Hs. }
      split; [done|]. split; [done|]. split; [by eapply Hfinish|done]. }
    set (q := st_plan st) in *.
    assert (Hq_ids : NoDup (id <$> steps q))
      by (by rewrite (progress_of_ids _ _ Hprog)).
    assert (Hq_deps : backward_deps q) by (by eapply progress_of_backward).
    assert (Hready : ∀ (m : nat) sm,
              steps q !! m = Some sm → status sm = PENDING →
              (∀ (j : nat) s, j < m → steps q !! j = Some s →
                              status s = COMPLETED) →
              m ∈ (get_ready_steps q).*1).
    { intros m sm Hm Hpend Hbefore. apply list_elem_of_fmap.
      exists (m, sm). split; [done|]. by apply first_pending_ready. }
    assert (Hnonempty : ∃ m, m ∈ (get_ready_steps q).*1).
    { destruct (list_find (λ s, status s = PENDING) (steps q))
        as [[m sm]|] eqn:Hfind.
      - apply list_find_Some in Hfind as (Hm & Hpend & Hmin).
        exists m. apply (Hready m sm Hm Hpend). intros j s Hj Hs.
        destruct (progress_of_lookup _ _ _ _ Hprog Hs) as (_ & _ & _ & [Hp|Hp]);
          [|done].
        by destruct (Hmin j s Hs Hj).
      - apply list_find_None in Hfind. exfalso.
        assert (is_complete q = true); [|congruence].
        unfold is_complete. apply forallb_forall. intros s Hs.
        apply list_elem_of_In in Hs. pose proof Hs as [j Hj]%list_elem_of_lookup.
        rewrite Forall_forall in Hfind. specialize (Hfind s Hs).
        destruct (progress_of_lookup _ _ _ _ Hprog Hj) as (_ & _ & _ & [Hp|Hp]);
          [done|]. by rewrite Hp. }
    destruct (get_ready_steps q) as [|e ready] eqn:Hr.
    { destruct Hnonempty as [m Hm]. by apply elem_of_nil in Hm. }
    set (refs := (e :: ready).*1) in *.
    assert (Hrefs : ∀ i, i ∈ refs →
              ∃ s, steps q !! i = Some s ∧ status s = PENDING).
    { intros i Hi. apply list_elem_of_fmap in Hi as ([i' s] & -> & Hin).
      rewrite <- Hr in Hin. apply ready_entry_lookup in Hin. eauto. }
    destruct (for_ready_steps_success self st refs)
      as (st1 & Hf & Heff & Hids).
    { subst refs. rewrite <- Hr. apply ready_refs_NoDup. }
    { intros i Hi. destruct (Hrefs i Hi) as (s & Hs & _).
      exists s. split; [done|].
      destruct (progress_of_lookup _ _ _ _ Hprog Hs)
        as (s0 & Hs0 & (_ & Ht & Hpr & _) & _).
      rewrite Ht, Hpr. apply p_succeeds, list_elem_of_lookup. eauto. }
    fold q in Heff, Hids. rewrite Hf. simpl.
    assert (Hprog1 : progress_of p (st_plan st1)).
    { pose proof (progress_of_pass p q refs _ Hprog Heff) as H.
      unfold progress_of in *. exact H. }
    destruct Heff as [Hlen1 Heff].
    destruct (IH (S k) (iteration + 1)%Z st1 (served ++ refs))
      as (st' & it' & served' & Hloop & Hres).
    + exact Hprog1.
    + intros j s1 Hj Hs1. destruct (decide (j ∈ refs)) as [Hin|Hnin].
      * destruct (proj1 (Heff j) Hin) as (s & out & _ & Hs1').
        rewrite Hs1 in Hs1'. by injection Hs1' as ->.
      * rewrite (proj2 (Heff j) Hnin) in Hs1.
        destruct (decide (j < k)) as [Hlt|Hge]; [by eapply Hpre|].
        assert (j = k) as -> by lia.
        destruct (progress_of_lookup _ _ _ _ Hprog Hs1) as (_ & _ & _ & [Hp|Hp]);
          [|done].
        destruct Hnin. subst refs. by eapply Hready.
    + lia.
    + apply NoDup_app. split; [done|]. split.
      * intros j Hj Hj'. apply Hdone in Hj as (s & Hs & Hcs).
        destruct (Hrefs j Hj') as (s' & Hs' & Hps). congruence.
      * subst refs. rewrite <- Hr. apply ready_refs_NoDup.
    + intros j. rewrite elem_of_app, Hdone. split.
      * intros [(s & Hs & Hcs)|Hin].
        -- destruct (decide (j ∈ refs)) as [Hin|Hnin].
           ++ destruct (proj1 (Heff j) Hin) as (s0 & out & _ & ->). eauto.
           ++ rewrite (proj2 (Heff j) Hnin). eauto.
        -- destruct (proj1 (Heff j) Hin) as (s0 & out & _ & ->). eauto.
      * intros (s1 & Hs1 & Hcs1). destruct (decide (j ∈ refs)) as [Hin|Hnin];
          [by right|left].
        rewrite (proj2 (Heff j) Hnin) in Hs1. eauto.
    + rewrite Hids, Hexec, fmap_app. f_equal.
      apply list_fmap_ext. intros n j Hn.
      assert (j ∈ refs) as Hj by (apply list_elem_of_lookup; eauto).
      destruct (Hrefs j Hj) as (s & Hs & _). rewrite Hs.
      destruct (progress_of_lookup _ _ _ _ Hprog Hs)
        as (s0 & Hs0 & (Hid & _) & _).
      rewrite Hs0. done.
    + exists st', it', served'. split; [exact Hloop|exact Hres].
Qed.

End FromPlan.

(** X6. A plan of pending steps with distinct ids and dependencies that
    point backwards runs to success when every dispatch of its steps
    succeeds and the step budget is at least the number of steps: [execute]
    returns [success] with no error, every step is [COMPLETED] and otherwise
    as it was, no step has been added, and every step has been dispatched
    exactly once. *)
Theorem all_succeed_all_complete self (task : string) p (w : World) :
  (∀ s, s ∈ steps p → succeeds self s) →
  (∀ s, s ∈ steps p → status s = PENDING) →
  NoDup (id <$> steps p) →
  backward_deps p →
  (Z.of_nat (length (steps p)) ≤ max_steps self)%Z →
  ∃ r w',
    execute_plan self task p w = Ok (r, w') ∧
    ExecutionResult.success r = true ∧
    ExecutionResult.error r = None ∧
    Forall2 (λ s s', same_shape s s' ∧ status s' = COMPLETED)
      (steps p) (steps (ExecutionResult.plan r)) ∧
    ExecutionStep.step_id <$> ExecutionResult.steps r ≡ₚ id <$> steps p.
Proof.
  intros Hsucc Hpend Hnd Hdeps Hbudget. unfold execute_plan.
  destruct (agentic_loop_progress self p Hsucc Hnd Hdeps
              (Z.to_nat (max_steps self)) 0 0%Z (mkState p w []) [])
    as (st' & it' & served' & -> & Hprog & Hall & Hnd' & Hdone' & Hexec).
  - unfold progress_of. simpl. apply Forall2_same_length_lookup.
    split; [done|]. intros i x y Hx Hy. assert (y = x) as -> by congruence.
    split; [apply same_shape_refl|]. left. apply Hpend, list_elem_of_lookup.
    eauto.
  - intros j s Hj. lia.
  - lia.
  - constructor.
  - intros j. simpl. split; [by intros ?%elem_of_nil|].
    intros (s & Hs & Hcs). rewrite Hpend in Hcs; [done|].
    apply list_elem_of_lookup. eauto.
  - done.
  - simpl. rewrite (all_completed_complete _ Hall). simpl.
    eexists _, _. split; [reflexivity|]. simpl.
    split; [done|]. split; [done|]. split.
    + apply Forall2_same_length_lookup.
      split; [by eapply Forall2_length|]. intros i x y Hx Hy.
      destruct (progress_of_lookup _ _ _ _ Hprog Hy) as (s & Hs & Hsh & _).
      assert (s = x) as -> by congruence. split; [done|].
      apply Hall, list_elem_of_lookup. eauto.
    + rewrite Hexec. rewrite <- (ids_of_seq (steps p)).
      apply fmap_Permutation, NoDup_Permutation; [done|apply NoDup_seq|].
      intros j. rewrite Hdone', elem_of_seq. lia.
Qed.

End Progress.

(** ** Parameter validation *)

Section Validation.
Import Tools.
Context {World : Type}.

Lemma first_missing_none (ps : list ToolParameter.t) (kwargs : gmap string PyVal) :
  Tool.first_missing ps kwargs = None ↔
  ∀ param, param ∈ ps → ToolParameter.required param = true →
           is_Some (kwargs !! ToolParameter.name param).
Proof.
  induction ps as [|x ps IH]; simpl.
  - split; [|done]. intros _ param H. by apply elem_of_nil in H.
  - destruct (ToolParameter.required x) eqn:Hr; simpl.
    + destruct (decide (kwargs !! ToolParameter.name x = None)) as [Hn|Hn].
      * rewrite (bool_decide_eq_true_2 _ Hn). split; [done|].
        intros H. destruct (H x) as [v Hv]; [left|done|congruence].
      * rewrite (bool_decide_eq_false_2 _ Hn), IH. split.
        -- intros H param [->|Hin]%elem_of_cons Hreq; [|by apply H].
           by apply not_eq_None_Some.
        -- intros H param Hin. apply H. by right.
    + rewrite IH. split.
      * intros H param [->|Hin]%elem_of_cons Hreq; [congruence|by apply H].
      * intros H param Hin. apply H. by right.
Qed.

Lemma first_missing_first (ps : list ToolParameter.t) (kwargs : gmap string PyVal)
    (msg : string) :
  Tool.first_missing ps kwargs = Some msg →
  ∃ before param after,
    ps = before ++ param :: after ∧
    ToolParameter.required param = true ∧
    kwargs !! ToolParameter.name param = None ∧
    msg = "Missing required parameter: " +:+ ToolParameter.name param ∧
    ∀ q, q ∈ before → ToolParameter.required q = true →
         is_Some (kwargs !! ToolParameter.name q).
Proof.
  induction ps as [|x ps IH]; simpl; [done|].
  destruct (ToolParameter.required x
            && bool_decide (kwargs !! ToolParameter.name x = None)) eqn:Hx.
  - apply andb_true_iff in Hx as [Hr Hn%bool_decide_eq_true].
    intros [= <-]. exists [], x, ps. split; [done|]. do 3 (split; [done|]).
    intros q Hq. by apply elem_of_nil in Hq.
  - intros H. destruct (IH H) as (before & param & after & -> & Hr & Hn & -> & Hb).
    exists (x :: before), param, after. split; [done|]. do 3 (split; [done|]).
    intros q [->|Hq]%elem_of_cons Hreq; [|by apply Hb].
    rewrite Hreq in Hx. simpl in Hx. apply bool_decide_eq_false in Hx.
    by apply not_eq_None_Some.
Qed.

Lemma first_missing_presence (ps : list ToolParameter.t)
    (kwargs kwargs' : gmap string PyVal) :
  (∀ param, param ∈ ps →
     (kwargs !! ToolParameter.name param = None ↔
      kwargs' !! ToolParameter.name param = None)) →
  Tool.first_missing ps kwargs' = Tool.first_missing ps kwargs.
Proof.
  induction ps as [|x ps IH]; intros H; simpl; [done|].
  rewrite IH by (intros param Hin; apply H; by right).
  assert (bool_decide (kwargs' !! ToolParameter.name x = None) =
          bool_decide (kwargs !! ToolParameter.name x = None)) as ->; [|done].
  apply bool_decide_ext. symmetry. apply H. left.
Qed.


Lemma visit_all (ps : list ToolParameter.t)
    (acc : gmap string (string * string) * list string) :
  (foldl Schema.visit acc ps).2 =
    acc.2 ++ (ToolParameter.name <$>
              filter (λ param, ToolParameter.required param = true) ps) ∧
  (∀ n, is_Some ((foldl Schema.visit acc ps).1 !! n) ↔
        is_Some (acc.1 !! n) ∨ ∃ param, param ∈ ps ∧ ToolParameter.name param = n) ∧
  (∀ n, (∀ param, param ∈ ps → ToolParameter.name param ≠ n) →
        (foldl Schema.visit acc ps).1 !! n = acc.1 !! n).
Proof.
  revert acc. induction ps as [|x ps IH]; intros acc.
  { simpl. rewrite app_nil_r. split; [done|]. split; [|done].
    intros n. split; [by left|]. intros [?|(? & ?%elem_of_nil & _)]; done. }
  cbn [foldl]. destruct (IH (Schema.visit acc x)) as (Hreq & Hdom & Hkeep).
  assert (Hv1 : (Schema.visit acc x).1 =
            <[ ToolParameter.name x :=
                 (ToolParameter.param_type x, ToolParameter.description x) ]>
              acc.1).
  { unfold Schema.visit. by destruct (ToolParameter.required x). }
  split; [|split].
  - rewrite Hreq. unfold Schema.visit. rewrite filter_cons.
    destruct (ToolParameter.required x) eqn:Hr.
    + rewrite decide_True by done. cbn [snd]. by rewrite <- app_assoc.
    + rewrite decide_False by done. done.
  - intros n. rewrite Hdom, Hv1, lookup_insert_is_Some. split.
    + intros [[<-|[_ H]]|(param & Hin & Hn)].
      * right. exists x. split; [left|done].
      * by left.
      * right. exists param. split; [by right|done].
    + intros [H|(param & [->|Hin]%elem_of_cons & Hn)].
      * destruct (decide (ToolParameter.name x = n)); left; [by left|by right].
      * left. by left.
      * right. by exists param.
  - intros n Hn. rewrite Hkeep by (intros param Hin; apply Hn; by right).
    rewrite Hv1. apply lookup_insert_ne. apply Hn. left.
Qed.

(** X8. The schema agrees with validation: [validate_params] accepts the
    parameters exactly when every name the schema lists as required has an
    entry. The required names are those of the required parameters in the
    order of declaration; the properties describe exactly the declared
    names, and of two parameters declared under one name the later one is
    described. *)
Theorem schema_matches_validation (tool : Tool.t World)
    (kwargs : gmap string PyVal) :
  Schema.name (Schema.to_schema tool) = Tool.name tool ∧
  Schema.required (Schema.to_schema tool) =
    ToolParameter.name <$>
      filter (λ param, ToolParameter.required param = true)
             (Tool.parameters tool) ∧
  (Tool.validate_params tool kwargs = None ↔
     ∀ n, n ∈ Schema.required (Schema.to_schema tool) → is_Some (kwargs !! n)) ∧
  (∀ n, is_Some (Schema.properties (Schema.to_schema tool) !! n) ↔
        ∃ param, param ∈ Tool.parameters tool ∧ ToolParameter.name param = n) ∧
  (∀ before param after,
     Tool.parameters tool = before ++ param :: after →
     (∀ q, q ∈ after → ToolParameter.name q ≠ ToolParameter.name param) →
     Schema.properties (Schema.to_schema tool) !! ToolParameter.name param =
       Some (ToolParameter.param_type param, ToolParameter.description param)).
Proof.
  unfold Schema.to_schema.
  destruct (visit_all (Tool.parameters tool) (∅, [])) as (Hreq & Hdom & _).
  destruct (foldl Schema.visit (∅, []) (Tool.parameters tool))
    as [properties required] eqn:Hfold.
  cbn [fst snd Schema.name Schema.required Schema.properties app] in *.
  split; [done|]. split; [done|]. split; [|split].
  - unfold Tool.validate_params. rewrite first_missing_none, Hreq. split.
    + intros H n (param & -> & [Hr Hin]%list_elem_of_filter)%list_elem_of_fmap.
      by apply H.
    + intros H param Hin Hr. apply H. apply list_elem_of_fmap.
      exists param. split; [done|]. by apply list_elem_of_filter.
  - intros n. rewrite Hdom, lookup_empty. split.
    + intros [[? ?]|H]; done.
    + intros H. by right.
  - intros before param after Hps Hlast.
    assert (properties = (foldl Schema.visit (∅, []) (Tool.parameters tool)).1)
      as -> by (by rewrite Hfold).
    rewrite Hps, foldl_app. cbn [foldl].
    destruct (visit_all after
                (Schema.visit (foldl Schema.visit (∅, []) before) param))
      as (_ & _ & Hkeep).
    rewrite Hkeep by done. unfold Schema.visit.
    destruct (ToolParameter.required param); cbn [fst]; apply lookup_insert_eq.
Qed.

End Validation.

(** ** The file and shell tools *)

Section BuiltinTools.
Import Tools Builtin.

Lemma append_cons (c : ascii) (a r : string) :
  String c a +:+ r = String c (a +:+ r).
Proof. reflexivity. Qed.

Lemma prefix_iff (a b : string) :
  String.prefix a b = true ↔ ∃ rest, b = a +:+ rest.
Proof.
  revert b. induction a as [|c a IH]; intros b.
  - split; [|by destruct b]. intros _. exists b. reflexivity.
  - destruct b as [|d b]; simpl.
    + split; [done|]. intros [rest H]. rewrite append_cons in H. done.
    + destruct (Ascii.ascii_dec c d) as [->|Hne].
      * rewrite IH. split.
        -- intros [rest ->]. exists rest. reflexivity.
        -- intros [rest H]. rewrite append_cons in H. injection H as ->.
           by exists rest.
      * split; [done|]. intros [rest H]. rewrite append_cons in H.
        injection H as -> _. done.
Qed.

Lemma nonempty_eqb (p : string) : p ≠ "" → String.eqb p "" = false.
Proof. intros H. by apply String.eqb_neq. Qed.

Lemma path_allowed_iff (m : Machine) (allowed_paths : list string) (p : string) :
  path_allowed m allowed_paths p = true ↔
  ∃ allowed rest, allowed ∈ allowed_paths ∧
                  abspath m p = abspath m allowed +:+ rest.
Proof.
  unfold path_allowed. rewrite existsb_exists. split.
  - intros (a & Ha & Hp). apply prefix_iff in Hp as [rest Hp].
    exists a, rest. split; [by apply list_elem_of_In|done].
  - intros (a & rest & Ha & Hp). exists a. split; [by apply list_elem_of_In|].
    apply prefix_iff. eauto.
Qed.

(** X9. [FileReadTool]. Leaving out [allowed_paths], or passing an empty
    list, allows the current directory. A missing or falsy [path] is
    answered with [Path is required] and a path outside the allowed ones
    with [permission-denied], in both cases without opening any file. A file
    is opened exactly when [path] is a non-empty string whose absolute form
    begins, character by character, with the absolute form of an allowed
    path (nothing requires the next character to be a separator); the result
    then reflects what opening gave. *)
Theorem file_read_gate (m : Machine) (self : FileReadTool.t)
    (kwargs : gmap string PyVal) :
  FileReadTool.new None = FileReadTool.mk ["."] ∧
  FileReadTool.new (Some []) = FileReadTool.mk ["."] ∧
  (PyText.truthy (default VNone (kwargs !! "path")) = false →
     FileReadTool.execute m self kwargs =
       (Ok (tool_result ERROR "" (Some "Path is required")), [])) ∧
  (∀ p, kwargs !! "path" = Some (VStr p) → p ≠ "" →
     FileReadTool._is_path_allowed m self p = false →
     FileReadTool.execute m self kwargs =
       (Ok (tool_result PERMISSION_DENIED ""
              (Some ("Access to " +:+ p +:+ " is not allowed"))), [])) ∧
  (∀ p, kwargs !! "path" = Some (VStr p) → p ≠ "" →
     ((∃ allowed rest, allowed ∈ FileReadTool.allowed_paths self ∧
         abspath m p = abspath m allowed +:+ rest) ↔
      (FileReadTool.execute m self kwargs).2 =
        [OpenRead p (default (VStr "utf-8") (kwargs !! "encoding"))])) ∧
  (∀ res p enc,
     FileReadTool.execute m self kwargs = (res, [OpenRead p enc]) →
     kwargs !! "path" = Some (VStr p) ∧
     match open_read m p enc with
     | ReadOk content =>
         ∃ r, res = Ok r ∧ ToolResult.status r = SUCCESS ∧
              ToolResult.output r = content ∧ ToolResult.error r = None
     | ReadNotFound =>
         res = Ok (tool_result ERROR "" (Some ("File not found: " +:+ p)))
     | ReadDenied =>
         res = Ok (tool_result PERMISSION_DENIED ""
                     (Some ("Permission denied: " +:+ p)))
     | ReadError message => res = Ok (tool_result ERROR "" (Some message))
     end).
Proof.
  split; [done|]. split; [done|]. split; [|split; [|split]].
  - intros H. unfold FileReadTool.execute. by rewrite H.
  - intros p Hp Hne Hna. unfold FileReadTool.execute. rewrite Hp. simpl.
    rewrite (nonempty_eqb p Hne). simpl. by rewrite Hna.
  - intros p Hp Hne. rewrite <- path_allowed_iff.
    unfold FileReadTool.execute. rewrite Hp. simpl.
    rewrite (nonempty_eqb p Hne). simpl.
    unfold FileReadTool._is_path_allowed.
    destruct (path_allowed m _ p); simpl; split; done.
  - intros res p enc. unfold FileReadTool.execute.
    destruct (PyText.truthy (default VNone (kwargs !! "path"))); simpl; [|done].
    destruct (kwargs !! "path") as [[p'| | |]|] eqn:Hp; simpl; try done.
    destruct (FileReadTool._is_path_allowed m self p'); simpl; [|done].
    intros [= <- <- <-]. split; [done|].
    destruct (open_read m p' _); eauto.
Qed.


Lemma contains_app_l (needle pre s : string) :
  PyStr.contains needle s = true → PyStr.contains needle (pre +:+ s) = true.
Proof.
  intros H. induction pre as [|c pre IH]; [done|].
  rewrite append_cons. simpl. rewrite IH. apply orb_true_r.
Qed.

Lemma blocked_marker_refused (self : ShellTool.t) (c blocked : string) :
  blocked ∈ ShellTool.blocked_commands self →
  PyStr.contains blocked c = true →
  ShellTool._is_command_allowed self c = false.
Proof.
  intros Hin Hc. unfold ShellTool._is_command_allowed.
  assert (existsb (λ b, PyStr.contains b c) (ShellTool.blocked_commands self)
          = true) as ->; [|done].
  apply existsb_exists. exists blocked. split; [by apply list_elem_of_In|done].
Qed.

Lemma no_marker_existsb (l : list string) (c : string) :
  (∀ blocked, blocked ∈ l → PyStr.contains blocked c = false) →
  existsb (λ b, PyStr.contains b c) l = false.
Proof.
  intros H. destruct (existsb _ l) eqn:E; [|done].
  apply existsb_exists in E as (b & Hb & Hc).
  apply list_elem_of_In in Hb. by rewrite (H b Hb) in Hc.
Qed.


(** X12. Every result of the three tools that is not a success carries a
    message, and a success carries none: the loop always has a message to
    hand to the recovery controller. The file tools return no output with a
    failure. A result whose status is [TIMEOUT] comes from the shell tool
    only, and [PERMISSION_DENIED] never comes with a process exit. *)
Theorem builtin_tools_report_errors (m : Machine) (kwargs : gmap string PyVal)
    (r : ToolResult.t) :
  (∀ self, (FileReadTool.execute m self kwargs).1 = Ok r →
     (ToolResult.status r = SUCCESS ↔ ToolResult.error r = None) ∧
     ToolResult.status r ≠ TIMEOUT ∧
     (ToolResult.status r ≠ SUCCESS → ToolResult.output r = "")) ∧
  (∀ self, (FileWriteTool.execute m self kwargs).1 = Ok r →
     (ToolResult.status r = SUCCESS ↔ ToolResult.error r = None) ∧
     ToolResult.status r ≠ TIMEOUT ∧
     (ToolResult.status r ≠ SUCCESS → ToolResult.output r = "")) ∧
  (∀ self, (ShellTool.execute m self kwargs).1 = Ok r →
     (ToolResult.status r = SUCCESS ↔ ToolResult.error r = None) ∧
     (ToolResult.status r = TIMEOUT ∨ ToolResult.status r = PERMISSION_DENIED →
        ToolResult.output r = "" ∧ ToolResult.metadata r = ∅)).
Proof.
  split; [|split].
  - intros self. unfold FileReadTool.execute.
    destruct (PyText.truthy (default VNone (kwargs !! "path"))); simpl;
      [|intros [= <-]; by repeat split].
    destruct (default VNone (kwargs !! "path")) as [p| | |]; simpl; try done.
    destruct (FileReadTool._is_path_allowed m self p); simpl;
      [|intros [= <-]; by repeat split].
    destruct (open_read m p _); intros [= <-]; by repeat split.
  - intros self. unfold FileWriteTool.execute.
    destruct (PyText.truthy (default VNone (kwargs !! "path"))); simpl;
      [|intros [= <-]; by repeat split].
    destruct (default VNone (kwargs !! "path")) as [p| | |]; simpl; try done.
    destruct (FileWriteTool._is_path_allowed m self p); simpl;
      [|intros [= <-]; by repeat split].
    destruct (FileWriteTool.write_file m p _ _) as [fin rqs]. simpl.
    destruct fin; [destruct (default (VStr "") (kwargs !! "content"))|..];
      intros [= <-]; by repeat split.
  - intros self.
    assert (Hrun : ∀ command timeout,
      (ToolResult.status (ShellTool.run_command m self command timeout) = SUCCESS
       ↔ ToolResult.error (ShellTool.run_command m self command timeout) = None) ∧
      (ToolResult.status (ShellTool.run_command m self command timeout) = TIMEOUT
       ∨ ToolResult.status (ShellTool.run_command m self command timeout)
         = PERMISSION_DENIED →
       ToolResult.output (ShellTool.run_command m self command timeout) = "" ∧
       ToolResult.metadata (ShellTool.run_command m self command timeout) = ∅)).
    { intros command timeout. unfold ShellTool.run_command.
      destruct (run m command timeout _) as [rc out err| |msg]; simpl.
      - destruct (rc =? 0)%Z; simpl; split; try done; by intros [|].
      - by repeat split.
      - split; [done|]. by intros [|]. }
    unfold ShellTool.execute.
    destruct (PyText.truthy (default VNone (kwargs !! "command"))); simpl.
    2:{ intros [= <-]. split; [done|]. by intros [|]. }
    destruct (default VNone (kwargs !! "command")) as [c| | |]; simpl.
    + destruct (ShellTool._is_command_allowed self c); simpl; intros [= <-];
        [apply Hrun|by repeat split].
    + destruct (ShellTool.blocked_commands self);
        [destruct (ShellTool.allowed_commands self) as [[|]|]|]; simpl;
        try done; intros [= <-]; apply Hrun.
    + destruct (ShellTool.blocked_commands self);
        [destruct (ShellTool.allowed_commands self) as [[|]|]|]; simpl;
        try done; intros [= <-]; apply Hrun.
    + destruct (ShellTool.blocked_commands self);
        [destruct (ShellTool.allowed_commands self) as [[|]|]|]; simpl;
        try done; intros [= <-]; apply Hrun.
Qed.

(** X13. The three tools behind the registry. Validation stops a call that
    lacks a required parameter before the tool sees it, and such a call asks
    nothing of the machine. So the tools' own [... is required] refusals
    arise only for a parameter that is present and falsy, and the default
    the file-write tool has for a missing [content] is never used: without
    [content] the call is refused. *)
Theorem registry_guards_builtin_tools (m : Machine)
    (kwargs : gmap string PyVal) :
  (∀ self,
     let run := via_registry FileReadTool.parameters
                  (FileReadTool.execute m self) kwargs in
     (kwargs !! "path" = None →
        run = (Ok (tool_result ERROR ""
                     (Some "Missing required parameter: path")), [])) ∧
     (is_Some (kwargs !! "path") → run = FileReadTool.execute m self kwargs) ∧
     (run = (Ok (tool_result ERROR "" (Some "Path is required")), []) →
        ∃ v, kwargs !! "path" = Some v ∧ PyText.truthy v = false)) ∧
  (∀ self,
     let run := via_registry FileWriteTool.parameters
                  (FileWriteTool.execute m self) kwargs in
     (kwargs !! "path" = None →
        run = (Ok (tool_result ERROR ""
                     (Some "Missing required parameter: path")), [])) ∧
     (is_Some (kwargs !! "path") → kwargs !! "content" = None →
        run = (Ok (tool_result ERROR ""
                     (Some "Missing required parameter: content")), [])) ∧
     (is_Some (kwargs !! "path") → is_Some (kwargs !! "content") →
        run = FileWriteTool.execute m self kwargs) ∧
     (run.2 ≠ [] → is_Some (kwargs !! "path") ∧ is_Some (kwargs !! "content"))) ∧
  (∀ self,
     let run := via_registry ShellTool.parameters
                  (ShellTool.execute m self) kwargs in
     (kwargs !! "command" = None →
        run = (Ok (tool_result ERROR ""
                     (Some "Missing required parameter: command")), [])) ∧
     (is_Some (kwargs !! "command") → run = ShellTool.execute m self kwargs) ∧
     (run = (Ok (tool_result ERROR "" (Some "Command is required")), []) →
        ∃ v, kwargs !! "command" = Some v ∧ PyText.truthy v = false)).
Proof.
  split; [|split]; intros self; cbv zeta; unfold via_registry;
    cbn [Tool.first_missing FileReadTool.parameters FileWriteTool.parameters
         ShellTool.parameters ToolParameter.required ToolParameter.name andb].
  - destruct (kwargs !! "path") as [v|] eqn:Hp.
    + rewrite bool_decide_eq_false_2 by done.
      split; [done|]. split; [done|].
      unfold FileReadTool.execute. rewrite Hp. simpl.
      destruct (PyText.truthy v) eqn:Hv; simpl; [|by exists v].
      destruct v as [p| | |]; simpl; try done.
      destruct (FileReadTool._is_path_allowed m self p); simpl; done.
    + rewrite bool_decide_eq_true_2 by done.
      split; [done|]. split; [by intros [? ?]|]. done.
  - destruct (kwargs !! "path") as [v|] eqn:Hp.
    + rewrite bool_decide_eq_false_2 by done.
      destruct (kwargs !! "content") as [cv|] eqn:Hc.
      * rewrite bool_decide_eq_false_2 by done.
        split; [done|]. split; [done|]. split; [done|]. intros _. by split.
      * rewrite bool_decide_eq_true_2 by done.
        split; [done|]. split; [done|]. split; [by intros _ [? ?]|]. done.
    + rewrite bool_decide_eq_true_2 by done.
      split; [done|]. split; [by intros [? ?]|].
      split; [by intros [? ?]|]. done.
  - destruct (kwargs !! "command") as [v|] eqn:Hp.
    + rewrite bool_decide_eq_false_2 by done.
      split; [done|]. split; [done|].
      unfold ShellTool.execute. rewrite Hp. simpl.
      destruct (PyText.truthy v) eqn:Hv; simpl; [|by exists v].
      destruct v as [c| | |]; simpl.
      * destruct (ShellTool._is_command_allowed self c); simpl; done.
      * destruct (ShellTool.blocked_commands self);
          [destruct (ShellTool.allowed_commands self) as [[|]|]|]; done.
      * destruct (ShellTool.blocked_commands self);
          [destruct (ShellTool.allowed_commands self) as [[|]|]|]; done.
      * done.
    + rewrite bool_decide_eq_true_2 by done.
      split; [done|]. split; [by intros [? ?]|]. done.
Qed.

End BuiltinTools.

(** ** What the recovery controller makes of the shell tool's answers *)

Section ShellRecovery.
Import Planner Tools Builtin.

Local Abbreviation escalated p cmd :=
  (new_step ("step_" +:+ pretty (length (steps p) + 1)%nat) "shell"
     {[ "command" := VStr ("sudo " +:+ cmd) ]}
     ("Retry with sudo: " +:+ cmd) []).

Lemma lower_app (a b : string) :
  PyStr.lower (a +:+ b) = PyStr.lower a +:+ PyStr.lower b.
Proof.
  induction a as [|c a IH]; [done|].
  rewrite append_cons. simpl. by rewrite IH.
Qed.

Lemma contains_skip (needle : string) (c : ascii) (s : string) :
  String.prefix needle (String c s) = false →
  PyStr.contains needle (String c s) = PyStr.contains needle s.
Proof.
  intros H.
  change (PyStr.contains needle (String c s)) with
    (String.prefix needle (String c s) || PyStr.contains needle s).
  by rewrite H.
Qed.

Lemma refusal_denial (c : string) :
  PyStr.contains "permission denied"
    (PyStr.lower ("Command not allowed: " +:+ c)) =
  PyStr.contains "permission denied" (PyStr.lower c).
Proof.
  rewrite lower_app.
  change (PyStr.lower "Command not allowed: ") with "command not allowed: ".
  repeat (rewrite append_cons; rewrite contains_skip by reflexivity).
  reflexivity.
Qed.

Lemma exhausted_shell_replan p (i : nat) (fs : PlanStep) (e : string) :
  steps p !! i = Some fs → tool fs = "shell" → can_retry fs = false →
  replan_on_failure p i (Some e) =
    if PyStr.contains "permission denied" (PyStr.lower e) then
      cmd ← as_str (default (VStr "") (params fs !! "command"));
      if negb (PyStr.startswith cmd "sudo") then
        Ok (with_steps (steps p ++ [escalated p cmd]) p,
            Some (length (steps p)))
      else Ok (p, None)
    else Ok (p, None).
Proof.
  intros Hfs Ht Hcr. unfold replan_on_failure. rewrite Hfs, Hcr, Ht. simpl.
  rewrite andb_false_r.
  destruct (PyStr.contains "permission denied" (PyStr.lower e)); [|done].
  destruct (default (VStr "") (params fs !! "command")); try done.
Qed.


End ShellRecovery.

(** ** The sandbox: indentation of the user's code *)

Section Indentation.
Import Sandbox.

Lemma length_append (a b : string) :
  String.length (a +:+ b) = String.length a + String.length b.
Proof.
  induction a as [|c a IH]; [done|]. rewrite append_cons. simpl. by rewrite IH.
Qed.

Lemma split_nonempty (sep : ascii) (s : string) : PyStr.split sep s ≠ [].
Proof.
  destruct s as [|c s]; simpl; [done|].
  destruct (Ascii.eqb c sep); [done|]. by destruct (PyStr.split sep s).
Qed.

Lemma join_cons (sep x : string) (l : list string) :
  l ≠ [] → PyStr.join sep (x :: l) = x +:+ sep +:+ PyStr.join sep l.
Proof. by destruct l. Qed.

Lemma join_split (sep : ascii) (s : string) :
  PyStr.join (String sep "") (PyStr.split sep s) = s.
Proof.
  induction s as [|c s IH]; [done|]. simpl PyStr.split.
  destruct (Ascii.eqb_spec c sep) as [->|Hne].
  - rewrite join_cons by apply split_nonempty. by rewrite IH.
  - pose proof (split_nonempty sep s) as Hs.
    destruct (PyStr.split sep s) as [|h t]; [done|].
    destruct t as [|y t]; [simpl in *; by rewrite IH|].
    rewrite join_cons by done. rewrite join_cons in IH by done.
    rewrite append_cons. by rewrite IH.
Qed.

Lemma split_free (sep : ascii) (s : string) :
  Forall (λ line, PyText.free_of sep line = true) (PyStr.split sep s).
Proof.
  induction s as [|c s IH]; simpl; [by repeat constructor|].
  destruct (Ascii.eqb c sep) eqn:E; [by constructor|].
  pose proof (split_nonempty sep s) as Hs.
  destruct (PyStr.split sep s) as [|h t]; [done|].
  apply Forall_cons in IH as [Hh Ht]. constructor; [|done].
  simpl. by rewrite E, Hh.
Qed.

Lemma split_line (sep : ascii) (a : string) :
  PyText.free_of sep a = true → PyStr.split sep a = [a].
Proof.
  induction a as [|c a IH]; [done|]. simpl.
  intros [Hc Ha]%andb_true_iff. apply negb_true_iff in Hc. rewrite Hc.
  by rewrite (IH Ha).
Qed.

Lemma split_line_sep (sep : ascii) (a b : string) :
  PyText.free_of sep a = true →
  PyStr.split sep (a +:+ String sep b) = a :: PyStr.split sep b.
Proof.
  induction a as [|c a IH].
  - intros _. change ("" +:+ String sep b) with (String sep b).
    simpl. by rewrite Ascii.eqb_refl.
  - simpl PyText.free_of. intros [Hc Ha]%andb_true_iff.
    apply negb_true_iff in Hc. rewrite append_cons. simpl PyStr.split.
    by rewrite Hc, (IH Ha).
Qed.

Lemma split_join (sep : ascii) (ls : list string) :
  ls ≠ [] → Forall (λ line, PyText.free_of sep line = true) ls →
  PyStr.split sep (PyStr.join (String sep "") ls) = ls.
Proof.
  induction ls as [|x ls IH]; [done|]. intros _ [Hx Hls]%Forall_cons.
  destruct ls as [|y ls]; [by apply split_line|].
  rewrite join_cons by done.
  change (String sep "" +:+ ?r) with (String sep r).
  rewrite (split_line_sep sep x _ Hx). f_equal. by apply IH.
Qed.

Lemma free_of_spaces (sep : ascii) (n : nat) (line : string) :
  sep ≠ " "%char →
  PyText.free_of sep line = true →
  PyText.free_of sep (spaces n +:+ line) = true.
Proof.
  intros Hsep Hl. induction n as [|n IH]; [done|].
  simpl spaces. rewrite append_cons. cbn [PyText.free_of]. rewrite IH.
  destruct (Ascii.eqb_spec " " sep) as [<-|]; done.
Qed.

Lemma length_spaces (n : nat) : String.length (spaces n) = n.
Proof. induction n; simpl; congruence. Qed.

Lemma length_join_indented (sep : string) (n : nat) (ls : list string) :
  String.length (PyStr.join sep ((λ line, spaces n +:+ line) <$> ls)) =
  String.length (PyStr.join sep ls) + n * length ls.
Proof.
  induction ls as [|x ls IH]; [simpl; lia|].
  destruct ls as [|y ls].
  - simpl. rewrite length_append, length_spaces. lia.
  - rewrite fmap_cons, !join_cons by done.
    rewrite !length_append, IH, length_spaces. simpl length. lia.
Qed.

(** X15. [_indent_code] works line by line. The indented text has the lines
    of the code, in order, each with [spaces] blanks in front (also the
    empty lines, and the empty line after a final line break); it is longer
    than the code by [spaces] for every line; with zero blanks it is the
    code itself. Splitting a text at line breaks and joining the pieces
    gives the text back. *)
Theorem indent_code_lines (code : string) (n : nat) :
  PyStr.split (ascii_of_nat 10) (_indent_code code n) =
    (λ line, spaces n +:+ line) <$> PyStr.split (ascii_of_nat 10) code ∧
  String.length (_indent_code code n) =
    String.length code + n * length (PyStr.split (ascii_of_nat 10) code) ∧
  _indent_code code 0 = code ∧
  PyStr.join newline (PyStr.split (ascii_of_nat 10) code) = code.
Proof.
  unfold _indent_code, newline. split; [|split; [|split]].
  - apply split_join.
    + pose proof (split_nonempty (ascii_of_nat 10) code).
      by destruct (PyStr.split _ code).
    + apply Forall_fmap. eapply Forall_impl; [apply split_free|].
      intros line Hl. by apply free_of_spaces.
  - by rewrite length_join_indented, join_split.
  - rewrite <- (join_split (ascii_of_nat 10) code) at 2. f_equal.
    induction (PyStr.split _ code) as [|x l IH]; [done|].
    rewrite fmap_cons. by f_equal.
  - apply join_split.
Qed.

End Indentation.

(** ** The sandbox: what [execute] asks of the machine *)

Section SandboxEffects.
Import Sandbox.

(** The sandbox object as [execute] has it after its first statement. *)
Local Abbreviation running self :=
  (mkSandbox (config self) (_temp_dir self) RUNNING).

(** Every way [execute] can go. *)
Lemma execute_cases (h : Host) (self : CodeSandbox) (code : string) :
  (truthy (_check_imports self code) = true ∧
   execute h self code =
     (Ok (sandbox_result ERROR "" (default "" (_check_imports self code))),
      running self, [])) ∨
  (truthy (_check_imports self code) = false ∧
   ∃ ready calls0,
     (if negb (truthy (_temp_dir self)) then _setup h (running self)
      else (Ok (running self), [])) = (ready, calls0) ∧
     match ready with
     | Raise e => execute h self code = (Raise e, running self, calls0)
     | Ok self2 =>
         let temp_dir := default "" (_temp_dir self2) in
         let script_path := path_join temp_dir "_sandbox_script.py" in
         let wrapper := _create_wrapper_script code in
         match host_write h script_path wrapper with
         | Some e =>
             execute h self code =
               (Ok (sandbox_result ERROR "" ("Failed to write script: " +:+ e)),
                self2, calls0 ++ [WriteFile script_path wrapper])
         | None =>
             execute h self code =
               (Ok (run_script h (config self2) script_path temp_dir), self2,
                calls0 ++ [WriteFile script_path wrapper;
                           RunProcess script_path temp_dir
                             (timeout_seconds (config self2))])
         end
     end).
Proof.
  unfold execute.
  change (_check_imports (running self) code) with (_check_imports self code).
  destruct (truthy (_check_imports self code)); [by left|].
  right. split; [done|].
  cbn [_temp_dir].
  destruct (if negb (truthy (_temp_dir self)) then _setup h (running self)
            else (Ok (running self), [])) as [ready calls0].
  exists ready, calls0. split; [done|].
  destruct ready as [self2|e]; [|done].
  cbv zeta. by destruct (host_write h _ _).
Qed.

(** What [_setup] does, whether or not it succeeds. *)
Lemma setup_cases (h : Host) (self : CodeSandbox) (ready : outcome CodeSandbox)
    (calls : list os_call) :
  _setup h self = (ready, calls) →
  (calls = [MakeDirs (default "" (working_dir (config self)))] ∧
   truthy (working_dir (config self)) = true ∨
   calls = [MkDTemp "sandbox_"] ∧ truthy (working_dir (config self)) = false) ∧
  match ready with
  | Ok self2 =>
      config self2 = config self ∧ _status self2 = _status self ∧
      ∃ dir, _temp_dir self2 = Some dir ∧
        (truthy (working_dir (config self)) = true ∧
         working_dir (config self) = Some dir ∨
         truthy (working_dir (config self)) = false ∧
         host_mkdtemp h "sandbox_" = Some dir)
  | Raise e => e = OSError
  end.
Proof.
  unfold _setup. destruct (truthy (working_dir (config self))) eqn:Hwd.
  - destruct (host_makedirs h _); intros [= <- <-];
      (split; [by left|]); [|done].
    do 2 (split; [done|]). destruct (working_dir (config self)) as [d|]; [|done].
    exists d. split; [done|]. by left.
  - destruct (host_mkdtemp h _) as [d|] eqn:Hd; intros [= <- <-];
      (split; [by right|]); [|done].
    do 2 (split; [done|]). exists d. split; [done|]. by right.
Qed.

Lemma truthy_some (o : option string) :
  truthy o = true → ∃ s, o = Some s ∧ s ≠ "".
Proof.
  destruct o as [s|]; [|done]. simpl. intros H%negb_true_iff.
  exists s. split; [done|]. by apply String.eqb_neq.
Qed.

(** X16. The effects of one call of [execute]. The configuration is never
    changed, and the sandbox is left in the status [RUNNING] however the
    call ends: no path sets it to anything else. A sandbox that already has
    a scratch directory keeps it and makes no directory. At most one process
    is started, and only as the last request, after the wrapper script was
    written without error into the scratch directory: the process runs that
    script there under the configured timeout, and its outcome is the result
    of the call. When writing the script fails, no process is started. An
    exception escapes only from setting up the scratch directory, and then
    nothing was written or started. *)
Theorem sandbox_execute_effects (h : Host) (self self' : CodeSandbox)
    (code : string) (res : outcome SandboxResult) (calls : list os_call) :
  execute h self code = (res, self', calls) →
  config self' = config self ∧ _status self' = RUNNING ∧
  (truthy (_temp_dir self) = true →
     _temp_dir self' = _temp_dir self ∧
     ∀ c, c ∈ calls → c ≠ MkDTemp "sandbox_" ∧ ∀ d, c ≠ MakeDirs d) ∧
  (∀ script cwd t, RunProcess script cwd t ∈ calls →
     truthy (_check_imports self code) = false ∧
     _temp_dir self' = Some cwd ∧
     script = path_join cwd "_sandbox_script.py" ∧
     t = timeout_seconds (config self) ∧
     host_write h script (_create_wrapper_script code) = None ∧
     (∃ before, calls = before ++
        [WriteFile script (_create_wrapper_script code);
         RunProcess script cwd t] ∧
        Forall (λ c, is_spawn c = false) before) ∧
     res = Ok (run_script h (config self) script cwd)) ∧
  (∀ path content e, WriteFile path content ∈ calls →
     host_write h path content = Some e →
     res = Ok (sandbox_result ERROR "" ("Failed to write script: " +:+ e)) ∧
     Forall (λ c, is_spawn c = false) calls) ∧
  (∀ e, res = Raise e →
     e = OSError ∧ truthy (_temp_dir self) = false ∧
     Forall (λ c, ∀ path content, c ≠ WriteFile path content) calls ∧
     Forall (λ c, is_spawn c = false) calls).
Proof.
  intros Hex.
  destruct (execute_cases h self code) as [[Hb E]|(Hb & ready & calls0 & Hs & E)].
  { rewrite Hex in E. injection E as -> -> ->.
    split; [done|]. split; [done|]. split; [|split; [|split]].
    - intros _. split; [done|]. by intros c ?%elem_of_nil.
    - by intros ??? ?%elem_of_nil.
    - by intros ??? ?%elem_of_nil.
    - done. }
  assert (Hsetup : Forall (λ c, is_spawn c = false ∧
                             ∀ path content, c ≠ WriteFile path content) calls0 ∧
          (truthy (_temp_dir self) = true → calls0 = []) ∧
          match ready with
          | Ok self2 =>
              config self2 = config self ∧ _status self2 = RUNNING ∧
              (truthy (_temp_dir self) = true →
                 _temp_dir self2 = _temp_dir self) ∧
              ∃ dir, _temp_dir self2 = Some dir
          | Raise e => e = OSError ∧ truthy (_temp_dir self) = false
          end).
  { destruct (truthy (_temp_dir self)) eqn:Ht; simpl in Hs.
    - injection Hs as <- <-. split; [constructor|]. split; [done|].
      do 3 (split; [done|]). apply truthy_some in Ht as (d & -> & _). by exists d.
    - apply setup_cases in Hs as [Hc Hr]. split.
      { destruct Hc as [[-> _]|[-> _]]; by repeat constructor. }
      split; [done|]. destruct ready as [self2|e]; [|done].
      destruct Hr as (? & ? & d & ? & _). do 2 (split; [done|]).
      split; [done|]. by exists d. }
  destruct Hsetup as (Hcalls0 & Hnil & Hready).
  assert (Hnospawn : Forall (λ c, is_spawn c = false) calls0).
  { eapply Forall_impl; [exact Hcalls0|]. by intros ? []. }
  assert (Hnowrite :
    Forall (λ c, ∀ path content, c ≠ WriteFile path content) calls0).
  { eapply Forall_impl; [exact Hcalls0|]. by intros ? []. }
  destruct ready as [self2|e].
  - destruct Hready as (Hcfg & Hst & Htd & dir & Hdir).
    cbv zeta in E. rewrite Hdir in E.
    change (default "" (Some dir)) with dir in E.
    destruct (host_write h (path_join dir "_sandbox_script.py")
                (_create_wrapper_script code)) as [msg|] eqn:Hw;
      rewrite Hex in E; injection E as -> -> ->.
    + split; [done|]. split; [done|]. split; [|split; [|split]].
      * intros Ht. split; [by apply Htd|]. rewrite (Hnil Ht).
        intros c ->%list_elem_of_singleton. done.
      * intros script cwd t [Hin|Hin]%elem_of_app.
        -- rewrite Forall_forall in Hnospawn. by apply Hnospawn in Hin.
        -- by apply list_elem_of_singleton in Hin.
      * intros path content e [Hin|Hin]%elem_of_app Hfail.
        -- rewrite Forall_forall in Hnowrite. by destruct (Hnowrite _ Hin path content).
        -- apply list_elem_of_singleton in Hin. injection Hin as -> ->.
           rewrite Hw in Hfail. injection Hfail as <-. split; [done|].
           apply Forall_app. split; [done|]. by repeat constructor.
      * done.
    + split; [done|]. split; [done|]. split; [|split; [|split]].
      * intros Ht. split; [by apply Htd|]. rewrite (Hnil Ht).
        intros c [->|Hc]%elem_of_cons;
          [|apply list_elem_of_singleton in Hc as ->]; done.
      * intros script cwd t [Hin|Hin]%elem_of_app.
        { rewrite Forall_forall in Hnospawn. by apply Hnospawn in Hin. }
        apply elem_of_cons in Hin as [Hin|Hin]; [done|].
        apply list_elem_of_singleton in Hin. injection Hin as -> -> ->.
        split; [done|]. split; [done|]. split; [done|]. split; [by rewrite Hcfg|].
        split; [done|]. split; [|by rewrite Hcfg].
        exists calls0. by rewrite Hcfg.
      * intros path content e [Hin|Hin]%elem_of_app Hfail.
        { rewrite Forall_forall in Hnowrite.
          by destruct (Hnowrite _ Hin path content). }
        apply elem_of_cons in Hin as [Hin|Hin].
        -- injection Hin as -> ->. rewrite Hw in Hfail. done.
        -- by apply list_elem_of_singleton in Hin.
      * done.
  - destruct Hready as [-> Ht]. rewrite Hex in E. injection E as -> -> ->.
    split; [done|]. split; [done|]. split; [|split; [|split]].
    + rewrite Ht. done.
    + intros script cwd t Hin.
      rewrite Forall_forall in Hnospawn. by apply Hnospawn in Hin.
    + intros path content e Hin.
      rewrite Forall_forall in Hnowrite. by destruct (Hnowrite _ Hin path content).
    + intros e [= <-]. done.
Qed.

End SandboxEffects.

(** ** The sandbox: status and size of what a finished process reports *)

Section SandboxReport.
Import Sandbox.

Lemma substring_prefix (k : nat) (s : string) :
  ∃ rest, s = String.substring 0 k s +:+ rest ∧
          String.length (String.substring 0 k s) = k `min` String.length s.
Proof.
  revert s. induction k as [|k IH]; intros s.
  - exists s. split; by destruct s.
  - destruct s as [|c s]; [by exists ""|].
    destruct (IH s) as (rest & Hs & Hl). exists rest. simpl. split.
    + rewrite append_cons. by f_equal.
    + by rewrite Hl.
Qed.

Lemma truncate_within (limit : Z) (s : string) :
  (PyStr.len s ≤ limit)%Z → truncate limit s = s.
Proof.
  intros H. unfold truncate.
  destruct (Z.ltb_spec limit (PyStr.len s)); [lia|done].
Qed.

Lemma truncate_beyond (limit : Z) (s : string) :
  (limit < PyStr.len s)%Z →
  ∃ kept rest, s = kept +:+ rest ∧ truncate limit s = kept +:+ newline +:+ "[OUTPUT TRUNCATED]" ∧
    PyStr.len kept =
      (if (0 <=? limit)%Z then limit else Z.max 0 (PyStr.len s + limit))%Z.
Proof.
  intros H. unfold truncate, slice_to, PyStr.take, PyStr.len in *.
  destruct (Z.ltb_spec limit (Z.of_nat (String.length s))); [|lia].
  destruct (Z.leb_spec 0 limit).
  - destruct (substring_prefix (Z.to_nat limit) s) as (rest & Hs & Hl).
    exists (String.substring 0 (Z.to_nat limit) s), rest.
    split; [done|]. split; [done|]. rewrite Hl. lia.
  - destruct (substring_prefix (String.length s - Z.to_nat (- limit)) s)
      as (rest & Hs & Hl).
    exists (String.substring 0 (String.length s - Z.to_nat (- limit)) s), rest.
    split; [done|]. split; [done|]. rewrite Hl. lia.
Qed.

Lemma truncate_bound (limit : Z) (s : string) :
  (0 ≤ limit)%Z → (PyStr.len (truncate limit s) ≤ limit + 19)%Z.
Proof.
  intros Hl. destruct (Z.le_gt_cases (PyStr.len s) limit) as [H|H].
  - rewrite truncate_within by done. lia.
  - destruct (truncate_beyond limit s H) as (kept & rest & _ & -> & Hk).
    destruct (Z.leb_spec 0 limit); [|lia].
    unfold PyStr.len in *. rewrite length_append. simpl. lia.
Qed.


End SandboxReport.

(** ** The sandbox as a context manager, and [execute_code] *)

Section SandboxSession.
Import Sandbox Session.

Lemma truthy_nonempty (d : string) : d ≠ "" → truthy (Some d) = true.
Proof. intros H. simpl. by rewrite (nonempty_eqb d H). Qed.

(** A session whose scratch directory [d] could be set up. *)
Lemma session_run (h : Host) (cfg : SandboxConfig) (code d : string) :
  (truthy (working_dir cfg) = true ∧ working_dir cfg = Some d ∧
   host_makedirs h d = true ∨
   truthy (working_dir cfg) = false ∧ host_mkdtemp h "sandbox_" = Some d) →
  d ≠ "" →
  let first :=
    if truthy (working_dir cfg) then MakeDirs d else MkDTemp "sandbox_" in
  let script := path_join d "_sandbox_script.py" in
  let wrapper := _create_wrapper_script code in
  let bye :=
    if cleanup_on_exit cfg && negb (truthy (working_dir cfg))
    then [RmTree d] else [] in
  with_sandbox h cfg (λ sandbox, execute h sandbox code) =
    if truthy (first_blocked (blocked_imports cfg) code) then
      (Ok (sandbox_result ERROR ""
             (default "" (first_blocked (blocked_imports cfg) code))),
       Os first :: bye)
    else
      match host_write h script wrapper with
      | Some e =>
          (Ok (sandbox_result ERROR "" ("Failed to write script: " +:+ e)),
           Os first :: Os (WriteFile script wrapper) :: bye)
      | None =>
          (Ok (run_script h cfg script d),
           Os first :: Os (WriteFile script wrapper) ::
           Os (RunProcess script d (timeout_seconds cfg)) :: bye)
      end.
Proof.
  intros Hdir Hd. cbv zeta.
  assert (Henter : __enter__ h (new_sandbox cfg) =
            (Ok (mkSandbox cfg (Some d) READY),
             [if truthy (working_dir cfg) then MakeDirs d
              else MkDTemp "sandbox_"])).
  { unfold __enter__, _setup, new_sandbox. cbn [config _status].
    destruct Hdir as [(Ht & Hwd & Hmk)|(Ht & Hmk)]; rewrite Ht.
    - rewrite Hwd. change (default "" (Some d)) with d. by rewrite Hmk.
    - by rewrite Hmk. }
  assert (Hbye : ∀ st,
    __exit__ (mkSandbox cfg (Some d) st) =
      if cleanup_on_exit cfg && negb (truthy (working_dir cfg))
      then [RmTree d] else []).
  { intros st. unfold __exit__, _cleanup. cbn [config _temp_dir].
    rewrite (truthy_nonempty d Hd), andb_true_r.
    destruct (cleanup_on_exit cfg); [|done].
    by destruct (truthy (working_dir cfg)). }
  unfold with_sandbox. rewrite Henter.
  unfold execute, _check_imports. cbn [config _temp_dir].
  destruct (truthy (first_blocked (blocked_imports cfg) code)).
  { cbv beta iota. rewrite (Hbye RUNNING). reflexivity. }
  rewrite (truthy_nonempty d Hd). cbn [negb].
  cbv beta iota zeta. cbn [config _temp_dir].
  change (default "" (Some d)) with d.
  destruct (host_write h (path_join d "_sandbox_script.py")
              (_create_wrapper_script code));
    rewrite (Hbye RUNNING); reflexivity.
Qed.

(** A session whose scratch directory could not be set up. *)
Lemma session_refused (h : Host) (cfg : SandboxConfig) (code : string) :
  (truthy (working_dir cfg) = true ∧
   host_makedirs h (default "" (working_dir cfg)) = false ∨
   truthy (working_dir cfg) = false ∧ host_mkdtemp h "sandbox_" = None) →
  with_sandbox h cfg (λ sandbox, execute h sandbox code) =
    (Raise OSError,
     [Os (if truthy (working_dir cfg)
          then MakeDirs (default "" (working_dir cfg))
          else MkDTemp "sandbox_")]).
Proof.
  intros H. unfold with_sandbox, __enter__, _setup, new_sandbox.
  cbn [config _status]. destruct H as [[Ht Hmk]|[Ht Hmk]]; by rewrite Ht, Hmk.
Qed.

(** A session on a machine whose [mkdtemp] answers with the empty path:
    [execute] finds no scratch directory and asks for one again. *)
Lemma session_nameless (h : Host) (cfg : SandboxConfig) (code : string) :
  truthy (working_dir cfg) = false → host_mkdtemp h "sandbox_" = Some "" →
  let script := path_join "" "_sandbox_script.py" in
  let wrapper := _create_wrapper_script code in
  with_sandbox h cfg (λ sandbox, execute h sandbox code) =
    if truthy (first_blocked (blocked_imports cfg) code) then
      (Ok (sandbox_result ERROR ""
             (default "" (first_blocked (blocked_imports cfg) code))),
       [Os (MkDTemp "sandbox_")])
    else
      match host_write h script wrapper with
      | Some e =>
          (Ok (sandbox_result ERROR "" ("Failed to write script: " +:+ e)),
           [Os (MkDTemp "sandbox_"); Os (MkDTemp "sandbox_");
            Os (WriteFile script wrapper)])
      | None =>
          (Ok (run_script h cfg script ""),
           [Os (MkDTemp "sandbox_"); Os (MkDTemp "sandbox_");
            Os (WriteFile script wrapper);
            Os (RunProcess script "" (timeout_seconds cfg))])
      end.
Proof.
  intros Ht Hmk. cbv zeta.
  assert (Hbye : ∀ st, __exit__ (mkSandbox cfg (Some "") st) = []).
  { intros st. unfold __exit__, _cleanup.
    cbn [config _temp_dir truthy String.eqb negb]. by rewrite andb_false_r. }
  unfold with_sandbox, __enter__, _setup, new_sandbox.
  cbn [config _status]. rewrite Ht, Hmk.
  unfold execute, _check_imports. cbn [config _temp_dir].
  destruct (truthy (first_blocked (blocked_imports cfg) code)).
  { cbv beta iota. rewrite (Hbye RUNNING). reflexivity. }
  cbn [truthy String.eqb negb]. unfold _setup. cbn [config _status].
  rewrite Ht, Hmk. cbv beta iota zeta. cbn [config _temp_dir].
  change (default "" (Some "")) with "".
  destruct (host_write h (path_join "" "_sandbox_script.py")
              (_create_wrapper_script code));
    rewrite (Hbye RUNNING); reflexivity.
Qed.

(** The three ways a session can go. *)
Lemma session_cases (h : Host) (cfg : SandboxConfig) (code : string) :
  (∃ d,
     (truthy (working_dir cfg) = true ∧ working_dir cfg = Some d ∧
      host_makedirs h d = true ∨
      truthy (working_dir cfg) = false ∧ host_mkdtemp h "sandbox_" = Some d) ∧
     d ≠ "") ∨
  (truthy (working_dir cfg) = true ∧
   host_makedirs h (default "" (working_dir cfg)) = false ∨
   truthy (working_dir cfg) = false ∧ host_mkdtemp h "sandbox_" = None) ∨
  (truthy (working_dir cfg) = false ∧ host_mkdtemp h "sandbox_" = Some "").
Proof.
  destruct (truthy (working_dir cfg)) eqn:Ht.
  - apply truthy_some in Ht as (d & Hwd & Hd). rewrite Hwd. simpl.
    destruct (host_makedirs h d) eqn:Hmk.
    + left. exists d. split; [|done]. left. done.
    + right. left. left. done.
  - destruct (host_mkdtemp h "sandbox_") as [d|] eqn:Hmk.
    + destruct (decide (d = "")) as [->|Hd].
      * right. right. done.
      * left. exists d. split; [|done]. right. done.
    + right. left. right. done.
Qed.

Lemma execute_code_split (h : Host) (sandbox_config : option SandboxConfig)
    (code description : string) :
  Direct.execute_code h sandbox_config code description =
    (sr ← (with_sandbox h (default default_config sandbox_config)
             (λ sandbox, execute h sandbox code)).1;
     Ok (Direct.report code description sr),
     (with_sandbox h (default default_config sandbox_config)
        (λ sandbox, execute h sandbox code)).2).
Proof.
  unfold Direct.execute_code.
  by destruct (with_sandbox h _ _) as [ran events].
Qed.

Ltac session_split h cfg code :=
  let d := fresh "d" in
  let Hdir := fresh "Hdir" in
  let Hd := fresh "Hd" in
  let Href := fresh "Href" in
  let Ht := fresh "Ht" in
  let Hmk := fresh "Hmk" in
  destruct (session_cases h cfg code) as [(d & Hdir & Hd)|[Href|[Ht Hmk]]];
  [ rewrite (session_run h cfg code d Hdir Hd)
  | rewrite (session_refused h cfg code Href)
  | rewrite (session_nameless h cfg code Ht Hmk) ];
  cbv zeta.

Lemma removal_cases (h : Host) (cfg : SandboxConfig) (code d : string) :
  RmTree d ∈ (with_sandbox h cfg (λ sandbox, execute h sandbox code)).2 →
  cleanup_on_exit cfg = true ∧ truthy (working_dir cfg) = false ∧
  host_mkdtemp h "sandbox_" = Some d ∧ d ≠ "" ∧
  ∃ calls,
    (with_sandbox h cfg (λ sandbox, execute h sandbox code)).2 =
      (Os <$> calls) ++ [RmTree d].
Proof.
  session_split h cfg code.
  - assert (Hbye : ∀ ev,
      ev ∈ (if cleanup_on_exit cfg && negb (truthy (working_dir cfg))
            then [RmTree d0] else []) →
      ev = RmTree d0 ∧ cleanup_on_exit cfg = true ∧
      truthy (working_dir cfg) = false ∧ host_mkdtemp h "sandbox_" = Some d0 ∧
      (if cleanup_on_exit cfg && negb (truthy (working_dir cfg))
       then [RmTree d0] else []) = [RmTree d0]).
    { intros ev. destruct (cleanup_on_exit cfg); [|by intros ?%elem_of_nil].
      destruct Hdir as [(Ht & _)|(Ht & Hmk)]; rewrite Ht;
        [by intros ?%elem_of_nil|].
      by intros ->%list_elem_of_singleton. }
    destruct (truthy (first_blocked _ code));
      [|destruct (host_write h _ _)]; cbn [snd];
      rewrite ?elem_of_cons; intros H;
      repeat (destruct H as [H|H]; [done|]);
      destruct (Hbye _ H) as ([= ->] & ? & ? & ? & ->);
      (do 4 (split; [done|])).
    + by eexists [_].
    + by eexists [_; _].
    + by eexists [_; _; _].
  - cbn [snd]. by intros ?%list_elem_of_singleton.
  - destruct (truthy (first_blocked _ code));
      [|destruct (host_write h _ _)]; cbn [snd];
      rewrite ?elem_of_cons, ?elem_of_nil; intros H;
      repeat (destruct H as [H|H]; [done|]); done.
Qed.

Lemma own_removed (h : Host) (cfg : SandboxConfig) (code d : string) :
  cleanup_on_exit cfg = true → truthy (working_dir cfg) = false →
  host_mkdtemp h "sandbox_" = Some d → d ≠ "" →
  ∃ calls,
    (with_sandbox h cfg (λ sandbox, execute h sandbox code)).2 =
      (Os <$> (MkDTemp "sandbox_" :: calls)) ++ [RmTree d] ∧
    Forall (λ c, c ≠ MkDTemp "sandbox_" ∧ ∀ p, c ≠ MakeDirs p) calls.
Proof.
  intros Hc Ht Hmk Hd.
  rewrite (session_run h cfg code d (or_intror (conj Ht Hmk)) Hd).
  cbv zeta. rewrite Hc, Ht. cbn [andb negb].
  destruct (truthy (first_blocked _ code));
    [|destruct (host_write h _ _)]; cbn [snd].
  - exists []. split; [done|]. constructor.
  - eexists [_]. split; [done|]. by repeat constructor.
  - eexists [_; _]. split; [done|]. by repeat constructor.
Qed.

Lemma session_escape (h : Host) (cfg : SandboxConfig) (code : string) (e : exn) :
  (with_sandbox h cfg (λ sandbox, execute h sandbox code)).1 = Raise e →
  e = OSError ∧
  ((with_sandbox h cfg (λ sandbox, execute h sandbox code)).2 =
     [Os (MkDTemp "sandbox_")] ∧
   truthy (working_dir cfg) = false ∧ host_mkdtemp h "sandbox_" = None ∨
   ∃ d, (with_sandbox h cfg (λ sandbox, execute h sandbox code)).2 =
          [Os (MakeDirs d)] ∧
        working_dir cfg = Some d ∧ host_makedirs h d = false).
Proof.
  session_split h cfg code.
  - destruct (truthy (first_blocked _ code));
      [|destruct (host_write h _ _)]; done.
  - cbn [fst snd]. intros [= <-]. split; [done|].
    destruct Href as [[Ht Hmk]|[Ht Hmk]]; rewrite Ht.
    + right. apply truthy_some in Ht as (d & Hwd & _). rewrite Hwd in *.
      by exists d.
    + by left.
  - destruct (truthy (first_blocked _ code));
      [|destruct (host_write h _ _)]; done.
Qed.

Lemma session_blocked (h : Host) (cfg : SandboxConfig) (code marker : string) :
  marker ∈ blocked_imports cfg → PyStr.contains marker code = true →
  (∀ sr, (with_sandbox h cfg (λ sandbox, execute h sandbox code)).1 = Ok sr →
     ∃ blocked, blocked ∈ blocked_imports cfg ∧
       PyStr.contains blocked code = true ∧
       sr = sandbox_result ERROR "" ("Blocked import detected: " +:+ blocked)) ∧
  (∀ c, Os c ∈ (with_sandbox h cfg (λ sandbox, execute h sandbox code)).2 →
     c = MkDTemp "sandbox_" ∨ ∃ d, c = MakeDirs d).
Proof.
  intros Hin Hc.
  destruct (first_blocked_some _ _ _ Hin Hc) as (b & Hb & Hbc & Hf).
  assert (Htr : truthy (first_blocked (blocked_imports cfg) code) = true).
  { rewrite Hf. by apply truthy_nonempty. }
  session_split h cfg code; rewrite ?Htr, ?Hf; cbn [fst snd].
  - split.
    + intros sr [= <-]. by exists b.
    + intros c [Hc'|Hc']%elem_of_cons.
      * injection Hc' as ->. destruct (truthy (working_dir cfg)); eauto.
      * destruct (cleanup_on_exit cfg && negb (truthy (working_dir cfg)));
          [by apply list_elem_of_singleton in Hc'|by apply elem_of_nil in Hc'].
  - split; [done|]. intros c [= ->]%list_elem_of_singleton.
    destruct (truthy (working_dir cfg)); eauto.
  - split.
    + intros sr [= <-]. by exists b.
    + intros c [= ->]%list_elem_of_singleton. by left.
Qed.

Lemma session_exit_zero (h : Host) (cfg : SandboxConfig) (code d : string)
    (out err o e : string) (error : option string) :
  (truthy (working_dir cfg) = true ∧ working_dir cfg = Some d ∧
   host_makedirs h d = true ∨
   truthy (working_dir cfg) = false ∧ host_mkdtemp h "sandbox_" = Some d) →
  d ≠ "" →
  first_blocked (blocked_imports cfg) code = None →
  host_write h (path_join d "_sandbox_script.py")
    (_create_wrapper_script code) = None →
  host_run h (path_join d "_sandbox_script.py") d (timeout_seconds cfg) =
    Exited 0 out err →
  json_loads h out = Payload o e error →
  ∃ sr, (with_sandbox h cfg (λ sandbox, execute h sandbox code)).1 = Ok sr ∧
        status sr = COMPLETED ∧
        stdout sr = truncate (max_output_bytes cfg) o ∧
        stderr sr = truncate (max_output_bytes cfg) (e +:+ default "" error).
Proof.
  intros Hdir Hd Hnb Hw Hrun Hj.
  rewrite (session_run h cfg code d Hdir Hd). cbv zeta.
  rewrite Hnb, Hw. cbn [truthy fst]. eexists. split; [done|].
  unfold run_script. rewrite Hrun, Hj. done.
Qed.


End SandboxSession.

(** ** [edit_file]: read, replace, write *)

Section DirectEdit.
Context {World : Type}.
Import Tools Executor.

Lemma contains_empty (s : string) : PyStr.contains "" s = true.
Proof. by destruct s. Qed.

Lemma replace_skip (old new pre rest : string) :
  Direct.replace_from old new (String.length pre) (pre +:+ rest) =
  Direct.replace_from old new 0 rest.
Proof.
  induction pre as [|c pre IH]; [done|]. rewrite append_cons. simpl.
  by rewrite IH.
Qed.

Lemma replace_from_same (old : string) (n : nat) (s : string) :
  old ≠ "" → (String.length s ≤ n)%nat →
  Direct.replace_from old old 0 s = s.
Proof.
  intros Hold. revert s. induction n as [|n IH]; intros s Hn.
  { destruct s; [done|simpl in Hn; lia]. }
  destruct s as [|c s]; [done|].
  cbn [Direct.replace_from].
  destruct (String.prefix old (String c s)) eqn:Hp.
  - apply prefix_iff in Hp as [rest Hrest].
    destruct old as [|c' old']; [done|].
    rewrite append_cons in Hrest. injection Hrest as -> ->.
    match goal with
    | |- context [String.length (String ?a ?o) - 1] =>
        replace (String.length (String a o) - 1) with (String.length o)
          by (simpl; lia)
    end.
    rewrite replace_skip, IH.
    + by rewrite append_cons.
    + simpl in Hn. rewrite length_append in Hn. lia.
  - f_equal. apply IH. simpl in Hn. lia.
Qed.

Lemma interleave_empty (s : string) : Direct.interleave "" s = s.
Proof. induction s as [|c s IH]; [done|]. simpl. by rewrite IH. Qed.

Lemma replace_same (old s : string) : Direct.replace old old s = s.
Proof.
  unfold Direct.replace. destruct (String.eqb_spec old "") as [->|Hne].
  - apply interleave_empty.
  - by apply (replace_from_same old (String.length s)).
Qed.

Lemma length_interleave (new s : string) :
  String.length (Direct.interleave new s) =
  String.length s + (String.length s + 1) * String.length new.
Proof.
  induction s as [|c s IH]; simpl; [lia|].
  rewrite length_append. simpl. rewrite IH. lia.
Qed.


End DirectEdit.

(** ** The planner's keywords *)

Section PlanKeywords.
Import Planner.

Lemma contains_of_prefix (needle s : string) :
  String.prefix needle s = true → PyStr.contains needle s = true.
Proof.
  intros H. destruct s as [|a s].
  - change (PyStr.contains needle "") with (String.prefix needle "" || false).
    by rewrite H.
  - change (PyStr.contains needle (String a s)) with
      (String.prefix needle (String a s) || PyStr.contains needle s).
    by rewrite H.
Qed.

Lemma contains_tail (c : ascii) (needle s : string) :
  PyStr.contains (String c needle) s = true → PyStr.contains needle s = true.
Proof.
  induction s as [|a s IH]; [done|].
  change (PyStr.contains (String c needle) (String a s)) with
    (String.prefix (String c needle) (String a s) ||
     PyStr.contains (String c needle) s).
  change (PyStr.contains needle (String a s)) with
    (String.prefix needle (String a s) || PyStr.contains needle s).
  intros [Hp|Hc]%orb_true_iff.
  - apply prefix_iff in Hp as [rest Hr]. rewrite append_cons in Hr.
    injection Hr as -> ->.
    rewrite (contains_of_prefix needle (needle +:+ rest)); [apply orb_true_r|].
    apply prefix_iff. by exists rest.
  - rewrite (IH Hc). apply orb_true_r.
Qed.

Lemma context_get_empty (key : string) (dflt : PyVal) :
  context_get (Some ∅) key dflt = context_get None key dflt.
Proof. unfold context_get. by rewrite bool_decide_eq_true_2. Qed.


End PlanKeywords.

(** ** The added properties at concrete inputs *)

Section MoreInstances.
Import Planner Tools Executor PlanShape.

Lemma commit_plan_numbered : numbered Scenarios.commit_plan.
Proof. intros [|[|i]] s; vm_compute; intros [= <-]; reflexivity. Qed.

Lemma add_step_fresh_witness :
  ∃ new : PlanStep,
    add_step Scenarios.commit_plan "shell" {[ "command" := VStr "git push" ]}
      "Push" (Some ["step_2"]) =
      (with_steps (steps Scenarios.commit_plan ++ [new]) Scenarios.commit_plan,
       (2, new)) ∧
    id new = "step_3" ∧ depends_on new = ["step_2"] ∧ status new = PENDING ∧
    get_step (with_steps (steps Scenarios.commit_plan ++ [new])
                Scenarios.commit_plan) "step_3" = Some new.
Proof.
  destruct (add_step_fresh Scenarios.commit_plan "shell"
              {[ "command" := VStr "git push" ]} "Push" (Some ["step_2"])
              commit_plan_numbered)
    as (new & Hadd & Hid & _ & _ & Hdeps & Hst & _ & _ & _ & _ & Hget & _).
  exists new. split; [exact Hadd|]. split; [exact Hid|].
  split; [exact Hdeps|]. split; [exact Hst|].
  rewrite Hid in Hget. exact Hget.
Defined.

Lemma loop_only_appends_witness :
  ∃ r,
    execute Examples.executor "read file" Examples.lookup_context tt = Ok (r, tt) ∧
    extends (Planner.plan "read file" Examples.lookup_context)
      (ExecutionResult.plan r) ∧
    numbered (ExecutionResult.plan r).
Proof.
  destruct (execute Examples.executor "read file" Examples.lookup_context tt)
    as [[r []]|e] eqn:E; [|vm_compute in E; discriminate].
  destruct (proj2 (@loop_only_appends unit) Examples.executor "read file"
              (Planner.plan "read file" Examples.lookup_context) tt tt r E)
    as (Hext & _ & Hnum).
  exists r. split; [reflexivity|]. split; [exact Hext|].
  apply Hnum. intros [|i] s; vm_compute; intros [= <-]; reflexivity.
Defined.

Lemma loop_stops_witness :
  execute_plan Scenarios.friendly_executor "wait" Scenarios.orphan_plan tt =
    Ok (ExecutionResult.mk "wait" false [] None Scenarios.orphan_plan 1, tt).
Proof.
  apply (proj1 (proj2 (@loop_stops unit))); vm_compute; reflexivity.
Defined.

Lemma all_succeed_all_complete_witness :
  ∃ r,
    execute_plan Scenarios.friendly_executor "git commit"
      Scenarios.commit_plan tt = Ok (r, tt) ∧
    ExecutionResult.success r = true ∧
    ExecutionResult.error r = None ∧
    status <$> steps (ExecutionResult.plan r) = [COMPLETED; COMPLETED] ∧
    ExecutionStep.step_id <$> ExecutionResult.steps r ≡ₚ ["step_1"; "step_2"].
Proof.
  destruct (all_succeed_all_complete Scenarios.friendly_executor "git commit"
              Scenarios.commit_plan tt)
    as (r & [] & Hrun & Hsucc & Herr & Hsteps & Hperm).
  - intros s Hs. vm_compute in Hs.
    apply elem_of_cons in Hs as [->|Hs];
      [|apply list_elem_of_singleton in Hs as ->];
      (split; [vm_compute; reflexivity|]);
      (split; [vm_compute; reflexivity|]); intros []; vm_compute; reflexivity.
  - intros s Hs. vm_compute in Hs.
    apply elem_of_cons in Hs as [->|Hs];
      [|apply list_elem_of_singleton in Hs as ->]; reflexivity.
  - vm_compute. repeat constructor; rewrite ?elem_of_cons, ?elem_of_nil;
      intros H; repeat destruct H as [H|H]; discriminate || done.
  - intros [|[|i]] s d; vm_compute; intros [= <-] Hd.
    + by apply elem_of_nil in Hd.
    + apply list_elem_of_singleton in Hd as ->.
      exists 0, (new_step "step_1" "shell" {[ "command" := VStr "git add -A" ]}
                   "Stage changes" []).
      split; [lia|]. split; reflexivity.
  - vm_compute. discriminate.
  - exists r. split; [exact Hrun|]. split; [exact Hsucc|]. split; [exact Herr|].
    split; [|exact Hperm].
    remember (steps (ExecutionResult.plan r)) as l eqn:El. clear El.
    vm_compute in Hsteps.
    apply Forall2_cons_inv_l in Hsteps as (s1 & l1 & [_ H1] & Hsteps & ->).
    apply Forall2_cons_inv_l in Hsteps as (s2 & l2 & [_ H2] & Hsteps & ->).
    apply Forall2_nil_inv_l in Hsteps as ->.
    simpl. f_equal; [exact H1|]. f_equal. exact H2.
Defined.


Lemma sandbox_execute_effects_witness :
  Sandbox._status
    (Sandbox.execute Examples.slow_host Examples.short_fuse "print(1)").1.2 =
    Sandbox.RUNNING ∧
  length (filter (λ c, Sandbox.is_spawn c = true)
            (Sandbox.execute Examples.slow_host Examples.short_fuse
               "print(1)").2) = 1.
Proof.
  split.
  - set (run := Sandbox.execute Examples.slow_host Examples.short_fuse
                  "print(1)").
    refine (proj1 (proj2 (sandbox_execute_effects Examples.slow_host
              Examples.short_fuse run.1.2 "print(1)" run.1.1 run.2 _))).
    subst run. by destruct (Sandbox.execute _ _ _) as [[res self'] calls].
  - vm_compute. reflexivity.
Defined.


(** A run of [execute_code] on that machine: the user's code divides by
    zero, the call reports success and no error, and the scratch
    directory is removed at the end. *)
Lemma execute_code_swallows_example :
  ∃ r step,
    Direct.execute_code Scenarios.quiet_host None "print(1/0)" "demo" =
      (Ok r,
       [Session.Os (Sandbox.MkDTemp "sandbox_");
        Session.Os (Sandbox.WriteFile "/tmp/sandbox_0002/_sandbox_script.py"
                      (Sandbox._create_wrapper_script "print(1/0)"));
        Session.Os (Sandbox.RunProcess "/tmp/sandbox_0002/_sandbox_script.py"
                      "/tmp/sandbox_0002" 30);
        Session.RmTree "/tmp/sandbox_0002"]) ∧
    Direct.success r = true ∧ Direct.error r = None ∧
    Direct.steps r = [step] ∧
    Direct.output_error (Direct.result step) = None.
Proof. eexists _, _. vm_compute. repeat split; reflexivity. Qed.

(** The file and shell tools on the machine of the scenarios. *)
Lemma builtin_tools_example :
  Builtin.FileReadTool.execute Scenarios.machine (Builtin.FileReadTool.new None)
    {[ "path" := VStr "/etc/passwd" ]} =
    (Ok (tool_result PERMISSION_DENIED ""
           (Some "Access to /etc/passwd is not allowed")), []) ∧
  Builtin.FileReadTool.execute Scenarios.machine (Builtin.FileReadTool.new None)
    {[ "path" := VStr "/workshop/key" ]} =
    (Ok (tool_result ERROR "" (Some "File not found: /workshop/key")),
     [Builtin.OpenRead "/workshop/key" (VStr "utf-8")]) ∧
  (Builtin.FileWriteTool.execute Scenarios.machine
     (Builtin.FileWriteTool.new None)
     (<[ "path" := VStr "out/log.txt" ]>
        (<[ "content" := VStr "done" ]> {[ "mode" := VStr "Append" ]}))).2 =
    [Builtin.MakeDirs "out"; Builtin.OpenWrite "out/log.txt" "w"] ∧
  Builtin.ShellTool.execute Scenarios.machine Scenarios.shell
    {[ "command" := VStr "sudo rm -rf / --no-preserve-root" ]} =
    (Ok (tool_result PERMISSION_DENIED ""
           (Some "Command not allowed: sudo rm -rf / --no-preserve-root")), []).
Proof. vm_compute. repeat split; reflexivity. Qed.

End MoreInstances.
